(** * Hoymiles Cloud bridge: API client, refresh cycle and value coercion

    A shallow embedding of
      - [sensor.py]       : [safe_int_convert], [safe_float_convert],
                            [parse_timestamp], the sensor descriptions
                            and the entities of the platform;
      - [hoymiles_api.py] : the [HoymilesAPI] session object and its calls;
      - [__init__.py]     : set-up and the coordinator's
                            [async_update_data] cycle.

    Python values coming out of [json.loads] are the inductive [value];
    exceptions are the [Raise] branch of [result]; the object state, the
    clock read by [time.time()] and the requests handed to
    [session.post] are threaded in a state-and-exception monad. *)

From Stdlib Require Import ZArith QArith Qabs List String Ascii Bool Lia Lqa.
From Stdlib Require Import Floats.SpecFloat DecimalString.
Import ListNotations.

Local Open Scope string_scope.
Local Open Scope Z_scope.

Set Warnings "-register-all".

(* ===================================================================== *)
(** ** Python values and exceptions *)
(* ===================================================================== *)

(** What [json.loads] can produce.  Floats are binary64 numbers in the
    Standard Library's specification format ([prec = 53], [emax = 1024]);
    a [dict] keeps its insertion order, as in Python. *)
Inductive value : Type :=
  | VNone
  | VBool (b : bool)
  | VInt (n : Z)
  | VFloat (f : spec_float)
  | VStr (s : string)
  | VList (l : list value)
  | VDict (d : list (string * value)).

Inductive exn : Type :=
  | ClientError            (* aiohttp: the request could not be completed *)
  | JSONDecodeError        (* the body is not JSON *)
  | AttributeError
  | TypeError
  | ValueError
  | OverflowError
  | UpdateFailed (cause : exn)
  | TimeoutError           (* asyncio: the answer did not come in time *)
  | ContentTypeError.      (* aiohttp: the answer is not declared as JSON *)

Inductive result (A : Type) : Type :=
  | Ok (a : A)
  | Raise (e : exn).
Arguments Ok {A} a.
Arguments Raise {A} e.

Definition rbind {A B} (r : result A) (k : A -> result B) : result B :=
  match r with
  | Ok a => k a
  | Raise e => Raise e
  end.

Declare Scope result_scope.
Delimit Scope result_scope with result.
Notation "x <~ r ;; k" := (rbind r (fun x => k))
  (at level 100, r at next level, right associativity) : result_scope.
Local Open Scope result_scope.

(** *** Dictionaries with insertion order *)

Definition dict (V : Type) := list (string * V).

Fixpoint dict_get {V} (d : dict V) (k : string) : option V :=
  match d with
  | [] => None
  | (k', v) :: d' => if String.eqb k' k then Some v else dict_get d' k
  end.

(** [d[k] = v]: an existing key keeps its place, a new key goes last. *)
Fixpoint dict_set {V} (d : dict V) (k : string) (v : V) : dict V :=
  match d with
  | [] => [(k, v)]
  | (k', v') :: d' =>
      if String.eqb k' k then (k', v) :: d' else (k', v') :: dict_set d' k v
  end.

Definition keys {V} (d : dict V) : list string := map fst d.

(** *** Operations of the Python runtime on values *)

(** [bool(v)], as used by [if not v]. *)
Definition truthy (v : value) : bool :=
  match v with
  | VNone => false
  | VBool b => b
  | VInt n => negb (n =? 0)
  | VFloat (S754_zero _) => false
  | VFloat _ => true
  | VStr s => negb (String.eqb s "")
  | VList l => match l with [] => false | _ => true end
  | VDict d => match d with [] => false | _ => true end
  end.

(** [v == s] for a string literal [s]: only a [str] can be equal to it. *)
Definition eq_str (v : value) (s : string) : bool :=
  match v with
  | VStr s' => String.eqb s' s
  | _ => false
  end.

(** [v.get(k, default)]: only [dict] has the method. *)
Definition py_get (v : value) (k : string) (default : value) : result value :=
  match v with
  | VDict d => Ok (match dict_get d k with Some x => x | None => default end)
  | _ => Raise AttributeError
  end.

(** [v[k] = x]: [dict] stores; [list] wants an integer index, the others
    do not support item assignment (both [TypeError]). *)
Definition py_setitem (v : value) (k : string) (x : value) : result value :=
  match v with
  | VDict d => Ok (VDict (dict_set d k x))
  | _ => Raise TypeError
  end.

Definition chars (s : string) : list value :=
  map (fun c => VStr (String c EmptyString)) (list_ascii_of_string s).

(** [for x in v]: the sequence iterated over. *)
Definition py_iter (v : value) : result (list value) :=
  match v with
  | VList l => Ok l
  | VDict d => Ok (map (fun kv => VStr (fst kv)) d)
  | VStr s => Ok (chars s)
  | _ => Raise TypeError
  end.

(** [v[:20]]: strings and lists can be sliced; a number cannot
    ([TypeError]), nor a [dict] (an exception as well, taken here to be
    the same one). *)
Definition py_slice20 (v : value) : result unit :=
  match v with
  | VStr _ | VList _ => Ok tt
  | _ => Raise TypeError
  end.

(** *** Characters, whitespace and decimal digits

    Strings are sequences of characters with a code below 256.  Among
    these [str.isspace], and with it [str.strip] and the [\s] of a
    pattern, holds of the codes 9-13, 28-32, 133 and 160; the decimal
    digits are the ten of ASCII. *)

Definition is_space (c : ascii) : bool :=
  let n := N_of_ascii c in
  (((9 <=? n) && (n <=? 13)) || ((28 <=? n) && (n <=? 32))
   || (n =? 133) || (n =? 160))%N.

Fixpoint lstrip (l : list ascii) : list ascii :=
  match l with
  | c :: l' => if is_space c then lstrip l' else l
  | [] => []
  end.

Definition strip_chars (l : list ascii) : list ascii :=
  rev (lstrip (rev (lstrip l))).

(** The white space [int()] and [float()] drop around a number: they
    read a blank that is not ASCII as a space and then skip the white
    space of C, the codes 9-13 and 32.  The codes 28-31 are not part of
    it. *)
Definition is_number_space (c : ascii) : bool :=
  let n := N_of_ascii c in
  (((9 <=? n) && (n <=? 13)) || (n =? 32) || (n =? 133) || (n =? 160))%N.

Fixpoint lstrip_number (l : list ascii) : list ascii :=
  match l with
  | c :: l' => if is_number_space c then lstrip_number l' else l
  | [] => []
  end.

Definition strip_number (l : list ascii) : list ascii :=
  rev (lstrip_number (rev (lstrip_number l))).

(** [s.strip()] *)
Definition str_strip (s : string) : string :=
  string_of_list_ascii (strip_chars (list_ascii_of_string s)).

Definition digit_of (c : ascii) : option Z :=
  let n := N_of_ascii c in
  if ((48 <=? n) && (n <=? 57))%N then Some (Z.of_N n - 48) else None.

(** [digit (["_"] digit)*] after its first digit: the digits read and the
    rest of the input. *)
Fixpoint digit_tail (l : list ascii) : list Z * list ascii :=
  match l with
  | [] => ([], [])
  | c :: l' =>
      match digit_of c with
      | Some d => let (ds, r) := digit_tail l' in (d :: ds, r)
      | None =>
          if Ascii.eqb c "_" then
            match l' with
            | c2 :: l'' =>
                match digit_of c2 with
                | Some d => let (ds, r) := digit_tail l'' in (d :: ds, r)
                | None => ([], l)
                end
            | [] => ([], l)
            end
          else ([], l)
      end
  end.

(** [digitpart ::= digit (["_"] digit)*], if the input starts with one. *)
Definition digitpart (l : list ascii) : option (list Z * list ascii) :=
  match l with
  | c :: l' =>
      match digit_of c with
      | Some d => let (ds, r) := digit_tail l' in Some (d :: ds, r)
      | None => None
      end
  | [] => None
  end.

Definition number_of (ds : list Z) : Z :=
  fold_left (fun acc d => 10 * acc + d) ds 0.

(** An optional sign: [true] for "-". *)
Definition take_sign (l : list ascii) : bool * list ascii :=
  match l with
  | c :: l' =>
      if Ascii.eqb c "-" then (true, l')
      else if Ascii.eqb c "+" then (false, l')
      else (false, l)
  | [] => (false, [])
  end.

(** The most digits [int()] reads from a string: the default of
    [sys.set_int_max_str_digits]. *)
Definition int_max_str_digits : nat := 4300.

(** [int(s)] for a string, base ten. *)
Definition py_int (s : string) : result Z :=
  let (neg, l) := take_sign (strip_number (list_ascii_of_string s)) in
  match digitpart l with
  | Some (ds, []) =>
      if (int_max_str_digits <? List.length ds)%nat then Raise ValueError
      else Ok (if neg then - number_of ds else number_of ds)
  | _ => Raise ValueError
  end.

(* ===================================================================== *)
(** ** binary64 *)
(* ===================================================================== *)

Definition prec : Z := 53.
Definition emax : Z := 1024.

Definition is_finite (f : spec_float) : bool :=
  match f with
  | S754_zero _ | S754_finite _ _ _ => true
  | _ => false
  end.

(** The rational number a finite float stands for. *)
Definition float_value (f : spec_float) : Q :=
  match f with
  | S754_finite s m e =>
      let n := if s then Zneg m else Zpos m in
      match e with
      | Zneg k => Qmake n (2 ^ k)%positive
      | _ => inject_Z (n * 2 ^ e)
      end
  | _ => 0%Q
  end.

(** [float(n)] for an [int]: the nearest double, ties to even;
    an [int] beyond the largest double is an [OverflowError]. *)
Definition float_of_int (n : Z) : result spec_float :=
  match binary_normalize prec emax n 0 false with
  | S754_infinity _ => Raise OverflowError
  | f => Ok f
  end.

(** The double nearest to [(-1)^neg * p * 10^k], ties to even. *)
Definition float_of_decimal (neg : bool) (p : Z) (k : Z) : spec_float :=
  match p with
  | Z0 => S754_zero neg
  | _ =>
      match k with
      | Zneg k' =>
          let '(q, e, l) := SFdiv_core_binary prec emax p 0 (Zpos (10 ^ k')) 0 in
          binary_round_aux prec emax neg q e l
      | _ => binary_normalize prec emax (if neg then - (p * 10 ^ k) else p * 10 ^ k) 0 neg
      end
  end.

Definition lower (c : ascii) : ascii :=
  let n := N_of_ascii c in
  if ((65 <=? n) && (n <=? 90))%N then ascii_of_N (n + 32) else c.

Definition is_word (l : list ascii) (w : string) : bool :=
  String.eqb (string_of_list_ascii (map lower l)) w.

(** [exponent ::= ("e" | "E") [sign] digitpart], up to the end of input;
    no exponent at all counts as zero. *)
Definition exponent_of (l : list ascii) : option Z :=
  match l with
  | [] => Some 0
  | c :: l' =>
      if Ascii.eqb (lower c) "e" then
        let (neg, l'') := take_sign l' in
        match digitpart l'' with
        | Some (ds, []) => Some (if neg then - number_of ds else number_of ds)
        | _ => None
        end
      else None
  end.

(** [number ::= [digitpart] "." digitpart | digitpart ["."]]: the integer
    digits, the fraction digits and the rest of the input. *)
Definition decimal_of (l : list ascii) : option (list Z * list Z * list ascii) :=
  match digitpart l with
  | Some (ip, r) =>
      match r with
      | c :: r' =>
          if Ascii.eqb c "." then
            match digitpart r' with
            | Some (fp, r'') => Some (ip, fp, r'')
            | None => Some (ip, [], r')
            end
          else Some (ip, [], r)
      | [] => Some (ip, [], [])
      end
  | None =>
      match l with
      | c :: r' =>
          if Ascii.eqb c "." then
            match digitpart r' with
            | Some (fp, r'') => Some ([], fp, r'')
            | None => None
            end
          else None
      | [] => None
      end
  end.

(** The sign, decimal mantissa and decimal exponent a numeric string
    denotes: [(-1)^neg * p * 10^k]. *)
Definition scan_decimal (l : list ascii) : option (bool * Z * Z) :=
  let (neg, l1) := take_sign l in
  match decimal_of l1 with
  | Some (ip, fp, r) =>
      match exponent_of r with
      | Some e => Some (neg, number_of (ip ++ fp), e - Z.of_nat (List.length fp))
      | None => None
      end
  | None => None
  end.

(** [float(s)] for a string: surrounding whitespace is dropped, then
    [[sign] ("inf" | "infinity" | "nan" | floatnumber)], letters in
    either case. *)
Definition float_of_string (s : string) : result spec_float :=
  let l := strip_number (list_ascii_of_string s) in
  let (neg, l1) := take_sign l in
  if is_word l1 "inf" || is_word l1 "infinity" then Ok (S754_infinity neg)
  else if is_word l1 "nan" then Ok S754_nan
  else
    match scan_decimal l with
    | Some (sg, p, k) => Ok (float_of_decimal sg p k)
    | None => Raise ValueError
    end.

(** [float(v)] *)
Definition py_float (v : value) : result spec_float :=
  match v with
  | VFloat f => Ok f
  | VInt n => float_of_int n
  | VBool b => Ok (if b then SFone prec emax else S754_zero false)
  | VStr s => float_of_string s
  | VNone | VList _ | VDict _ => Raise TypeError
  end.

(** [int(f)] for a float: the fraction is dropped; infinities are an
    [OverflowError], NaN a [ValueError]. *)
Definition int_of_float (f : spec_float) : result Z :=
  match f with
  | S754_zero _ => Ok 0
  | S754_finite s m e =>
      let a := match e with
               | Zneg k => Zpos m / 2 ^ Zpos k
               | _ => Zpos m * 2 ^ e
               end in
      Ok (if s then - a else a)
  | S754_infinity _ => Raise OverflowError
  | S754_nan => Raise ValueError
  end.

(* ===================================================================== *)
(** ** sensor.py: value coercion *)
(* ===================================================================== *)

Module Sensor.

Definition is_none (v : value) : bool :=
  match v with VNone => true | _ => false end.

Definition is_blank (v : value) : bool :=
  match v with
  | VStr s => String.eqb (str_strip s) ""
  | _ => false
  end.

(** [except (ValueError, TypeError)]: these two become the default, any
    other exception leaves the function. *)
Definition except_value_type {A} (r : result A) (default : A) : result A :=
  match r with
  | Raise ValueError | Raise TypeError => Ok default
  | _ => r
  end.

Definition safe_int_convert (v : value) : result Z :=
  if is_none v || eq_str v "-" || eq_str v "" then Ok 0
  else if is_blank v then Ok 0
  else
    match v with
    | VBool b => Ok (if b then 1 else 0)
    | _ => except_value_type (rbind (py_float v) int_of_float) 0
    end.

Definition safe_float_convert (v : value) : result spec_float :=
  if is_none v || eq_str v "-" || eq_str v "" then Ok (S754_zero false)
  else if is_blank v then Ok (S754_zero false)
  else
    match v with
    | VBool b => Ok (if b then SFone prec emax else S754_zero false)
    | _ => except_value_type (py_float v) (S754_zero false)
    end.

End Sensor.

(* ===================================================================== *)
(** ** hoymiles_api.py: the session object and its calls *)
(* ===================================================================== *)

(** *** const.py *)

Definition API_BASE_URL := "https://neapi.hoymiles.com".
Definition API_AUTH_URL := API_BASE_URL ++ "/iam/pub/0/auth/login".
Definition API_STATIONS_URL := API_BASE_URL ++ "/pvm/api/0/station/select_by_page".
Definition API_DTU_URL := API_BASE_URL ++ "/pvm/api/0/dev/dtu/select_by_page".
Definition API_MICROINVERTERS_URL :=
  API_BASE_URL ++ "/pvm/api/0/dev/micro/select_by_station".
Definition API_REAL_TIME_DATA_URL :=
  API_BASE_URL ++ "/pvm-data/api/0/station/data/count_station_real_data".
Definition API_MICRO_DETAIL_URL := API_BASE_URL ++ "/pvm/api/0/dev/micro/find".
Definition API_DTU_DETAIL_URL := API_BASE_URL ++ "/pvm/api/0/dev/dtu/find".

(** *** The world outside the program *)

(** The arguments of one [session.post(url, headers=..., json=...)]. *)
Record request := { url : string; headers : dict value; json : dict value }.

(** What comes back.  No answer: the transport raises its
    [ClientError], or, when its own time limit has passed, a
    [TimeoutError].  An answer declared as [application/json]: its body
    is a JSON document or is not.  An answer declared as something
    else, with a body that [json.loads] reads or does not read. *)
Inductive response : Type :=
  | Unreachable
  | NotJson
  | Json (v : value)
  | TimedOut
  | Mistyped (body : option value).

(** The parts of the run-time environment the program does not define:
    the MD5 digest of [hashlib], [str()] of floats and containers, and
    the cloud service.  The service answers a request knowing the
    requests made before it, and takes some time to do so. *)
Record environment := {
  md5_hexdigest : string -> string;
  repr : value -> string;
  server : list request -> request -> response;
  latency : list request -> request -> Q
}.

(** The attributes of a [HoymilesAPI] object.  [_token_valid_time] is
    written by the constructor only and is the constant below. *)
Record HoymilesAPI := {
  _username : string;
  _password : string;
  _token : value;
  _token_expires_at : Q
}.

Definition _token_valid_time : Q := 7200.

(** [HoymilesAPI.__init__] *)
Definition new_api (username password : string) : HoymilesAPI :=
  {| _username := username; _password := password;
     _token := VNone; _token_expires_at := 0 |}.

(** The object, the value [time.time()] would return now, and the
    requests made so far, oldest first. *)
Record world := { self : HoymilesAPI; clock : Q; sent : list request }.

(** *** Computations that read and write the world and may raise *)

Definition M (A : Type) : Type := world -> result A * world.

Definition ret {A} (a : A) : M A := fun w => (Ok a, w).

Definition bind {A B} (m : M A) (k : A -> M B) : M B :=
  fun w =>
    match m w with
    | (Ok a, w') => k a w'
    | (Raise e, w') => (Raise e, w')
    end.

Definition raise {A} (e : exn) : M A := fun w => (Raise e, w).

Definition lift {A} (r : result A) : M A := fun w => (r, w).

(** [try: m except Exception as e: h e] *)
Definition try_except {A} (m : M A) (h : exn -> M A) : M A :=
  fun w =>
    match m w with
    | (Ok a, w') => (Ok a, w')
    | (Raise e, w') => h e w'
    end.

Declare Scope m_scope.
Delimit Scope m_scope with M.
Notation "x <- m ;; k" := (bind m (fun x => k))
  (at level 100, m at next level, right associativity) : m_scope.
Notation "m ;; k" := (bind m (fun _ => k))
  (at level 100, right associativity) : m_scope.

Fixpoint foldM {A B} (f : B -> A -> M B) (l : list A) (b : B) : M B :=
  match l with
  | [] => ret b
  | a :: l' => bind (f b a) (foldM f l')
  end.

Fixpoint rfold {A B} (f : B -> A -> result B) (l : list A) (b : B) : result B :=
  match l with
  | [] => Ok b
  | a :: l' => rbind (f b a) (rfold f l')
  end.

Definition get_self : M HoymilesAPI := fun w => (Ok (self w), w).

Definition set_token (t : value) : M unit :=
  fun w =>
    (Ok tt,
     {| self := {| _username := _username (self w);
                   _password := _password (self w);
                   _token := t;
                   _token_expires_at := _token_expires_at (self w) |};
        clock := clock w; sent := sent w |}).

Definition set_token_expires_at (t : Q) : M unit :=
  fun w =>
    (Ok tt,
     {| self := {| _username := _username (self w);
                   _password := _password (self w);
                   _token := _token (self w);
                   _token_expires_at := t |};
        clock := clock w; sent := sent w |}).

(** [time.time()] *)
Definition time_time : M Q := fun w => (Ok (clock w), w).

(** A record of one device, as [get_dtus] and [get_microinverters]
    build them: [{'id': ..., 'name': ...}]. *)
Record device := { dev_id : string; dev_name : value }.

(** What [get_dtus] and [get_microinverters] return: the list of the
    records built from an accepted listing, or the empty [dict] they
    return when the listing is refused. *)
Inductive devices : Type :=
  | DeviceList (l : list device)
  | EmptyDict.

(** [for data in devices]: an empty [dict] has no key to give. *)
Definition each (ds : devices) : list device :=
  match ds with
  | DeviceList l => l
  | EmptyDict => []
  end.

Definition json_headers : dict value :=
  [("Content-Type", VStr "application/json"); ("Accept", VStr "application/json")].

Definition auth_headers (token : value) : dict value :=
  (json_headers ++ [("Authorization", token)])%list.

Definition page_request (sid : Z) : dict value :=
  [("sid", VInt sid); ("page_size", VInt 1000); ("page_num", VInt 1);
   ("show_warn", VInt 0)].

(** [resp.get("status") == "0" and resp.get("message") == "success"] *)
Definition is_success (resp : value) : result bool :=
  status <~ py_get resp "status" VNone ;;
  if eq_str status "0"
  then (message <~ py_get resp "message" VNone ;;
        Ok (eq_str message "success"))
  else Ok false.

(** [resp.get("data", {}).get("list", [])], ready to be iterated over. *)
Definition data_list (resp : value) : result (list value) :=
  data <~ py_get resp "data" (VDict []) ;;
  items <~ py_get data "list" (VList []) ;;
  py_iter items.

(** The argument of the debug message sent before each listing request:
    [self._token[:20] if self._token else "None"]. *)
Definition token_prefix (token : value) : result unit :=
  if truthy token then py_slice20 token else Ok tt.

Section Api.

Variable E : environment.

(** [str(v)] *)
Definition py_str (v : value) : string :=
  match v with
  | VNone => "None"
  | VBool true => "True"
  | VBool false => "False"
  | VInt n => NilZero.string_of_int (Z.to_int n)
  | VStr s => s
  | VFloat _ | VList _ | VDict _ => repr E v
  end.

(** [session.post(url, headers=headers, json=data)] followed by
    [json.loads(await response.text())], the way the listing and
    telemetry calls read an answer: what the answer is declared as does
    not matter. *)
Definition post (u : string) (h d : dict value) : M value :=
  fun w =>
    let req := {| url := u; headers := h; json := d |} in
    let w' := {| self := self w;
                 clock := (clock w + latency E (sent w) req)%Q;
                 sent := (sent w ++ [req])%list |} in
    match server E (sent w) req with
    | Unreachable => (Raise ClientError, w')
    | TimedOut => (Raise TimeoutError, w')
    | NotJson | Mistyped None => (Raise JSONDecodeError, w')
    | Json v | Mistyped (Some v) => (Ok v, w')
    end.

(** [session.post(...)] followed by [await response.json()], the way
    [authenticate] reads an answer: one not declared as JSON is a
    [ContentTypeError], whatever its body. *)
Definition post_json (u : string) (h d : dict value) : M value :=
  fun w =>
    let req := {| url := u; headers := h; json := d |} in
    let w' := {| self := self w;
                 clock := (clock w + latency E (sent w) req)%Q;
                 sent := (sent w ++ [req])%list |} in
    match server E (sent w) req with
    | Unreachable => (Raise ClientError, w')
    | TimedOut => (Raise TimeoutError, w')
    | Mistyped _ => (Raise ContentTypeError, w')
    | NotJson => (Raise JSONDecodeError, w')
    | Json v => (Ok v, w')
    end.

Local Open Scope m_scope.

(** [time.time() >= self._token_expires_at].  The readings of the
    clock and the expiry computed from them are exact numbers here,
    where the source has doubles. *)
Definition is_token_expired : M bool :=
  now <- time_time ;;
  s <- get_self ;;
  ret (Qle_bool (_token_expires_at s) now).

Definition authenticate : M bool :=
  s <- get_self ;;
  let md5_password := md5_hexdigest E (_password s) in
  let data := [("user_name", VStr (_username s)); ("password", VStr md5_password)] in
  resp <- post_json API_AUTH_URL json_headers data ;;
  ok <- lift (is_success resp) ;;
  if ok then
    token <- lift (data <~ py_get resp "data" (VDict []) ;;
                   py_get data "token" VNone) ;;
    set_token token ;;
    now <- time_time ;;
    set_token_expires_at (now + _token_valid_time)%Q ;;
    ret true
  else ret false.

(** [if not self._token: await self.authenticate()] *)
Definition ensure_token : M unit :=
  s <- get_self ;;
  if truthy (_token s) then ret tt else (authenticate ;; ret tt).

Definition get_stations : M (dict value) :=
  ensure_token ;;
  s <- get_self ;;
  let headers := auth_headers (_token s) in
  let data := [("page_size", VInt 10); ("page_num", VInt 1)] in
  lift (token_prefix (_token s)) ;;
  resp <- post API_STATIONS_URL headers data ;;
  ok <- lift (is_success resp) ;;
  if ok then
    stations_data <- lift (data_list resp) ;;
    lift (rfold (fun stations station =>
                   station_id <~ py_get station "id" VNone ;;
                   station_name <~ py_get station "name" VNone ;;
                   Ok (dict_set stations (py_str station_id) station_name))
                stations_data [])
  else ret [].

(** The two device listings differ in the address asked and in the field
    taken as the name. *)
Definition list_devices (u name_field station_id : string) : M devices :=
  ensure_token ;;
  s <- get_self ;;
  let headers := auth_headers (_token s) in
  sid <- lift (py_int station_id) ;;
  lift (token_prefix (_token s)) ;;
  resp <- post u headers (page_request sid) ;;
  ok <- lift (is_success resp) ;;
  if ok then
    devices_data <- lift (data_list resp) ;;
    found <- lift (rfold (fun found dev =>
                            i <~ py_get dev "id" VNone ;;
                            n <~ py_get dev name_field VNone ;;
                            Ok (found ++ [{| dev_id := py_str i; dev_name := n |}])%list)
                         devices_data []) ;;
    ret (DeviceList found)
  else ret EmptyDict.

Definition get_dtus (station_id : string) : M devices :=
  list_devices API_DTU_URL "model_no" station_id.

Definition get_microinverters (station_id : string) : M devices :=
  list_devices API_MICROINVERTERS_URL "init_hard_no" station_id.

Definition get_real_time_data_station (station_id : string) : M value :=
  ensure_token ;;
  s <- get_self ;;
  let headers := auth_headers (_token s) in
  sid <- lift (py_int station_id) ;;
  resp <- post API_REAL_TIME_DATA_URL headers [("sid", VInt sid)] ;;
  ok <- lift (is_success resp) ;;
  if ok then lift (py_get resp "data" (VDict [])) else ret (VDict []).

(** The body of the loop over the concentrator listing: the entry whose
    id reads as [dtu_id] gives its two fields to [dtu_data]. *)
Definition patch_dtu (dtu_id : string) (dtu_data dtu_single_data : value)
  : result value :=
  i <~ py_get dtu_single_data "id" VNone ;;
  if String.eqb dtu_id (py_str i) then
    warn_data <~ py_get dtu_single_data "warn_data" VNone ;;
    dtu_data <~ py_setitem dtu_data "warn_data" warn_data ;;
    model_no <~ py_get dtu_single_data "model_no" VNone ;;
    py_setitem dtu_data "model_no" model_no
  else Ok dtu_data.

Definition get_real_time_data_dtu (station_id dtu_id : string) : M value :=
  ensure_token ;;
  s <- get_self ;;
  let headers := auth_headers (_token s) in
  i <- lift (py_int dtu_id) ;;
  sid <- lift (py_int station_id) ;;
  resp <- post API_DTU_DETAIL_URL headers [("id", VInt i); ("sid", VInt sid)] ;;
  ok <- lift (is_success resp) ;;
  if ok then
    dtu_data <- lift (py_get resp "data" (VDict [])) ;;
    resp2 <- post API_DTU_URL headers (page_request sid) ;;
    ok2 <- lift (is_success resp2) ;;
    if ok2 then
      dtus_data_list <- lift (data_list resp2) ;;
      lift (rfold (patch_dtu dtu_id) dtus_data_list dtu_data)
    else ret dtu_data
  else ret (VDict []).

Definition get_real_time_data_microinverter (station_id microinverter_id : string)
  : M value :=
  ensure_token ;;
  s <- get_self ;;
  let headers := auth_headers (_token s) in
  i <- lift (py_int microinverter_id) ;;
  sid <- lift (py_int station_id) ;;
  resp <- post API_MICRO_DETAIL_URL headers [("id", VInt i); ("sid", VInt sid)] ;;
  ok <- lift (is_success resp) ;;
  if ok then lift (py_get resp "data" (VDict [])) else ret (VDict []).

End Api.

(* ===================================================================== *)
(** ** __init__.py: set-up and the refresh cycle *)
(* ===================================================================== *)

(** The value published for one entity: [{"real_time_data": ...}]. *)
Definition entry (real_time_data : value) : value :=
  VDict [("real_time_data", real_time_data)].

(** A snapshot: entity identifier to published value. *)
Definition snapshot := dict value.

(** What set-up discovers: the stations, and per station its
    concentrators and its micro-inverters. *)
Record topology := {
  stations : dict value;
  dtus : dict devices;
  microinverters : dict devices
}.

Section Cycle.

Variable E : environment.

Local Open Scope m_scope.

(** The loop of [async_setup_entry] over the stations found. *)
Definition discover (sts : dict value) : M topology :=
  foldM (fun t station_id =>
           ds <- get_dtus E station_id ;;
           ms <- get_microinverters E station_id ;;
           ret {| stations := stations t;
                  dtus := dict_set (dtus t) station_id ds;
                  microinverters := dict_set (microinverters t) station_id ms |})
        (keys sts)
        {| stations := sts; dtus := []; microinverters := [] |}.

(** The part of [async_setup_entry] that talks to the service.  [None]
    is the source's [return False]: authentication refused or raising,
    no station found, or discovery raising. *)
Definition async_setup_entry : M (option topology) :=
  auth_result <- try_except (authenticate E) (fun _ => ret false) ;;
  if negb auth_result then ret None
  else
    try_except
      (sts <- get_stations E ;;
       match sts with
       | [] => ret None
       | _ => t <- discover sts ;; ret (Some t)
       end)
      (fun _ => ret None).

(** [if api.is_token_expired(): await api.authenticate()] *)
Definition renew_token : M unit :=
  expired <- is_token_expired ;;
  if expired then (authenticate E ;; ret tt) else ret tt.

(** [for dtu_data in dtus_data: ...] *)
Definition update_dtu (station_id : string) (data : snapshot) (dtu_data : device)
  : M snapshot :=
  real_time_dtu_data <- get_real_time_data_dtu E station_id (dev_id dtu_data) ;;
  ret (dict_set data (dev_id dtu_data) (entry real_time_dtu_data)).

(** [for micro_data in microinverter_data: ...] *)
Definition update_microinverter (station_id : string) (data : snapshot)
  (micro_data : device) : M snapshot :=
  real_time_micro_data <-
    get_real_time_data_microinverter E station_id (dev_id micro_data) ;;
  ret (dict_set data (dev_id micro_data) (entry real_time_micro_data)).

(** [for dev_station_id, devs in by_station.items():
       if station_id == dev_station_id: for dev in devs: ...] *)
Definition update_devices (body : string -> snapshot -> device -> M snapshot)
  (station_id : string) (by_station : dict devices) (data : snapshot)
  : M snapshot :=
  foldM (fun data (kv : string * devices) =>
           if String.eqb station_id (fst kv)
           then foldM (body station_id) (each (snd kv)) data
           else ret data)
        by_station data.

(** [for station_id in stations: ...] *)
Definition update_station (t : topology) (data : snapshot) (station_id : string)
  : M snapshot :=
  real_time_station_data <- get_real_time_data_station E station_id ;;
  let data := dict_set data station_id (entry real_time_station_data) in
  data <- update_devices update_dtu station_id (dtus t) data ;;
  update_devices update_microinverter station_id (microinverters t) data.

(** The update method handed to the coordinator.  The thirty-second
    time limit of the source is not represented. *)
Definition async_update_data (t : topology) : M snapshot :=
  try_except
    (renew_token ;;
     foldM (update_station t) (keys (stations t)) [])
    (fun e => raise (UpdateFailed e)).

(** Modelled from the spec: the scheduler that calls the update method
    lives in the host platform, not in this repository.  A cycle that
    returns replaces the published snapshot as a whole; a cycle that
    raises leaves it as it was and is recorded as failed. *)
Record coordinator := { published : snapshot; last_update_success : bool }.

Definition refresh (t : topology) (c : coordinator) (w : world)
  : coordinator * world :=
  match async_update_data t w with
  | (Ok data, w') => ({| published := data; last_update_success := true |}, w')
  | (Raise _, w') =>
      ({| published := published c; last_update_success := false |}, w')
  end.

End Cycle.

(* ===================================================================== *)
(** ** Vocabulary of the properties *)
(* ===================================================================== *)

(** The world at another reading of the clock. *)
Definition at_time (w : world) (t : Q) : world :=
  {| self := self w; clock := t; sent := sent w |}.

(** The world once [req] was handed to [session.post]. *)
Definition posted (E : environment) (w : world) (req : request) : world :=
  {| self := self w;
     clock := (clock w + latency E (sent w) req)%Q;
     sent := (sent w ++ [req])%list |}.

(** The world once [token] was stored and the expiry set from the clock. *)
Definition logged_in (w : world) (token : value) : world :=
  {| self := {| _username := _username (self w);
                _password := _password (self w);
                _token := token;
                _token_expires_at := (clock w + _token_valid_time)%Q |};
     clock := clock w; sent := sent w |}.

(** A computation every run of which takes a world to one related to it
    by [I], whether it returns or raises. *)
Definition respects (I : world -> world -> Prop) {A} (m : M A) : Prop :=
  forall w, I w (snd (m w)).

(** [w'] has the requests of [w] and then some more, all satisfying [R]. *)
Definition adds (R : request -> Prop) (w w' : world) : Prop :=
  exists new, sent w' = (sent w ++ new)%list /\ Forall R new.

(** The request [authenticate] makes. *)
Definition auth_request (E : environment) (s : HoymilesAPI) : request :=
  {| url := API_AUTH_URL;
     headers := json_headers;
     json := [("user_name", VStr (_username s));
              ("password", VStr (md5_hexdigest E (_password s)))] |}.

(** [resp.get("data", {}).get("token")] *)
Definition login_token (resp : value) : result value :=
  data <~ py_get resp "data" (VDict []) ;;
  py_get data "token" VNone.

(** The listing and telemetry calls of the client. *)
Inductive call : Type :=
  | GetStations
  | GetDtus (station_id : string)
  | GetMicroinverters (station_id : string)
  | GetRealTimeDataStation (station_id : string)
  | GetRealTimeDataDtu (station_id dtu_id : string)
  | GetRealTimeDataMicroinverter (station_id microinverter_id : string).

(** The world a call leaves behind, whatever it returns or raises. *)
Definition after (E : environment) (c : call) (w : world) : world :=
  match c with
  | GetStations => snd (get_stations E w)
  | GetDtus sid => snd (get_dtus E sid w)
  | GetMicroinverters sid => snd (get_microinverters E sid w)
  | GetRealTimeDataStation sid => snd (get_real_time_data_station E sid w)
  | GetRealTimeDataDtu sid i => snd (get_real_time_data_dtu E sid i w)
  | GetRealTimeDataMicroinverter sid i =>
      snd (get_real_time_data_microinverter E sid i w)
  end.

(** The worlds a session can be in: a new object at any time with no
    request made yet, then any sequence of authentications, listing or
    telemetry calls, and readings of the clock at other times. *)
Inductive reachable (E : environment) : world -> Prop :=
  | reach_new (username password : string) (t : Q) :
      reachable E {| self := new_api username password; clock := t; sent := [] |}
  | reach_authenticate (w : world) :
      reachable E w -> reachable E (snd (authenticate E w))
  | reach_call (c : call) (w : world) :
      reachable E w -> reachable E (after E c w)
  | reach_time (w : world) (t : Q) :
      reachable E w -> reachable E (at_time w t).

(** The requests a step from [w] to [w'] added. *)
Definition issued (w w' : world) : list request :=
  skipn (List.length (sent w)) (sent w').

(** A step that starts by authenticating. *)
Definition authenticates_first (E : environment) (w w' : world) : Prop :=
  exists rest, sent w' = (sent w ++ auth_request E (self w) :: rest)%list.

(** One telemetry fetch of the cycle, and the entity it is for. *)
Inductive fetch : Type :=
  | Station (station_id : string)
  | Dtu (station_id dtu_id : string)
  | Micro (station_id microinverter_id : string).

Definition entity (f : fetch) : string :=
  match f with
  | Station sid => sid
  | Dtu _ i => i
  | Micro _ i => i
  end.

Definition perform (E : environment) (f : fetch) : M value :=
  match f with
  | Station sid => get_real_time_data_station E sid
  | Dtu sid i => get_real_time_data_dtu E sid i
  | Micro sid i => get_real_time_data_microinverter E sid i
  end.

(** One fetch and the store of its result under the entity's id. *)
Definition visit (E : environment) (data : snapshot) (f : fetch) : M snapshot :=
  bind (perform E f) (fun rt => ret (dict_set data (entity f) (entry rt))).

(** The devices listed under the keys equal to [station_id]. *)
Definition devices_of (station_id : string) (by_station : dict devices)
  : list device :=
  flat_map (fun kv : string * devices =>
              if String.eqb station_id (fst kv) then each (snd kv) else [])
           by_station.

(** The fetches of a cycle, in the order it makes them. *)
Definition plan (t : topology) : list fetch :=
  flat_map (fun sid =>
              Station sid
              :: map (fun d => Dtu sid (dev_id d)) (devices_of sid (dtus t))
              ++ map (fun d => Micro sid (dev_id d)) (devices_of sid (microinverters t)))%list
           (keys (stations t)).

(** Fetches made one after the other, each result kept with its entity. *)
Fixpoint fetch_all (E : environment) (fs : list fetch) : M (list (string * value)) :=
  match fs with
  | [] => ret []
  | f :: fs' =>
      bind (perform E f) (fun rt =>
      bind (fetch_all E fs') (fun rest => ret ((entity f, rt) :: rest)))
  end.

(** Storing the results of fetches one by one. *)
Definition store_all (data : snapshot) (results : list (string * value)) : snapshot :=
  fold_left (fun d p => dict_set d (fst p) (entry (snd p))) results data.

(** What a cycle publishes for the results of its fetches. *)
Definition publish (results : list (string * value)) : snapshot :=
  map (fun p => (fst p, entry (snd p))) results.

(** The cycle that renews the token if it is expired, makes exactly the
    fetches [fs] in this order, and publishes their results. *)
Definition cycle_of (E : environment) (fs : list fetch) : M snapshot :=
  try_except
    (bind (renew_token E) (fun _ =>
     bind (fetch_all E fs) (fun results => ret (publish results))))
    (fun e => raise (UpdateFailed e)).

(** Two stations, each with one concentrator and two micro-inverters. *)
Definition two_sites (s1 s2 d1 d2 m11 m12 m21 m22 : string) : topology :=
  let dev i := {| dev_id := i; dev_name := VNone |} in
  {| stations := [(s1, VNone); (s2, VNone)];
     dtus := [(s1, DeviceList [dev d1]); (s2, DeviceList [dev d2])];
     microinverters := [(s1, DeviceList [dev m11; dev m12]);
                        (s2, DeviceList [dev m21; dev m22])] |}.

(** The exact number a numeric string denotes. *)
Definition decimal_value (s : string) : option Q :=
  match scan_decimal (strip_number (list_ascii_of_string s)) with
  | Some (neg, p, k) =>
      let n := if neg then - p else p in
      Some (match k with
            | Zneg k' => Qmake n (10 ^ k')
            | _ => inject_Z (n * 10 ^ k)
            end)
  | None => None
  end.

(** The integer part of a rational, the fraction dropped. *)
Definition truncate (q : Q) : Z := Z.quot (Qnum q) (Zpos (Qden q)).

Definition is_dict (v : value) : bool :=
  match v with VDict _ => true | _ => false end.

(** Whether a listing entry is the one of [dtu_id]. *)
Definition matches (E : environment) (dtu_id : string) (e : value) : bool :=
  match py_get e "id" VNone with
  | Ok i => String.eqb dtu_id (py_str E i)
  | Raise _ => false
  end.

(** The last entry of a listing that is the one of [dtu_id]. *)
Definition last_match (E : environment) (dtu_id : string) (l : list value)
  : option value :=
  find (matches E dtu_id) (rev l).

(** A field of a listing entry, [None] when absent. *)
Definition field (e : value) (k : string) : value :=
  match py_get e k VNone with
  | Ok v => v
  | Raise _ => VNone
  end.

(** The detail payload with the two fields of a listing entry put in. *)
Definition patched (detail : dict value) (e : value) : dict value :=
  dict_set (dict_set detail "warn_data" (field e "warn_data"))
           "model_no" (field e "model_no").

(** The two requests of a concentrator fetch. *)
Definition dtu_detail_request (token : value) (i sid : Z) : request :=
  {| url := API_DTU_DETAIL_URL;
     headers := auth_headers token;
     json := [("id", VInt i); ("sid", VInt sid)] |}.

Definition dtu_listing_request (token : value) (sid : Z) : request :=
  {| url := API_DTU_URL;
     headers := auth_headers token;
     json := page_request sid |}.

(** *** Sample services *)

Definition envelope (status message : string) (data : value) : value :=
  VDict [("status", VStr status); ("message", VStr message); ("data", data)].

Definition accepted (data : value) : response := Json (envelope "0" "success" data).

Definition rejected (status message : string) : response :=
  Json (envelope status message VNone).

Definition listing (items : list value) : value := VDict [("list", VList items)].

(** A service answering by address alone. *)
Definition by_url (table : dict response) (other : response)
  (h : list request) (r : request) : response :=
  match dict_get table (url r) with
  | Some a => a
  | None => other
  end.

Definition sample_env (srv : list request -> request -> response) : environment :=
  {| md5_hexdigest := fun _ => "5f4dcc3b5aa765d61d8327deb882cf99";
     repr := fun _ => "";
     server := srv;
     latency := fun _ _ => 1%Q |}.

Definition dtu_listing : response :=
  accepted (listing [VDict [("id", VInt 70); ("model_no", VStr "DTU-Pro");
                            ("warn_data", VDict [("connect", VBool true)])]]).

(** The same listing followed by an entry that is [null]. *)
Definition ragged_listing : list value :=
  [VDict [("id", VInt 70); ("model_no", VStr "DTU-Pro");
          ("warn_data", VDict [("connect", VBool true)])];
   VNone].

(** The same listing followed by a second entry of concentrator 70,
    one that has neither of the two fields. *)
Definition doubled_listing : list value :=
  [VDict [("id", VInt 70); ("model_no", VStr "DTU-Pro");
          ("warn_data", VDict [("connect", VBool true)])];
   VDict [("id", VInt 70)]].

(** A service whose listing of concentrators is [items]. *)
Definition listing_service (items : list value)
  : list request -> request -> response :=
  by_url
    [(API_DTU_URL, accepted (listing items));
     (API_DTU_DETAIL_URL, accepted (VDict [("a", VInt 1); ("b", VInt 2)]))]
    (rejected "100" "token verify error").

(** A service in good order: one station 7 with concentrator 70 and
    micro-inverters 700 and 701. *)
Definition good_service : list request -> request -> response :=
  by_url
    [(API_AUTH_URL, accepted (VDict [("token", VStr "fresh")]));
     (API_STATIONS_URL,
      accepted (listing [VDict [("id", VInt 7); ("name", VStr "Roof")]]));
     (API_DTU_URL, dtu_listing);
     (API_MICROINVERTERS_URL,
      accepted (listing [VDict [("id", VInt 700); ("init_hard_no", VStr "HM-1")];
                         VDict [("id", VInt 701); ("init_hard_no", VStr "HM-2")]]));
     (API_DTU_DETAIL_URL, accepted (VDict [("a", VInt 1); ("b", VInt 2)]));
     (API_REAL_TIME_DATA_URL, accepted (VDict [("real_power", VStr "412.5")]))]
    (accepted (VDict [("power", VInt 5)])).

(** The same service once the password was changed and the old token
    lapsed: logins are refused, and so is every request for data. *)
Definition refusing_service : list request -> request -> response :=
  by_url [(API_AUTH_URL, rejected "1" "password error")]
         (rejected "100" "token verify error").

(** A service that accepts a login without handing out a token. *)
Definition tokenless_service : list request -> request -> response :=
  by_url [(API_AUTH_URL, accepted (VDict []))] (rejected "100" "token verify error").

(** The good service, except that micro-inverter 700 cannot be reached. *)
Definition flaky_service (h : list request) (r : request) : response :=
  if String.eqb (url r) API_MICRO_DETAIL_URL
     && match dict_get (json r) "id" with Some (VInt 700) => true | _ => false end
  then Unreachable
  else good_service h r.

Definition sample_topology : topology :=
  {| stations := [("7", VStr "Roof")];
     dtus := [("7", DeviceList [{| dev_id := "70"; dev_name := VStr "DTU-Pro" |}])];
     microinverters :=
       [("7", DeviceList [{| dev_id := "700"; dev_name := VStr "HM-1" |};
                          {| dev_id := "701"; dev_name := VStr "HM-2" |}])] |}.

(** A session whose token was issued at time 1000, seen at [now]. *)
Definition session_at (now : Q) : world :=
  {| self := {| _username := "user"; _password := "password";
                _token := VStr "stale"; _token_expires_at := 8200 |};
     clock := now; sent := [] |}.

Definition new_session (now : Q) : world :=
  {| self := new_api "user" "password"; clock := now; sent := [] |}.

Definition earlier_snapshot : coordinator :=
  {| published := [("7", entry (VDict [("real_power", VStr "398.0")]))];
     last_update_success := true |}.

(** The inputs that stand for a missing reading. *)
Definition missing_readings : list value :=
  [VNone; VStr ""; VStr " "; VStr "-"].

(** The double written [-3.7]. *)
Definition minus_3_7 : spec_float := S754_finite true 8331659310635418 (-51).

(* ===================================================================== *)
(** ** sensor.py: timestamps, sensor descriptions and entities *)
(* ===================================================================== *)

(** A naive [datetime], whole seconds. *)
Record datetime := {
  year : Z; month : Z; day : Z; hour : Z; minute : Z; second : Z
}.

Definition is_leap (y : Z) : bool :=
  (y mod 4 =? 0) && (negb (y mod 100 =? 0) || (y mod 400 =? 0)).

Definition days_in_month (y m : Z) : Z :=
  match m with
  | 2 => if is_leap y then 29 else 28
  | 4 | 6 | 9 | 11 => 30
  | _ => 31
  end.

Definition days_before_year (y : Z) : Z :=
  (y - 1) * 365 + (y - 1) / 4 - (y - 1) / 100 + (y - 1) / 400.

Definition days_before_month (y m : Z) : Z :=
  fold_left Z.add
            (map (fun k => days_in_month y (Z.of_nat k)) (seq 1 (Z.to_nat m - 1)))
            0.

(** [date.toordinal()]: 1 for the first of January of year 1. *)
Definition toordinal (dt : datetime) : Z :=
  days_before_year (year dt) + days_before_month (year dt) (month dt) + day dt.

(** Seconds from the start of year 1 to [dt]. *)
Definition seconds_of (dt : datetime) : Z :=
  (toordinal dt - 1) * 86400 + hour dt * 3600 + minute dt * 60 + second dt.

(** The first second after the last [datetime] there is. *)
Definition end_of_time : Z := days_before_year 10000 * 86400.

(** The longest run of digits at the head of the input. *)
Fixpoint digit_run (l : list ascii) : list Z * list ascii :=
  match l with
  | [] => ([], [])
  | c :: l' =>
      match digit_of c with
      | Some d => let (ds, r) := digit_run l' in (d :: ds, r)
      | None => ([], l)
      end
  end.

(** The digit strings each directive of [strptime] accepts, with the
    number read: [%Y] is [\d\d\d\d], [%m] is [1[0-2]|0[1-9]|[1-9]],
    [%d] is [3[0-1]|[1-2]\d|0[1-9]|[1-9]| [1-9]], [%H] is
    [2[0-3]|[0-1]\d|\d], [%M] is [[0-5]\d|\d] and [%S] is
    [6[0-1]|[0-5]\d|\d]. *)
Definition year_field (ds : list Z) : option Z :=
  match ds with
  | [a; b; c; d] => Some (1000 * a + 100 * b + 10 * c + d)
  | _ => None
  end.

Definition month_field (ds : list Z) : option Z :=
  match ds with
  | [1; d] => if d <=? 2 then Some (10 + d) else None
  | [0; d] => if 1 <=? d then Some d else None
  | [d] => if 1 <=? d then Some d else None
  | _ => None
  end.

Definition day_field (ds : list Z) : option Z :=
  match ds with
  | [3; d] => if d <=? 1 then Some (30 + d) else None
  | [1; d] => Some (10 + d)
  | [2; d] => Some (20 + d)
  | [0; d] => if 1 <=? d then Some d else None
  | [d] => if 1 <=? d then Some d else None
  | _ => None
  end.

Definition hour_field (ds : list Z) : option Z :=
  match ds with
  | [2; d] => if d <=? 3 then Some (20 + d) else None
  | [0; d] => Some d
  | [1; d] => Some (10 + d)
  | [d] => Some d
  | _ => None
  end.

Definition minute_field (ds : list Z) : option Z :=
  match ds with
  | [a; d] => if a <=? 5 then Some (10 * a + d) else None
  | [d] => Some d
  | _ => None
  end.

Definition second_field (ds : list Z) : option Z :=
  match ds with
  | [6; d] => if d <=? 1 then Some (60 + d) else None
  | [a; d] => if a <=? 5 then Some (10 * a + d) else None
  | [d] => Some d
  | _ => None
  end.

(** One directive followed by the literal [sep]. *)
Definition field_then (field : list Z -> option Z) (sep : ascii) (l : list ascii)
  : option (Z * list ascii) :=
  let (ds, r) := digit_run l in
  match field ds, r with
  | Some n, c :: r' => if Ascii.eqb c sep then Some (n, r') else None
  | _, _ => None
  end.

(** [%d] followed by the white space the blank of the format stands
    for ([\s+]); the day may be written as a blank and one digit. *)
Definition day_then_space (l : list ascii) : option (Z * list ascii) :=
  let l1 := match l with
            | c :: l' => if Ascii.eqb c " " then l' else l
            | [] => l
            end in
  let blank := match l with
               | c :: _ => Ascii.eqb c " "
               | [] => false
               end in
  let (ds, r) := digit_run l1 in
  let d := if blank
           then match ds with
                | [d] => if 1 <=? d then Some d else None
                | _ => None
                end
           else day_field ds in
  match d, r with
  | Some n, c :: r' => if is_space c then Some (n, lstrip r') else None
  | _, _ => None
  end.

(** The fields of a string in the format [%Y-%m-%d %H:%M:%S]. *)
Definition scan_timestamp (l : list ascii) : option datetime :=
  match field_then year_field "-" l with
  | Some (y, l1) =>
    match field_then month_field "-" l1 with
    | Some (m, l2) =>
      match day_then_space l2 with
      | Some (d, l3) =>
        match field_then hour_field ":" l3 with
        | Some (h, l4) =>
          match field_then minute_field ":" l4 with
          | Some (mi, l5) =>
            let (ds, r) := digit_run l5 in
            match second_field ds, r with
            | Some s, [] =>
                Some {| year := y; month := m; day := d;
                        hour := h; minute := mi; second := s |}
            | _, _ => None
            end
          | None => None
          end
        | None => None
        end
      | None => None
      end
    | None => None
    end
  | None => None
  end.

(** The checks of the [datetime] constructor that the directives leave
    open. *)
Definition valid_datetime (dt : datetime) : bool :=
  (1 <=? year dt) && (day dt <=? days_in_month (year dt) (month dt))
  && (second dt <=? 59).

(** [datetime.strptime(s, "%Y-%m-%d %H:%M:%S")] *)
Definition strptime (s : string) : result datetime :=
  match scan_timestamp (list_ascii_of_string s) with
  | Some dt => if valid_datetime dt then Ok dt else Raise ValueError
  | None => Raise ValueError
  end.

(** [dt_util.as_utc(naive_dt.replace(tzinfo=dt_util.DEFAULT_TIME_ZONE))]:
    the offset of the configured zone at that wall time, in seconds
    east of UTC, is taken away; the result is counted in seconds from
    the start of year 1 and has to be a [datetime] again. *)
Definition as_utc (utcoffset : datetime -> Z) (naive_dt : datetime) : result Z :=
  let t := seconds_of naive_dt - utcoffset naive_dt in
  if (0 <=? t) && (t <? end_of_time) then Ok t else Raise OverflowError.

Definition parse_timestamp (utcoffset : datetime -> Z) (timestamp_str : value)
  : result (option Z) :=
  if negb (truthy timestamp_str) then Ok None
  else
    Sensor.except_value_type
      (s <~ match timestamp_str with
            | VStr s => Ok s
            | _ => Raise TypeError
            end ;;
       naive_dt <~ strptime s ;;
       utc <~ as_utc utcoffset naive_dt ;;
       Ok (Some utc))
      None.

(** What a sensor shows: a Python value, or a time in UTC. *)
Inductive state : Type :=
  | StValue (v : value)
  | StTime (t : Z).

Record HoymilesSensorDescription := {
  key : string;
  name : string;
  value_fn : value -> result state
}.

(** [data.get("real_time_data", {}).get(k, default)] *)
Definition real_time_field (k : string) (default : value) (data : value)
  : result value :=
  rt <~ py_get data "real_time_data" (VDict []) ;;
  py_get rt k default.

(** [data.get("real_time_data", {}).get("reflux_station_data", {}).get(k, default)] *)
Definition reflux_field (k : string) (default : value) (data : value)
  : result value :=
  rt <~ py_get data "real_time_data" (VDict []) ;;
  reflux <~ py_get rt "reflux_station_data" (VDict []) ;;
  py_get reflux k default.

(** [safe_int_convert(...)] as a value function. *)
Definition int_reading (read : value -> result value) (data : value) : result state :=
  v <~ read data ;;
  n <~ Sensor.safe_int_convert v ;;
  Ok (StValue (VInt n)).

Definition raw_reading (read : value -> result value) (data : value) : result state :=
  v <~ read data ;;
  Ok (StValue v).

Definition time_reading (utcoffset : datetime -> Z) (data : value) : result state :=
  v <~ real_time_field "data_time" VNone data ;;
  t <~ parse_timestamp utcoffset v ;;
  Ok match t with
     | Some t => StTime t
     | None => StValue VNone
     end.

(** ["Offline" if c is False else "Online" if c is True else "unknown"]
    with [c] the field [connect] of [warn_data]. *)
Definition connect_of (data : value) : result value :=
  rt <~ py_get data "real_time_data" (VDict []) ;;
  warn_data <~ py_get rt "warn_data" (VDict []) ;;
  py_get warn_data "connect" VNone.

Definition connection_status (data : value) : result state :=
  c <~ connect_of data ;;
  match c with
  | VBool false => Ok (StValue (VStr "Offline"))
  | _ =>
      c' <~ connect_of data ;;
      match c' with
      | VBool true => Ok (StValue (VStr "Online"))
      | _ => Ok (StValue (VStr "unknown"))
      end
  end.

Definition SENSORS (utcoffset : datetime -> Z) : list HoymilesSensorDescription :=
  [ {| key := "battery_soc"; name := "Battery State of Charge";
       value_fn := int_reading (reflux_field "bms_soc" VNone) |};
    {| key := "co2_emission_reduction"; name := "CO2 Emission Reduction";
       value_fn := int_reading (real_time_field "co2_emission_reduction" (VInt 0)) |};
    {| key := "plant_tree"; name := "Equivalent Trees Planted";
       value_fn := int_reading (real_time_field "plant_tree" (VInt 0)) |};
    {| key := "today_energy"; name := "Today's Energy";
       value_fn := int_reading (real_time_field "today_eq" (VInt 0)) |};
    {| key := "month_energy"; name := "Month Energy";
       value_fn := int_reading (real_time_field "month_eq" (VInt 0)) |};
    {| key := "year_energy"; name := "Year Energy";
       value_fn := int_reading (real_time_field "year_eq" (VInt 0)) |};
    {| key := "total_energy"; name := "Total Energy";
       value_fn := int_reading (real_time_field "total_eq" (VInt 0)) |};
    {| key := "battery_charge_energy_today"; name := "Battery Charge Energy Today";
       value_fn := int_reading (reflux_field "bms_in_eq" (VInt 0)) |};
    {| key := "battery_discharge_energy_today";
       name := "Battery Discharge Energy Today";
       value_fn := int_reading (reflux_field "bms_out_eq" (VInt 0)) |};
    {| key := "last_update_time"; name := "Last Data Update Time";
       value_fn := time_reading utcoffset |} ].

Definition DTUS : list HoymilesSensorDescription :=
  [ {| key := "init_soft_ver"; name := "Software Version";
       value_fn := raw_reading (real_time_field "init_soft_ver" VNone) |};
    {| key := "init_hard_ver"; name := "Hardware Version";
       value_fn := raw_reading (real_time_field "init_hard_ver" VNone) |};
    {| key := "model_no"; name := "Model";
       value_fn := raw_reading (real_time_field "model_no" VNone) |};
    {| key := "sn_no"; name := "SN";
       value_fn := raw_reading (real_time_field "sn" VNone) |};
    {| key := "connected_station_name"; name := "Plant / Station";
       value_fn := raw_reading (real_time_field "station_name" VNone) |};
    {| key := "warn_data_connect"; name := "Connection Status";
       value_fn := connection_status |} ].

Definition MICROINVERTERS : list HoymilesSensorDescription :=
  [ {| key := "init_soft_ver"; name := "Software Version";
       value_fn := raw_reading (real_time_field "init_soft_ver" VNone) |};
    {| key := "init_hard_ver"; name := "Hardware Version";
       value_fn := raw_reading (real_time_field "init_hard_ver" VNone) |};
    {| key := "init_hard_no"; name := "Model";
       value_fn := raw_reading (real_time_field "init_hard_no" VNone) |};
    {| key := "sn_no"; name := "SN";
       value_fn := raw_reading (real_time_field "sn" VNone) |};
    {| key := "connected_dtu_sn"; name := "Connected DTU";
       value_fn := raw_reading (real_time_field "dtu_sn" VNone) |};
    {| key := "connected_station_name"; name := "Plant / Station";
       value_fn := raw_reading (real_time_field "station_name" VNone) |};
    {| key := "warn_data_connect"; name := "Connection Status";
       value_fn := connection_status |} ].

Definition DOMAIN := "hoymiles_cloud".

(** An entity of either class, [HoymilesSensor] or
    [HoymilesMicroInverter]: the two differ in the names of their
    attributes only.  [owner_id] is [_station_id] or [_micro_id]. *)
Record sensor := {
  entity_description : HoymilesSensorDescription;
  owner_id : string;
  owner_name : value;
  _attr_unique_id : string;
  _attr_name : string
}.

Section Entities.

Variable E : environment.
Variable utcoffset : datetime -> Z.

(** [__init__] of both classes. *)
Definition new_sensor (description : HoymilesSensorDescription)
  (i : string) (n : value) : sensor :=
  {| entity_description := description;
     owner_id := i;
     owner_name := n;
     _attr_unique_id := DOMAIN ++ "_" ++ i ++ "_" ++ key description;
     _attr_name := py_str E n ++ " " ++ name description |}.

(** The entities [async_setup_entry] of the sensor platform adds. *)
Definition sensor_entities (t : topology) : list sensor :=
  flat_map
    (fun st : string * value =>
       let (station_id, station_name) := st in
       (map (fun description => new_sensor description station_id station_name)
            (SENSORS utcoffset)
        ++ flat_map
             (fun kv : string * devices =>
                if String.eqb station_id (fst kv)
                then flat_map
                       (fun data =>
                          map (fun description =>
                                 new_sensor description (dev_id data) (dev_name data))
                              MICROINVERTERS)
                       (each (snd kv))
                else [])
             (microinverters t)
        ++ flat_map
             (fun kv : string * devices =>
                if String.eqb station_id (fst kv)
                then flat_map
                       (fun data =>
                          map (fun description =>
                                 new_sensor description (dev_id data) (dev_name data))
                              DTUS)
                       (each (snd kv))
                else [])
             (dtus t))%list)
    (stations t).

End Entities.

(** [native_value] of both classes, with [data] the coordinator's
    [data]: [None] before the first refresh.  [except (KeyError,
    ValueError, TypeError)] lets any other exception through. *)
Definition native_value (data : option snapshot) (s : sensor) : result state :=
  match data with
  | None => Ok (StValue VNone)
  | Some d =>
      let station_data :=
        match dict_get d (owner_id s) with
        | Some x => x
        | None => VDict []
        end in
      Sensor.except_value_type
        (value_fn (entity_description s) station_data)
        (StValue VNone)
  end.

(* ===================================================================== *)
(** ** More vocabulary *)
(* ===================================================================== *)

(** What a call gives back. *)
Inductive returned : Type :=
  | RStations (d : dict value)
  | RDevices (l : devices)
  | RTelemetry (v : value).

Definition tag {A} (f : A -> returned) (r : result A) : result returned :=
  match r with
  | Ok a => Ok (f a)
  | Raise e => Raise e
  end.

(** The result of a call: what it returns, or what it raises. *)
Definition outcome (E : environment) (c : call) (w : world) : result returned :=
  match c with
  | GetStations => tag RStations (fst (get_stations E w))
  | GetDtus sid => tag RDevices (fst (get_dtus E sid w))
  | GetMicroinverters sid => tag RDevices (fst (get_microinverters E sid w))
  | GetRealTimeDataStation sid =>
      tag RTelemetry (fst (get_real_time_data_station E sid w))
  | GetRealTimeDataDtu sid i =>
      tag RTelemetry (fst (get_real_time_data_dtu E sid i w))
  | GetRealTimeDataMicroinverter sid i =>
      tag RTelemetry (fst (get_real_time_data_microinverter E sid i w))
  end.

(** What a refused request makes a call return: an empty [dict],
    whatever the call. *)
Definition nothing (c : call) : returned :=
  match c with
  | GetStations => RStations []
  | GetDtus _ | GetMicroinverters _ => RDevices EmptyDict
  | _ => RTelemetry (VDict [])
  end.

(** The identifiers a call turns into integers, in the order it does. *)
Definition call_ids (c : call) : list string :=
  match c with
  | GetStations => []
  | GetDtus sid | GetMicroinverters sid | GetRealTimeDataStation sid => [sid]
  | GetRealTimeDataDtu sid i | GetRealTimeDataMicroinverter sid i => [i; sid]
  end.

Definition is_int (s : string) : bool :=
  match py_int s with
  | Ok _ => true
  | Raise _ => false
  end.

(** Whether a call writes the prefix of the token to the log. *)
Definition logs_token (c : call) : bool :=
  match c with
  | GetStations | GetDtus _ | GetMicroinverters _ => true
  | _ => false
  end.

(** A request for data made with [token]. *)
Definition carries (token : value) (r : request) : Prop :=
  url r <> API_AUTH_URL /\ headers r = auth_headers token.


(** The record built from a listing entry. *)
Definition device_of (E : environment) (name_field : string) (e : value) : device :=
  {| dev_id := py_str E (field e "id"); dev_name := field e name_field |}.

(** The last entry of a station listing whose id reads as [k]. *)
Definition last_station (E : environment) (k : string) (l : list value)
  : option value :=
  find (fun e => String.eqb (py_str E (field e "id")) k) (rev l).

(** The request of [get_stations]. *)
Definition stations_request (token : value) : request :=
  {| url := API_STATIONS_URL;
     headers := auth_headers token;
     json := [("page_size", VInt 10); ("page_num", VInt 1)] |}.

(** The request of a device listing. *)
Definition devices_request (u : string) (token : value) (sid : Z) : request :=
  {| url := u; headers := auth_headers token; json := page_request sid |}.


(** A listing in which station 7 appears twice and one entry has no id. *)
Definition odd_stations : list value :=
  [VDict [("id", VInt 7); ("name", VStr "Roof")];
   VDict [("name", VStr "Shed")];
   VDict [("id", VInt 7); ("name", VStr "Roof, renamed")]].

Definition odd_service : list request -> request -> response :=
  by_url [(API_STATIONS_URL, accepted (listing odd_stations));
          (API_DTU_DETAIL_URL, accepted (VStr "n/a"));
          (API_DTU_URL, accepted (listing []))]
         (accepted (listing odd_stations)).

(** A service that never answers in time. *)
Definition stalled_service (h : list request) (r : request) : response := TimedOut.

(** The exceptions that come of the data: an identifier [int()] does
    not read, an answer that is not what it is declared to be, or not
    of the shape the code reads. *)
Definition is_data_error (e : exn) : bool :=
  match e with
  | ContentTypeError | JSONDecodeError | AttributeError | TypeError
  | ValueError => true
  | _ => false
  end.

(** What [session.post] raises when no answer comes back. *)
Definition transport_error (a : response) : option exn :=
  match a with
  | Unreachable => Some ClientError
  | TimedOut => Some TimeoutError
  | _ => None
  end.

(** [e] is what the transport raised for the last request made in [w]. *)
Definition raised_by_transport (E : environment) (w : world) (e : exn) : Prop :=
  exists h r, sent w = (h ++ [r])%list
              /\ transport_error (server E h r) = Some e.

(** An exception of the data, or of the transport at the last request. *)
Definition client_raise (E : environment) (w : world) (e : exn) : Prop :=
  is_data_error e = true \/ raised_by_transport E w e.

(** A computation that raises only what [Q] allows in the world it
    leaves. *)
Definition raises_only (Q : world -> exn -> Prop) {A} (m : M A) : Prop :=
  forall w e, fst (m w) = Raise e -> Q (snd (m w)) e.

Definition may_raise (P : exn -> bool) {A} (r : result A) : Prop :=
  forall e, r = Raise e -> P e = true.

(** A decimal digit. *)
Definition is_digit (d : Z) : Prop := 0 <= d <= 9.

(** Whether [k2] is [x ++ "_" ++ k1] for some [x]. *)
Fixpoint has_tail (k1 k2 : string) : bool :=
  match k2 with
  | EmptyString => false
  | String c r => (Ascii.eqb c "_" && String.eqb r k1) || has_tail k1 r
  end.

(** What the unique id of an entity is made of. *)
Definition id_parts (s : sensor) : string * string :=
  (owner_id s, key (entity_description s)).

(* ===================================================================== *)
(** ** Value coercion *)
(* ===================================================================== *)

Section Coercion.

Import Sensor.

(** C9.  Each of [None], the empty string, a single space and ["-"] is
    coerced to the integer [0] and to the float [0.0]; neither coercion
    raises on them. *)
Theorem missing_readings_coerce_to_zero :
  Forall (fun v => safe_int_convert v = Ok 0
                   /\ safe_float_convert v = Ok (S754_zero false))
         missing_readings.
Proof.
  unfold missing_readings.
  repeat (constructor; [split; vm_compute; reflexivity|]).
  constructor.
Qed.

Lemma pos_pow_2 (k : positive) : Zpos (2 ^ k) = 2 ^ Zpos k.
Proof. apply Pos2Z.inj_pow. Qed.

(** [int(f)] is the value of [f] with its fraction dropped. *)
Lemma int_of_float_truncates (f : spec_float) :
  is_finite f = true -> int_of_float f = Ok (truncate (float_value f)).
Proof.
  destruct f as [s | s | | s m e]; try discriminate; intros _.
  - reflexivity.
  - unfold int_of_float, float_value, truncate.
    destruct e as [| p | k]; cbn [Qnum Qden inject_Z]; f_equal.
    + rewrite Z.quot_1_r. destruct s; [| reflexivity].
      change (Z.neg m) with (- Z.pos m). rewrite Z.mul_opp_l. reflexivity.
    + rewrite Z.quot_1_r. destruct s; [| reflexivity].
      change (Z.neg m) with (- Z.pos m). rewrite Z.mul_opp_l. reflexivity.
    + rewrite pos_pow_2.
      assert (0 < 2 ^ Z.pos k) by (apply Z.pow_pos_nonneg; lia).
      destruct s.
      * change (Z.neg m) with (- Z.pos m).
        rewrite Z.quot_opp_l by lia.
        rewrite Z.quot_div_nonneg by lia. reflexivity.
      * rewrite Z.quot_div_nonneg by lia. reflexivity.
Qed.

Lemma string_of_list_ascii_nil (l : list ascii) :
  string_of_list_ascii l = "" -> l = [].
Proof. destruct l; simpl; [reflexivity | discriminate]. Qed.

Lemma lstrip_nil (l : list ascii) :
  lstrip l = [] -> Forall (fun c => is_space c = true) l.
Proof.
  induction l as [| c l IH]; cbn [lstrip]; intros H; [constructor |].
  destruct (is_space c) eqn:Hc; [| discriminate H].
  constructor; [exact Hc | apply IH, H].
Qed.

(** A string that [strip()] empties is made of white space. *)
Lemma strip_chars_nil (l : list ascii) :
  strip_chars l = [] -> Forall (fun c => is_space c = true) l.
Proof.
  unfold strip_chars. intros H.
  apply (f_equal (@rev ascii)) in H. rewrite rev_involutive in H. cbn [rev] in H.
  apply lstrip_nil, Forall_rev in H. rewrite rev_involutive in H.
  destruct (lstrip l) as [| c r] eqn:Hl; [apply lstrip_nil, Hl |].
  exfalso.
  assert (Hc : is_space c = false).
  { clear H. induction l as [| a l IH]; cbn [lstrip] in Hl; [discriminate Hl |].
    destruct (is_space a) eqn:Ha; [apply IH, Hl | congruence]. }
  apply Forall_inv in H. congruence.
Qed.

Lemma lstrip_number_keeps (P : ascii -> Prop) (l : list ascii) :
  Forall P l -> Forall P (lstrip_number l).
Proof.
  induction 1 as [| c l Hc Hl IH]; cbn [lstrip_number]; [constructor |].
  destruct (is_number_space c); [exact IH | constructor; assumption].
Qed.

Lemma strip_number_keeps (P : ascii -> Prop) (l : list ascii) :
  Forall P l -> Forall P (strip_number l).
Proof.
  intros H. unfold strip_number.
  apply Forall_rev, lstrip_number_keeps, Forall_rev, lstrip_number_keeps, H.
Qed.

(** A string [float()] accepts is none of the spellings of a missing
    reading. *)
Lemma float_of_string_not_missing (s : string) (f : spec_float) :
  float_of_string s = Ok f ->
  String.eqb s "-" = false /\ String.eqb s "" = false
  /\ String.eqb (str_strip s) "" = false.
Proof.
  intros H. repeat split.
  - destruct (String.eqb_spec s "-") as [-> |]; [| reflexivity].
    vm_compute in H. discriminate.
  - destruct (String.eqb_spec s "") as [-> |]; [| reflexivity].
    vm_compute in H. discriminate.
  - destruct (String.eqb_spec (str_strip s) "") as [Hs |]; [| reflexivity].
    unfold str_strip in Hs. apply string_of_list_ascii_nil in Hs.
    apply strip_chars_nil, (strip_number_keeps _ _) in Hs.
    unfold float_of_string in H.
    destruct (strip_number (list_ascii_of_string s)) as [| c r].
    + vm_compute in H. discriminate.
    + apply Forall_inv in Hs.
      destruct c as [[] [] [] [] [] [] [] []]; vm_compute in Hs;
        try discriminate Hs; vm_compute in H; discriminate H.
Qed.

(** C10, as the code has it.  Whenever [float()] maps the input to a
    finite double -- the input is a float, an integer, or a numeric
    string -- integer coercion returns that double with its fraction
    dropped, toward zero.  For a float input this is the input's own
    integer part; for a string it is the integer part of the nearest
    double. *)
Theorem safe_int_convert_truncates_the_double (v : value) (f : spec_float) :
  py_float v = Ok f ->
  is_finite f = true ->
  safe_int_convert v = Ok (truncate (float_value f)).
Proof.
  intros Hf Hfin.
  pose proof (int_of_float_truncates f Hfin) as Ht.
  destruct v as [| b | n | g | s | l | d]; simpl in Hf; try discriminate.
  - destruct b; injection Hf as <-; vm_compute; reflexivity.
  - unfold safe_int_convert; simpl. rewrite Hf. simpl. rewrite Ht. reflexivity.
  - injection Hf as ->.
    unfold safe_int_convert; simpl. rewrite Ht. reflexivity.
  - destruct (float_of_string_not_missing s f Hf) as (H1 & H2 & H3).
    unfold safe_int_convert, is_blank; simpl.
    rewrite H1, H2, H3. simpl. rewrite Hf. simpl. rewrite Ht. reflexivity.
Qed.

Lemma safe_int_convert_truncates_the_double_witness :
  py_float (VStr "-3.7") = Ok minus_3_7
  /\ is_finite minus_3_7 = true
  /\ safe_int_convert (VStr "-3.7") = Ok (-3).
Proof.
  split; [vm_compute; reflexivity |].
  split; [reflexivity |].
  exact (safe_int_convert_truncates_the_double
           (VStr "-3.7") minus_3_7 eq_refl eq_refl).
Defined.

(** C10, as stated, fails: a numeric string with more digits than a
    double holds is first rounded to the nearest double, so
    ["0.99999999999999999999"] is coerced to [1] although its integer
    part is [0]. *)
Lemma safe_int_convert_rounds_long_fractions :
  ~ (forall (s : string) (q : Q),
        decimal_value s = Some q ->
        safe_int_convert (VStr s) = Ok (truncate q)).
Proof.
  intros H.
  specialize (H "0.99999999999999999999" _ eq_refl).
  vm_compute in H. discriminate.
Qed.

(** Integer coercion is not total: a string that [float()] reads as an
    infinity reaches [int()], whose [OverflowError] is not among the
    exceptions caught. *)
Lemma safe_int_convert_raises_on_infinity :
  safe_int_convert (VStr "inf") = Raise OverflowError
  /\ safe_int_convert (VStr "1e999") = Raise OverflowError.
Proof. split; vm_compute; reflexivity. Qed.

End Coercion.

(* ===================================================================== *)
(** ** The session: authentication and expiry *)
(* ===================================================================== *)

Section Session.

Variable E : environment.

(** Every way [authenticate] can go. *)
Lemma authenticate_unfold (w : world) :
  authenticate E w =
  let req := auth_request E (self w) in
  let w1 := posted E w req in
  match server E (sent w) req with
  | Unreachable => (Raise ClientError, w1)
  | TimedOut => (Raise TimeoutError, w1)
  | Mistyped _ => (Raise ContentTypeError, w1)
  | NotJson => (Raise JSONDecodeError, w1)
  | Json resp =>
      match is_success resp with
      | Raise e => (Raise e, w1)
      | Ok false => (Ok false, w1)
      | Ok true =>
          match login_token resp with
          | Raise e => (Raise e, w1)
          | Ok token => (Ok true, logged_in w1 token)
          end
      end
  end.
Proof.
  unfold authenticate, bind, get_self, post_json, lift, auth_request, posted.
  cbv zeta.
  destruct (server E (sent w) _) as [| | resp | | body]; try reflexivity.
  destruct (is_success resp) as [[|] | e]; reflexivity.
Qed.

Lemma authenticate_success (w w' : world) :
  authenticate E w = (Ok true, w') ->
  exists token, w' = logged_in (posted E w (auth_request E (self w))) token.
Proof.
  rewrite authenticate_unfold. cbv zeta.
  destruct (server E (sent w) _) as [| | resp | | body]; try discriminate.
  destruct (is_success resp) as [[|] | e]; try discriminate.
  destruct (login_token resp) as [token | e]; try discriminate.
  intros H. injection H as <-. exists token. reflexivity.
Qed.

(** C7.  An authentication that does not succeed leaves the stored
    token and expiry as they were: a well-formed answer other than
    success makes it return [False], an unreachable service or a body
    that is not JSON makes it raise, and in both cases -- and in any
    other that is not a success -- the object is unchanged. *)
Theorem authenticate_failure_keeps_session (w : world) (r : result bool) (w' : world) :
  authenticate E w = (r, w') ->
  (r <> Ok true -> self w' = self w)
  /\ (forall resp,
        server E (sent w) (auth_request E (self w)) = Json resp ->
        is_success resp = Ok false -> r = Ok false)
  /\ (server E (sent w) (auth_request E (self w)) = Unreachable
      \/ server E (sent w) (auth_request E (self w)) = NotJson ->
      exists e, r = Raise e).
Proof.
  rewrite authenticate_unfold. cbv zeta.
  intros H. split; [| split].
  - intros Hr.
    destruct (server E (sent w) _) as [| | resp | | body];
      try (injection H as <- <-; reflexivity).
    destruct (is_success resp) as [[|] | e];
      try (injection H as <- <-; reflexivity).
    destruct (login_token resp) as [token | e];
      injection H as <- <-; [contradiction Hr |]; reflexivity.
  - intros resp Hs Hok. rewrite Hs, Hok in H. injection H as <- _. reflexivity.
  - intros [Hs | Hs]; rewrite Hs in H; injection H as <- _; eauto.
Qed.

(** C8.  When authentication succeeds with the clock reading [T], the
    token is expired at [T + 7200] and not yet at [T + 7200 - 1]. *)
Theorem token_expires_after_validity_window (w w' : world) :
  authenticate E w = (Ok true, w') ->
  fst (is_token_expired (at_time w' (clock w' + 7200))) = Ok true
  /\ fst (is_token_expired (at_time w' (clock w' + 7200 - 1))) = Ok false.
Proof.
  intros H. apply authenticate_success in H. destruct H as [token ->].
  unfold is_token_expired, bind, time_time, get_self, ret, at_time, logged_in.
  cbn [fst self clock _token_expires_at].
  unfold _token_valid_time. split; f_equal.
  - apply Qle_bool_iff. apply Qle_refl.
  - destruct (Qle_bool _ _) eqn:Hle; [| reflexivity].
    apply Qle_bool_iff in Hle. exfalso. lra.
Qed.

End Session.

Lemma authenticate_failure_keeps_session_witness :
  let E := sample_env refusing_service in
  let w := session_at 9000 in
  authenticate E w = (Ok false, posted E w (auth_request E (self w)))
  /\ self (posted E w (auth_request E (self w))) = self w.
Proof.
  split; [reflexivity |].
  refine (proj1 (authenticate_failure_keeps_session
                   (sample_env refusing_service) (session_at 9000)
                   (Ok false) _ eq_refl) _).
  discriminate.
Defined.

Lemma token_expires_after_validity_window_witness :
  let E := sample_env good_service in
  let w' := logged_in (posted E (new_session 1000)
                         (auth_request E (self (new_session 1000))))
                      (VStr "fresh") in
  authenticate E (new_session 1000) = (Ok true, w')
  /\ fst (is_token_expired (at_time w' (clock w' + 7200))) = Ok true
  /\ fst (is_token_expired (at_time w' (clock w' + 7200 - 1))) = Ok false.
Proof.
  split; [reflexivity |].
  exact (token_expires_after_validity_window
           (sample_env good_service) (new_session 1000) _ eq_refl).
Defined.

(* ===================================================================== *)
(** ** What the listing and telemetry calls do to the world *)
(* ===================================================================== *)

(** Facts that hold of a call because they hold of each step in it.  The
    relation [I] between the world before and the world after is any
    preorder that a request for data respects. *)
Section Respect.

Variable E : environment.
Variable I : world -> world -> Prop.
Hypothesis I_refl : forall w, I w w.
Hypothesis I_trans : forall a b c, I a b -> I b c -> I a c.
Hypothesis I_post :
  forall w u h d, u <> API_AUTH_URL -> I w (snd (post E u h d w)).

Lemma respects_ret {A} (a : A) : respects I (ret a).
Proof. intros w. apply I_refl. Qed.

Lemma respects_lift {A} (r : result A) : respects I (lift r).
Proof. intros w. apply I_refl. Qed.

Lemma respects_get_self : respects I get_self.
Proof. intros w. apply I_refl. Qed.

Lemma respects_post (u : string) (h d : dict value) :
  u <> API_AUTH_URL -> respects I (post E u h d).
Proof. intros Hu w. apply I_post, Hu. Qed.

Lemma respects_bind {A B} (m : M A) (k : A -> M B) :
  respects I m -> (forall a, respects I (k a)) -> respects I (bind m k).
Proof.
  intros Hm Hk w. unfold bind.
  specialize (Hm w). destruct (m w) as [[a | e] w1]; cbn [snd] in *.
  - eapply I_trans; [exact Hm | apply Hk].
  - exact Hm.
Qed.

Local Ltac other_url :=
  let H := fresh in intro H; vm_compute in H; discriminate H.

Local Ltac respects_steps :=
  repeat (cbv beta zeta;
          first [ apply respects_ret
                | apply respects_lift
                | apply respects_get_self
                | apply respects_post; other_url
                | apply respects_bind; [| intro]
                | match goal with
                  | |- respects _ (if ?b then _ else _) => destruct b
                  end ]).

(** Each call is the guard [ensure_token] followed by steps that only
    ask for data. *)
Lemma call_decomposes (c : call) :
  exists (A : Type) (k : unit -> M A),
    (forall w, after E c w = snd (bind (ensure_token E) k w))
    /\ respects I (k tt).
Proof.
  destruct c; do 2 eexists;
    (split;
     [ intros w;
       unfold after, get_stations, get_dtus, get_microinverters, list_devices,
         get_real_time_data_station, get_real_time_data_dtu,
         get_real_time_data_microinverter;
       reflexivity
     | respects_steps ]).
Qed.

End Respect.

Section Calls.

Variable E : environment.

Lemma authenticate_sent (w : world) :
  sent (snd (authenticate E w)) = (sent w ++ [auth_request E (self w)])%list.
Proof.
  rewrite authenticate_unfold. cbv zeta.
  destruct (server E (sent w) _) as [| | resp | | body]; try reflexivity.
  destruct (is_success resp) as [[|] | e]; try reflexivity.
  destruct (login_token resp); reflexivity.
Qed.

Lemma adds_refl (R : request -> Prop) (w : world) : adds R w w.
Proof. exists []. split; [symmetry; apply app_nil_r | constructor]. Qed.

Lemma adds_trans (R : request -> Prop) (a b c : world) :
  adds R a b -> adds R b c -> adds R a c.
Proof.
  intros (n1 & H1 & F1) (n2 & H2 & F2). exists (n1 ++ n2)%list. split.
  - rewrite H2, H1. symmetry. apply app_assoc.
  - apply Forall_app. split; assumption.
Qed.

Lemma adds_post (R : request -> Prop) (w : world) (u : string) (h d : dict value) :
  R {| url := u; headers := h; json := d |} ->
  adds R w (snd (post E u h d w)).
Proof.
  intros HR. exists [{| url := u; headers := h; json := d |}]. split.
  - unfold post. destruct (server E (sent w) _) as [| | ? | | [? |]]; reflexivity.
  - constructor; [exact HR | constructor].
Qed.

(** With no token stored, the guard authenticates, and that request is
    the first the call makes. *)
Lemma guard_authenticates_first {A} (k : unit -> M A) (w : world) :
  truthy (_token (self w)) = false ->
  respects (adds (fun _ => True)) (k tt) ->
  authenticates_first E w (snd (bind (ensure_token E) k w)).
Proof.
  intros Ht Hk. unfold authenticates_first.
  pose proof (authenticate_sent w) as Hs.
  unfold bind at 1. unfold ensure_token, bind, get_self. rewrite Ht.
  destruct (authenticate E w) as [[b | e] w1]; cbn [snd] in *.
  - unfold ret. destruct (Hk w1) as (new & Hn & _).
    exists new. rewrite Hn, Hs. rewrite <- app_assoc. reflexivity.
  - exists []. exact Hs.
Qed.

(** With a token stored, the guard does nothing. *)
Lemma guard_skips {A} (k : unit -> M A) (w : world) :
  truthy (_token (self w)) = true ->
  bind (ensure_token E) k w = k tt w.
Proof.
  intros Ht. unfold bind at 1. unfold ensure_token, bind, get_self.
  rewrite Ht. reflexivity.
Qed.

(** C3, as the code has it.  A listing or telemetry call authenticates
    first whenever no token is stored ([None], or any value Python takes
    for false); with a token stored it makes no authentication request
    at all, whatever [is_token_expired] says of that token. *)
Theorem calls_authenticate_when_token_missing (c : call) (w : world) :
  (truthy (_token (self w)) = false -> authenticates_first E w (after E c w))
  /\ (truthy (_token (self w)) = true ->
      adds (fun r => url r <> API_AUTH_URL) w (after E c w)).
Proof.
  split; intros Ht.
  - destruct (call_decomposes E (adds (fun _ => True))
                (adds_refl _) (adds_trans _)
                (fun w u h d _ => adds_post _ w u h d Logic.I) c)
      as (A & k & Hc & Hk).
    rewrite Hc. apply guard_authenticates_first; assumption.
  - destruct (call_decomposes E (adds (fun r => url r <> API_AUTH_URL))
                (adds_refl _) (adds_trans _)
                (fun w u h d Hu => adds_post _ w u h d Hu) c)
      as (A & k & Hc & Hk).
    rewrite Hc, guard_skips by assumption. apply Hk.
Qed.

(** The session keeps [P] through any call once [authenticate] does. *)
Lemma call_keeps (P : HoymilesAPI -> Prop) :
  (forall w, P (self w) -> P (self (snd (authenticate E w)))) ->
  forall c w, P (self w) -> P (self (after E c w)).
Proof.
  intros Hauth c.
  set (I := fun w w' : world => P (self w) -> P (self w')).
  assert (Hrefl : forall w, I w w) by (intros w H; exact H).
  assert (Htrans : forall a b c, I a b -> I b c -> I a c)
    by (intros a b c' H1 H2 H; auto).
  assert (Hpost : forall w u h d, u <> API_AUTH_URL -> I w (snd (post E u h d w))).
  { intros w u h d _ H. unfold post.
    destruct (server E (sent w) _) as [| | ? | | [? |]]; exact H. }
  destruct (call_decomposes E I Hrefl Htrans Hpost c) as (A & k & Hc & Hk).
  intros w. rewrite Hc.
  assert (Hguard : respects I (ensure_token E)).
  { apply (respects_bind I Htrans).
    - apply (respects_get_self I Hrefl).
    - intros s. destruct (truthy (_token s)).
      + apply (respects_ret I Hrefl).
      + apply (respects_bind I Htrans).
        * intros w0 H0. apply Hauth, H0.
        * intros b. apply (respects_ret I Hrefl). }
  apply (respects_bind I Htrans (ensure_token E) k Hguard).
  intros []. exact Hk.
Qed.

(** When every accepted login carries a token, a session without a
    token has never been given an expiry. *)
Lemma tokenless_session_has_no_expiry (w : world) :
  (forall h r resp,
      url r = API_AUTH_URL -> server E h r = Json resp ->
      is_success resp = Ok true -> login_token resp <> Ok VNone) ->
  reachable E w ->
  _token (self w) = VNone -> _token_expires_at (self w) = 0%Q.
Proof.
  intros Hsrv.
  set (P := fun s : HoymilesAPI => _token s = VNone -> _token_expires_at s = 0%Q).
  assert (Hauth : forall w, P (self w) -> P (self (snd (authenticate E w)))).
  { intros w0 H0. rewrite authenticate_unfold. cbv zeta.
    destruct (server E (sent w0) _) as [| | resp | | body] eqn:Hs; try exact H0.
    destruct (is_success resp) as [[|] | e] eqn:Hok; try exact H0.
    destruct (login_token resp) as [token | e] eqn:Htok; try exact H0.
    intros Hnone. cbn in Hnone. subst token.
    exfalso. exact (Hsrv _ (auth_request E (self w0)) _ eq_refl Hs Hok Htok). }
  intros Hr. change (P (self w)).
  induction Hr as [u p t | w0 Hr IH | c w0 Hr IH | w0 t Hr IH].
  - intros _. reflexivity.
  - apply Hauth, IH.
  - apply (call_keeps P Hauth), IH.
  - exact IH.
Qed.

(** C4, as the code has it.  As long as every login the service accepts
    carries a token, a session whose token is [None] is one that never
    logged in, and [is_token_expired] holds of it (at any time from the
    epoch on). *)
Theorem null_token_is_expired_unless_login_lacked_token (w : world) :
  (forall h r resp,
      url r = API_AUTH_URL -> server E h r = Json resp ->
      is_success resp = Ok true -> login_token resp <> Ok VNone) ->
  reachable E w ->
  (0 <= clock w)%Q ->
  _token (self w) = VNone ->
  fst (is_token_expired w) = Ok true.
Proof.
  intros Hsrv Hr Hclock Hnone.
  pose proof (tokenless_session_has_no_expiry w Hsrv Hr Hnone) as Hexp.
  unfold is_token_expired, bind, time_time, get_self, ret. cbn [fst].
  rewrite Hexp. f_equal. apply Qle_bool_iff. exact Hclock.
Qed.

End Calls.

Lemma calls_authenticate_when_token_missing_witness :
  let E := sample_env good_service in
  (truthy (_token (self (new_session 1000))) = false
   /\ authenticates_first E (new_session 1000)
        (after E GetStations (new_session 1000)))
  /\ (truthy (_token (self (session_at 9000))) = true
      /\ fst (is_token_expired (session_at 9000)) = Ok true
      /\ adds (fun r => url r <> API_AUTH_URL) (session_at 9000)
           (after E (GetRealTimeDataDtu "7" "70") (session_at 9000))).
Proof.
  split.
  - split; [reflexivity |].
    exact (proj1 (calls_authenticate_when_token_missing
                    (sample_env good_service) GetStations (new_session 1000))
                 eq_refl).
  - split; [reflexivity |]. split; [reflexivity |].
    exact (proj2 (calls_authenticate_when_token_missing
                    (sample_env good_service) (GetRealTimeDataDtu "7" "70")
                    (session_at 9000))
                 eq_refl).
Defined.

(** C3, as stated, fails: with a token that is stored but expired,
    [get_stations] asks for the stations at once, without authenticating
    first. *)
Lemma expired_token_is_used_unrenewed :
  ~ (forall (E : environment) (c : call) (w : world),
        fst (is_token_expired w) = Ok true ->
        authenticates_first E w (after E c w)).
Proof.
  intros H.
  destruct (H (sample_env good_service) GetStations (session_at 9000) eq_refl)
    as [rest Hrest].
  vm_compute in Hrest. discriminate Hrest.
Qed.

Lemma null_token_is_expired_unless_login_lacked_token_witness :
  let E := sample_env refusing_service in
  let w := snd (authenticate E (new_session 1000)) in
  _token (self w) = VNone /\ fst (is_token_expired w) = Ok true.
Proof.
  split; [reflexivity |].
  apply (null_token_is_expired_unless_login_lacked_token
           (sample_env refusing_service)).
  - intros h r resp Hu Hs Hok.
    unfold sample_env, refusing_service, by_url in Hs. cbn [server] in Hs.
    rewrite Hu in Hs. vm_compute in Hs. injection Hs as <-.
    vm_compute in Hok. discriminate Hok.
  - apply reach_authenticate. apply reach_new.
  - vm_compute. discriminate.
  - reflexivity.
Defined.

(** C4, as stated, fails: after a login that the service accepts without
    handing out a token, the stored token is [None] and yet
    [is_token_expired] is false for the next two hours. *)
Lemma null_token_after_tokenless_login_is_not_expired :
  ~ (forall (E : environment) (w : world),
        reachable E w ->
        (0 <= clock w)%Q ->
        _token (self w) = VNone ->
        fst (is_token_expired w) = Ok true).
Proof.
  intros H.
  specialize (H (sample_env tokenless_service)
                (snd (authenticate (sample_env tokenless_service) (new_session 1000)))
                (reach_authenticate _ _ (reach_new _ "user" "password" 1000))).
  assert (Hc : (0 <= clock (snd (authenticate (sample_env tokenless_service)
                                   (new_session 1000))))%Q)
    by (vm_compute; discriminate).
  specialize (H Hc eq_refl).
  vm_compute in H. discriminate H.
Qed.

(* ===================================================================== *)
(** ** The concentrator fetch *)
(* ===================================================================== *)

Section Dictionaries.

Context {V : Type}.

Lemma dict_get_set (d : dict V) (k k' : string) (v : V) :
  dict_get (dict_set d k v) k' =
  if String.eqb k k' then Some v else dict_get d k'.
Proof.
  induction d as [| [k0 v0] d IH]; simpl.
  - reflexivity.
  - destruct (String.eqb_spec k0 k) as [-> | Hk0]; simpl.
    + destruct (String.eqb k k'); reflexivity.
    + rewrite IH.
      destruct (String.eqb_spec k0 k') as [-> | Hk0'].
      * destruct (String.eqb_spec k k'); [congruence | reflexivity].
      * reflexivity.
Qed.

Lemma dict_set_twice (d : dict V) (k : string) (v v' : V) :
  dict_set (dict_set d k v) k v' = dict_set d k v'.
Proof.
  induction d as [| [k0 v0] d IH]; simpl.
  - rewrite String.eqb_refl. reflexivity.
  - destruct (String.eqb k0 k) eqn:Hk; simpl; rewrite Hk.
    + reflexivity.
    + rewrite IH. reflexivity.
Qed.

(** Storing under [a] again, after a store under another key, only
    changes the value kept for [a]. *)
Lemma dict_set_again (d : dict V) (a b : string) (x y x' : V) :
  a <> b ->
  dict_set (dict_set (dict_set d a x) b y) a x' = dict_set (dict_set d a x') b y.
Proof.
  intros Hab. induction d as [| [k0 v0] d IH]; simpl.
  - destruct (String.eqb_spec a b); [contradiction |]. simpl.
    rewrite String.eqb_refl. reflexivity.
  - destruct (String.eqb_spec k0 a) as [-> | Ha]; simpl.
    + destruct (String.eqb_spec a b); [contradiction |]. simpl.
      rewrite String.eqb_refl. reflexivity.
    + destruct (String.eqb_spec k0 b) as [-> | Hb]; simpl.
      * destruct (String.eqb_spec b a); [congruence |].
        rewrite dict_set_twice. reflexivity.
      * destruct (String.eqb_spec k0 a); [contradiction |].
        rewrite IH. reflexivity.
Qed.

End Dictionaries.

Section Merge.

Variable E : environment.

Lemma patched_again (d : dict value) (e e' : value) :
  patched (patched d e) e' = patched d e'.
Proof.
  unfold patched.
  rewrite !dict_set_again by discriminate. reflexivity.
Qed.

Lemma patch_dtu_dict (dtu_id : string) (d e : dict value) :
  patch_dtu E dtu_id (VDict d) (VDict e) =
  Ok (VDict (if matches E dtu_id (VDict e) then patched d (VDict e) else d)).
Proof.
  unfold patch_dtu, matches, patched, field. cbn [py_get rbind].
  destruct (String.eqb dtu_id _); reflexivity.
Qed.

Lemma last_match_cons (dtu_id : string) (x : value) (l : list value) :
  last_match E dtu_id (x :: l) =
  match last_match E dtu_id l with
  | Some e => Some e
  | None => if matches E dtu_id x then Some x else None
  end.
Proof.
  unfold last_match. cbn [rev].
  induction (rev l) as [| y r IH]; cbn [app find].
  - reflexivity.
  - destruct (matches E dtu_id y); [reflexivity | exact IH].
Qed.

(** The loop over the listing: the last entry of [dtu_id] decides. *)
Lemma patch_loop (dtu_id : string) (entries : list value) :
  forallb is_dict entries = true ->
  forall d,
    rfold (patch_dtu E dtu_id) entries (VDict d) =
    Ok (VDict match last_match E dtu_id entries with
              | Some e => patched d e
              | None => d
              end).
Proof.
  induction entries as [| x l IH]; intros Hd d.
  - reflexivity.
  - cbn [forallb] in Hd. apply andb_true_iff in Hd. destruct Hd as [Hx Hl].
    destruct x as [| | | | | | e]; try discriminate.
    cbn [rfold]. rewrite patch_dtu_dict. cbn [rbind].
    rewrite IH by exact Hl. rewrite last_match_cons.
    destruct (last_match E dtu_id l) as [e' |].
    + destruct (matches E dtu_id (VDict e)); [rewrite patched_again |]; reflexivity.
    + destruct (matches E dtu_id (VDict e)); reflexivity.
Qed.

(** C5, as the code has it.  When the detail request is answered with
    the fields [detail] and the listing request with entries that are
    all objects, [e] being the last of them that is of this
    concentrator, the fetch returns [detail] with [warn_data] and
    [model_no] taken from [e] -- [None] for one that [e] lacks -- and
    every other field as the detail request gave it. *)
Theorem dtu_fetch_patches_two_fields
  (station_id dtu_id : string) (i sid : Z) (w w0 : world)
  (resp1 resp2 : value) (detail : dict value) (entries : list value) (e : value) :
  ensure_token E w = (Ok tt, w0) ->
  py_int dtu_id = Ok i ->
  py_int station_id = Ok sid ->
  server E (sent w0) (dtu_detail_request (_token (self w0)) i sid) = Json resp1 ->
  is_success resp1 = Ok true ->
  py_get resp1 "data" (VDict []) = Ok (VDict detail) ->
  server E (sent w0 ++ [dtu_detail_request (_token (self w0)) i sid])
         (dtu_listing_request (_token (self w0)) sid) = Json resp2 ->
  is_success resp2 = Ok true ->
  data_list resp2 = Ok entries ->
  forallb is_dict entries = true ->
  last_match E dtu_id entries = Some e ->
  fst (get_real_time_data_dtu E station_id dtu_id w) = Ok (VDict (patched detail e))
  /\ forall k,
       dict_get (patched detail e) k =
       if String.eqb k "model_no" then Some (field e "model_no")
       else if String.eqb k "warn_data" then Some (field e "warn_data")
       else dict_get detail k.
Proof.
  intros Hguard Hi Hsid Hs1 Hok1 Hdata Hs2 Hok2 Hlist Hdicts Hlast.
  split.
  - unfold get_real_time_data_dtu.
    unfold bind at 1. rewrite Hguard.
    unfold bind, get_self, lift, post, ret. cbv zeta.
    rewrite Hi, Hsid.
    unfold dtu_detail_request in Hs1, Hs2. rewrite Hs1. rewrite Hok1, Hdata.
    cbn [sent]. unfold dtu_listing_request in Hs2. rewrite Hs2.
    rewrite Hok2, Hlist. cbn [fst].
    rewrite patch_loop by exact Hdicts. rewrite Hlast. reflexivity.
  - intros k. unfold patched. rewrite !dict_get_set.
    rewrite (String.eqb_sym k "model_no"), (String.eqb_sym k "warn_data").
    reflexivity.
Qed.

(** The fetch is in two parts: once the detail request is accepted,
    the listing request follows it, and no other. *)
Lemma dtu_fetch_is_two_requests
  (station_id dtu_id : string) (i sid : Z) (w w0 : world) (resp1 : value) :
  ensure_token E w = (Ok tt, w0) ->
  py_int dtu_id = Ok i ->
  py_int station_id = Ok sid ->
  server E (sent w0) (dtu_detail_request (_token (self w0)) i sid) = Json resp1 ->
  is_success resp1 = Ok true ->
  sent (snd (get_real_time_data_dtu E station_id dtu_id w)) =
  (sent w0 ++ [dtu_detail_request (_token (self w0)) i sid;
               dtu_listing_request (_token (self w0)) sid])%list.
Proof.
  intros Hguard Hi Hsid Hs1 Hok1.
  unfold get_real_time_data_dtu.
  unfold bind at 1. rewrite Hguard.
  unfold bind, get_self, lift, post, ret. cbv zeta.
  rewrite Hi, Hsid.
  unfold dtu_detail_request in Hs1. rewrite Hs1, Hok1.
  assert (Hd : exists d, py_get resp1 "data" (VDict []) = Ok d).
  { destruct resp1; try discriminate. eexists. reflexivity. }
  destruct Hd as [d ->]. cbn [sent].
  unfold dtu_detail_request, dtu_listing_request.
  rewrite <- app_assoc. cbn [app].
  destruct (server E (sent w0 ++ _) _) as [| | resp2 | | [resp2 |]];
    try reflexivity;
    (destruct (is_success resp2) as [[|] | e]; try reflexivity;
     destruct (data_list resp2) as [l | e]; reflexivity).
Qed.

End Merge.

Lemma dtu_fetch_patches_two_fields_witness :
  fst (get_real_time_data_dtu (sample_env good_service) "7" "70" (session_at 2000)) =
  Ok (VDict [("a", VInt 1); ("b", VInt 2);
             ("warn_data", VDict [("connect", VBool true)]);
             ("model_no", VStr "DTU-Pro")]).
Proof.
  exact (proj1 (dtu_fetch_patches_two_fields
                  (sample_env good_service) "7" "70" 70 7
                  (session_at 2000) (session_at 2000)
                  (envelope "0" "success" (VDict [("a", VInt 1); ("b", VInt 2)]))
                  (envelope "0" "success"
                     (listing [VDict [("id", VInt 70); ("model_no", VStr "DTU-Pro");
                                      ("warn_data", VDict [("connect", VBool true)])]]))
                  [("a", VInt 1); ("b", VInt 2)]
                  [VDict [("id", VInt 70); ("model_no", VStr "DTU-Pro");
                          ("warn_data", VDict [("connect", VBool true)])]]
                  (VDict [("id", VInt 70); ("model_no", VStr "DTU-Pro");
                          ("warn_data", VDict [("connect", VBool true)])])
                  eq_refl eq_refl eq_refl eq_refl eq_refl eq_refl
                  eq_refl eq_refl eq_refl eq_refl eq_refl)).
Defined.

(** C5, as stated, fails.  That the listing has an entry of the
    concentrator with both fields is not enough: an entry after it that
    is not an object -- here [null] -- makes the fetch raise
    [AttributeError], for the loop calls [.get] on every entry. *)
Lemma dtu_fetch_raises_on_null_listing_entry :
  ~ (forall (E : environment) (station_id dtu_id : string) (i sid : Z)
            (w w0 : world) (resp1 resp2 : value) (detail : dict value)
            (entries : list value) (e : value),
        ensure_token E w = (Ok tt, w0) ->
        py_int dtu_id = Ok i ->
        py_int station_id = Ok sid ->
        server E (sent w0) (dtu_detail_request (_token (self w0)) i sid) = Json resp1 ->
        is_success resp1 = Ok true ->
        py_get resp1 "data" (VDict []) = Ok (VDict detail) ->
        server E (sent w0 ++ [dtu_detail_request (_token (self w0)) i sid])
               (dtu_listing_request (_token (self w0)) sid) = Json resp2 ->
        is_success resp2 = Ok true ->
        data_list resp2 = Ok entries ->
        In e entries ->
        matches E dtu_id e = true ->
        field e "warn_data" <> VNone ->
        field e "model_no" <> VNone ->
        fst (get_real_time_data_dtu E station_id dtu_id w)
        = Ok (VDict (patched detail e))).
Proof.
  intros H.
  specialize (H (sample_env (listing_service ragged_listing)) "7" "70" 70 7
                (session_at 2000) (session_at 2000)
                (envelope "0" "success" (VDict [("a", VInt 1); ("b", VInt 2)]))
                (envelope "0" "success" (listing ragged_listing))
                [("a", VInt 1); ("b", VInt 2)] ragged_listing
                (VDict [("id", VInt 70); ("model_no", VStr "DTU-Pro");
                        ("warn_data", VDict [("connect", VBool true)])])
                eq_refl eq_refl eq_refl eq_refl eq_refl eq_refl eq_refl eq_refl
                eq_refl (or_introl eq_refl) eq_refl).
  assert (Hraise : fst (get_real_time_data_dtu
                          (sample_env (listing_service ragged_listing))
                          "7" "70" (session_at 2000))
                   = Raise AttributeError) by (vm_compute; reflexivity).
  rewrite Hraise in H.
  assert (Hfields : forall k v,
             field (VDict [("id", VInt 70); ("model_no", VStr "DTU-Pro");
                           ("warn_data", VDict [("connect", VBool true)])]) k = v ->
             k = "warn_data" \/ k = "model_no" -> v <> VNone).
  { intros k v <- [-> | ->]; vm_compute; discriminate. }
  discriminate (H (Hfields _ _ eq_refl (or_introl eq_refl))
                  (Hfields _ _ eq_refl (or_intror eq_refl))).
Qed.

(** Nor is it any entry of the concentrator that gives the two fields,
    but the last one: a later entry of the same id that lacks them
    leaves both [None] in the payload. *)
Lemma dtu_fetch_takes_the_last_entry :
  fst (get_real_time_data_dtu (sample_env (listing_service doubled_listing))
                              "7" "70" (session_at 2000))
  = Ok (VDict [("a", VInt 1); ("b", VInt 2);
               ("warn_data", VNone); ("model_no", VNone)]).
Proof. vm_compute. reflexivity. Qed.


(* ===================================================================== *)
(** ** The refresh cycle *)
(* ===================================================================== *)

Section Loops.

Variable E : environment.

Lemma bind_ext {A B} (m : M A) (k k' : A -> M B) (w : world) :
  (forall a w', k a w' = k' a w') -> bind m k w = bind m k' w.
Proof.
  intros H. unfold bind. destruct (m w) as [[a | e] w']; [apply H | reflexivity].
Qed.

Lemma bind_assoc {A B C} (m : M A) (k : A -> M B) (k' : B -> M C) (w : world) :
  bind (bind m k) k' w = bind m (fun a => bind (k a) k') w.
Proof.
  unfold bind. destruct (m w) as [[a | e] w']; reflexivity.
Qed.

Lemma foldM_ext {A B} (f g : B -> A -> M B) (l : list A) :
  (forall b a w, f b a w = g b a w) ->
  forall b w, foldM f l b w = foldM g l b w.
Proof.
  intros H. induction l as [| a l IH]; intros b w; cbn [foldM].
  - reflexivity.
  - unfold bind. rewrite H. destruct (g b a w) as [[b' | e] w']; [apply IH | reflexivity].
Qed.

Lemma foldM_app {A B} (f : B -> A -> M B) (l1 l2 : list A) :
  forall b w, foldM f (l1 ++ l2) b w = bind (foldM f l1 b) (foldM f l2) w.
Proof.
  induction l1 as [| a l1 IH]; intros b w; cbn [app foldM].
  - reflexivity.
  - rewrite bind_assoc. apply bind_ext. intros b' w'. apply IH.
Qed.

Lemma foldM_map {A A' B} (f : B -> A' -> M B) (g : A -> A') (l : list A) :
  forall b w, foldM f (map g l) b w = foldM (fun b a => f b (g a)) l b w.
Proof.
  induction l as [| a l IH]; intros b w; cbn [map foldM].
  - reflexivity.
  - apply bind_ext. intros b' w'. apply IH.
Qed.

Lemma foldM_flat_map {A A' B} (f : B -> A' -> M B) (g : A -> list A') (l : list A) :
  forall b w,
    foldM f (flat_map g l) b w = foldM (fun b a => foldM f (g a) b) l b w.
Proof.
  induction l as [| a l IH]; intros b w; cbn [flat_map foldM].
  - reflexivity.
  - rewrite foldM_app. apply bind_ext. intros b' w'. apply IH.
Qed.

(** The loop over the devices of a station makes the fetches of the
    devices listed under that station, in order. *)
Lemma update_devices_plan (body : string -> snapshot -> device -> M snapshot)
  (mk : string -> string -> fetch) (station_id : string)
  (by_station : dict devices) :
  (forall sid data d w, body sid data d w = visit E data (mk sid (dev_id d)) w) ->
  forall data w,
    update_devices body station_id by_station data w =
    foldM (visit E) (map (fun d => mk station_id (dev_id d))
                         (devices_of station_id by_station)) data w.
Proof.
  intros Hbody data w. unfold update_devices, devices_of.
  rewrite foldM_map, foldM_flat_map.
  apply foldM_ext. intros b kv w'.
  destruct (String.eqb station_id (fst kv)).
  - apply foldM_ext. intros b' d w''. apply Hbody.
  - reflexivity.
Qed.

(** The cycle is the renewal of the token followed by the fetches of
    its plan, each stored under its entity. *)
Lemma cycle_follows_plan (t : topology) (w : world) :
  async_update_data E t w =
  try_except (bind (renew_token E) (fun _ => foldM (visit E) (plan t) []))
             (fun e => raise (UpdateFailed e)) w.
Proof.
  unfold async_update_data, try_except.
  replace (bind (renew_token E) (fun _ => foldM (update_station E t) (keys (stations t)) []) w)
    with (bind (renew_token E) (fun _ => foldM (visit E) (plan t) []) w);
    [reflexivity |].
  apply bind_ext. intros _ w'. unfold plan.
  rewrite foldM_flat_map. apply foldM_ext. intros data sid w''.
  cbn [foldM]. unfold update_station.
  unfold visit at 1. rewrite bind_assoc. apply bind_ext. intros rt w1.
  unfold bind at 1, ret at 1. rewrite foldM_app.
  cbn [entity]. unfold bind.
  rewrite (update_devices_plan (update_dtu E) Dtu) by reflexivity.
  destruct (foldM (visit E) _ _ w1) as [[data' | e] w2]; [| reflexivity].
  rewrite (update_devices_plan (update_microinverter E) Micro) by reflexivity.
  reflexivity.
Qed.

Lemma visits_are_fetches (fs : list fetch) :
  forall data w,
    foldM (visit E) fs data w =
    bind (fetch_all E fs) (fun results => ret (store_all data results)) w.
Proof.
  induction fs as [| f fs IH]; intros data w; cbn [foldM fetch_all].
  - reflexivity.
  - unfold visit at 1. rewrite !bind_assoc. apply bind_ext. intros rt w1.
    unfold bind at 1, ret at 1. rewrite IH, bind_assoc.
    apply bind_ext. intros results w2. reflexivity.
Qed.

Lemma fetch_all_entities (fs : list fetch) :
  forall w results w',
    fetch_all E fs w = (Ok results, w') -> map fst results = map entity fs.
Proof.
  induction fs as [| f fs IH]; intros w results w'; cbn [fetch_all].
  - unfold ret. intros H. injection H as <- _. reflexivity.
  - unfold bind, ret.
    destruct (perform E f w) as [[rt | e] w1]; [| discriminate].
    destruct (fetch_all E fs w1) as [[rest | e] w2] eqn:Hrest; [| discriminate].
    intros H. injection H as <- _. cbn [map fst]. f_equal. eapply IH, Hrest.
Qed.

End Loops.

Section Cycles.

Variable E : environment.

(** The sibling path: set-up stops when authentication is refused. *)
Lemma setup_stops_when_authentication_is_refused (w w' : world) :
  authenticate E w = (Ok false, w') ->
  async_setup_entry E w = (Ok None, w').
Proof.
  intros H. unfold async_setup_entry, bind, try_except. rewrite H. reflexivity.
Qed.

(** A renewal that raises does abort the cycle. *)
Lemma raising_reauthentication_aborts_cycle
  (t : topology) (c : coordinator) (w w' : world) (e : exn) :
  fst (is_token_expired w) = Ok true ->
  authenticate E w = (Raise e, w') ->
  refresh E t c w =
  ({| published := published c; last_update_success := false |}, w').
Proof.
  intros Hexp Hauth. unfold refresh, async_update_data, try_except.
  unfold bind at 1. unfold renew_token. unfold bind at 1.
  unfold is_token_expired, bind, time_time, get_self, ret in Hexp |- *.
  cbn [fst] in Hexp. injection Hexp as ->.
  rewrite Hauth. reflexivity.
Qed.

(** C2, as the code has it.  A fetch that raises is not set apart from
    the others: when the fetches before it went through and it raises,
    the cycle stops there, raises [UpdateFailed] and publishes nothing;
    the fetches after it are not made. *)
Theorem failed_fetch_aborts_cycle
  (t : topology) (before later : list fetch) (f : fetch)
  (w w0 w1 w2 : world) (results : list (string * value)) (e : exn)
  (c : coordinator) :
  plan t = (before ++ f :: later)%list ->
  renew_token E w = (Ok tt, w0) ->
  fetch_all E before w0 = (Ok results, w1) ->
  perform E f w1 = (Raise e, w2) ->
  async_update_data E t w = (Raise (UpdateFailed e), w2)
  /\ refresh E t c w =
     ({| published := published c; last_update_success := false |}, w2).
Proof.
  intros Hplan Hrenew Hbefore Hf.
  assert (Hrun : async_update_data E t w = (Raise (UpdateFailed e), w2)).
  { rewrite cycle_follows_plan, Hplan. unfold try_except.
    unfold bind at 1. rewrite Hrenew.
    rewrite foldM_app. unfold bind at 1. rewrite visits_are_fetches.
    unfold bind at 1. rewrite Hbefore.
    unfold ret at 1. cbn [foldM]. unfold bind at 1, visit, bind.
    rewrite Hf. reflexivity. }
  split; [exact Hrun |].
  unfold refresh. rewrite Hrun. reflexivity.
Qed.

End Cycles.

Lemma failed_fetch_aborts_cycle_witness :
  let E := sample_env flaky_service in
  fst (refresh E sample_topology earlier_snapshot (session_at 2000))
  = {| published := published earlier_snapshot; last_update_success := false |}.
Proof.
  cbv zeta.
  rewrite (proj2 (failed_fetch_aborts_cycle
                    (sample_env flaky_service) sample_topology
                    [Station "7"; Dtu "7" "70"] [Micro "7" "701"] (Micro "7" "700")
                    (session_at 2000) (session_at 2000) _ _ _ ClientError
                    earlier_snapshot eq_refl eq_refl eq_refl eq_refl)).
  reflexivity.
Defined.

(** C2, as stated, fails: with micro-inverter 700 unreachable, the cycle
    over station 7, concentrator 70 and micro-inverters 700 and 701
    produces no snapshot at all, although the fetches of the station
    and of the concentrator had gone through. *)
Lemma unreachable_device_loses_whole_cycle :
  ~ (forall (E : environment) (t : topology) (before later : list fetch)
            (f : fetch) (w w0 w1 w2 : world)
            (results : list (string * value)) (e : exn),
        plan t = (before ++ f :: later)%list ->
        renew_token E w = (Ok tt, w0) ->
        fetch_all E before w0 = (Ok results, w1) ->
        perform E f w1 = (Raise e, w2) ->
        exists data w',
          async_update_data E t w = (Ok data, w')
          /\ forall g, In g (before ++ later) -> dict_get data (entity g) <> None).
Proof.
  intros H.
  destruct (H (sample_env flaky_service) sample_topology
              [Station "7"; Dtu "7" "70"] [Micro "7" "701"] (Micro "7" "700")
              (session_at 2000) (session_at 2000) _ _ _ ClientError
              eq_refl eq_refl eq_refl eq_refl)
    as (data & w' & Hrun & _).
  vm_compute in Hrun. discriminate Hrun.
Qed.

(** C1: the cycle at a session whose token has expired and whose
    renewal is refused.  [authenticate] returns [False], the cycle goes
    on with the old token, every request for data is turned down, and
    a snapshot of empty payloads replaces the one published before. *)
Theorem refused_reauthentication_still_publishes :
  let E := sample_env refusing_service in
  let w := session_at 9000 in
  fst (is_token_expired w) = Ok true
  /\ fst (authenticate E w) = Ok false
  /\ fst (refresh E sample_topology earlier_snapshot w) =
     {| published := [("7", entry (VDict [])); ("70", entry (VDict []));
                      ("700", entry (VDict [])); ("701", entry (VDict []))];
        last_update_success := true |}.
Proof.
  repeat split; vm_compute; reflexivity.
Qed.

Section TwoSites.

Variable E : environment.

Lemma dict_set_fresh {V} (d : dict V) (k : string) (v : V) :
  ~ In k (keys d) -> dict_set d k v = (d ++ [(k, v)])%list.
Proof.
  induction d as [| [k0 v0] d IH]; cbn [dict_set keys map fst In app]; intros Hk.
  - reflexivity.
  - destruct (String.eqb_spec k0 k) as [-> | _].
    + exfalso. apply Hk. left. reflexivity.
    + f_equal. apply IH. intros Hin. apply Hk. right. exact Hin.
Qed.

Lemma keys_publish (results : list (string * value)) :
  keys (publish results) = map fst results.
Proof.
  unfold keys, publish. rewrite map_map. reflexivity.
Qed.

(** Results for distinct entities, none of them in the snapshot yet, are
    stored one after the other. *)
Lemma store_all_fresh (results : list (string * value)) :
  forall data,
    NoDup (keys data ++ map fst results) ->
    store_all data results = (data ++ publish results)%list.
Proof.
  induction results as [| [k rt] results IH]; intros data Hnd.
  - cbn. symmetry. apply app_nil_r.
  - cbn [store_all fold_left fst snd map] in *.
    change (fold_left _ results ?d) with (store_all d results).
    rewrite dict_set_fresh.
    + rewrite IH.
      * rewrite <- app_assoc. reflexivity.
      * unfold keys. rewrite map_app, <- app_assoc. exact Hnd.
    + intros Hin. apply NoDup_remove_2 in Hnd. apply Hnd.
      apply in_or_app. left. exact Hin.
Qed.

(** C6.  For an account with two stations, each with one concentrator
    and two micro-inverters, all eight identifiers distinct, a cycle is
    the renewal of the token (when expired) followed by exactly eight
    fetches -- per station one for the station, one for its concentrator
    and two for its micro-inverters, each made in the world the one
    before it left -- and the snapshot it returns has exactly the eight
    identifiers as keys, each leading to [{"real_time_data": p}] with
    [p] the payload the fetch for that identifier returned. *)
Theorem two_site_cycle_makes_eight_fetches
  (t : topology) (s1 s2 d1 d2 m11 m12 m21 m22 : string) (w : world) :
  keys (stations t) = [s1; s2] ->
  map dev_id (devices_of s1 (dtus t)) = [d1] ->
  map dev_id (devices_of s1 (microinverters t)) = [m11; m12] ->
  map dev_id (devices_of s2 (dtus t)) = [d2] ->
  map dev_id (devices_of s2 (microinverters t)) = [m21; m22] ->
  NoDup [s1; d1; m11; m12; s2; d2; m21; m22] ->
  let fetches := [Station s1; Dtu s1 d1; Micro s1 m11; Micro s1 m12;
                  Station s2; Dtu s2 d2; Micro s2 m21; Micro s2 m22] in
  plan t = fetches
  /\ async_update_data E t w = cycle_of E fetches w
  /\ forall data w',
       async_update_data E t w = (Ok data, w') ->
       exists (w0 w1 w2 w3 w4 w5 w6 w7 : world)
              (p1 p2 p3 p4 p5 p6 p7 p8 : value),
         renew_token E w = (Ok tt, w0)
         /\ get_real_time_data_station E s1 w0 = (Ok p1, w1)
         /\ get_real_time_data_dtu E s1 d1 w1 = (Ok p2, w2)
         /\ get_real_time_data_microinverter E s1 m11 w2 = (Ok p3, w3)
         /\ get_real_time_data_microinverter E s1 m12 w3 = (Ok p4, w4)
         /\ get_real_time_data_station E s2 w4 = (Ok p5, w5)
         /\ get_real_time_data_dtu E s2 d2 w5 = (Ok p6, w6)
         /\ get_real_time_data_microinverter E s2 m21 w6 = (Ok p7, w7)
         /\ get_real_time_data_microinverter E s2 m22 w7 = (Ok p8, w')
         /\ data = [(s1, VDict [("real_time_data", p1)]);
                    (d1, VDict [("real_time_data", p2)]);
                    (m11, VDict [("real_time_data", p3)]);
                    (m12, VDict [("real_time_data", p4)]);
                    (s2, VDict [("real_time_data", p5)]);
                    (d2, VDict [("real_time_data", p6)]);
                    (m21, VDict [("real_time_data", p7)]);
                    (m22, VDict [("real_time_data", p8)])].
Proof.
  intros Hst Hd1 Hm1 Hd2 Hm2 Hnd fetches.
  assert (Hplan : plan t = fetches).
  { unfold plan. rewrite Hst. cbn [flat_map].
    rewrite <- !(map_map dev_id (fun i => Dtu _ i)).
    rewrite <- !(map_map dev_id (fun i => Micro _ i)).
    rewrite Hd1, Hm1, Hd2, Hm2. reflexivity. }
  assert (Hrun : async_update_data E t w = cycle_of E fetches w).
  { rewrite cycle_follows_plan, Hplan. unfold cycle_of, try_except.
    rewrite (bind_ext (renew_token E) _
               (fun _ => bind (fetch_all E fetches)
                              (fun results => ret (publish results))) w);
      [reflexivity |].
    intros _ w0. rewrite visits_are_fetches. unfold bind.
    destruct (fetch_all E fetches w0) as [[results | e] w1] eqn:Hres;
      [| reflexivity].
    apply fetch_all_entities in Hres.
    unfold ret. rewrite store_all_fresh; [reflexivity |].
    rewrite Hres. exact Hnd. }
  split; [exact Hplan |]. split; [exact Hrun |].
  intros data w'. rewrite Hrun. unfold cycle_of, try_except.
  unfold bind at 1.
  destruct (renew_token E w) as [[[] | e] w0] eqn:H0; [| discriminate].
  unfold fetches. cbn [fetch_all perform entity]. unfold bind, ret, raise.
  destruct (get_real_time_data_station E s1 w0) as [[p1 | e] w1] eqn:H1;
    [| discriminate].
  destruct (get_real_time_data_dtu E s1 d1 w1) as [[p2 | e] w2] eqn:H2;
    [| discriminate].
  destruct (get_real_time_data_microinverter E s1 m11 w2) as [[p3 | e] w3] eqn:H3;
    [| discriminate].
  destruct (get_real_time_data_microinverter E s1 m12 w3) as [[p4 | e] w4] eqn:H4;
    [| discriminate].
  destruct (get_real_time_data_station E s2 w4) as [[p5 | e] w5] eqn:H5;
    [| discriminate].
  destruct (get_real_time_data_dtu E s2 d2 w5) as [[p6 | e] w6] eqn:H6;
    [| discriminate].
  destruct (get_real_time_data_microinverter E s2 m21 w6) as [[p7 | e] w7] eqn:H7;
    [| discriminate].
  destruct (get_real_time_data_microinverter E s2 m22 w7) as [[p8 | e] w8] eqn:H8;
    [| discriminate].
  intros H. injection H as <- <-.
  exists w0, w1, w2, w3, w4, w5, w6, w7, p1, p2, p3, p4, p5, p6, p7, p8.
  repeat (split; [first [assumption | reflexivity] |]). reflexivity.
Qed.

End TwoSites.

Lemma two_site_cycle_makes_eight_fetches_witness :
  let E := sample_env good_service in
  let t := two_sites "7" "8" "70" "80" "700" "701" "800" "801" in
  let w := session_at 2000 in
  let station := VDict [("real_time_data", VDict [("real_power", VStr "412.5")])] in
  let micro := VDict [("real_time_data", VDict [("power", VInt 5)])] in
  published (fst (refresh E t earlier_snapshot w))
  = [("7", station);
     ("70", VDict [("real_time_data",
                    VDict [("a", VInt 1); ("b", VInt 2);
                           ("warn_data", VDict [("connect", VBool true)]);
                           ("model_no", VStr "DTU-Pro")])]);
     ("700", micro); ("701", micro);
     ("8", station);
     ("80", VDict [("real_time_data", VDict [("a", VInt 1); ("b", VInt 2)])]);
     ("800", micro); ("801", micro)]
  /\ map url (issued w (snd (refresh E t earlier_snapshot w)))
     = [API_REAL_TIME_DATA_URL; API_DTU_DETAIL_URL; API_DTU_URL;
        API_MICRO_DETAIL_URL; API_MICRO_DETAIL_URL;
        API_REAL_TIME_DATA_URL; API_DTU_DETAIL_URL; API_DTU_URL;
        API_MICRO_DETAIL_URL; API_MICRO_DETAIL_URL].
Proof.
  cbv zeta. split; [| vm_compute; reflexivity].
  assert (Hnd : NoDup ["7"; "70"; "700"; "701"; "8"; "80"; "800"; "801"]).
  { repeat (constructor; [cbn [In]; intuition discriminate |]). constructor. }
  destruct (proj2 (proj2 (two_site_cycle_makes_eight_fetches
                            (sample_env good_service)
                            (two_sites "7" "8" "70" "80" "700" "701" "800" "801")
                            "7" "8" "70" "80" "700" "701" "800" "801"
                            (session_at 2000)
                            eq_refl eq_refl eq_refl eq_refl eq_refl Hnd))
                  (published (fst (refresh (sample_env good_service)
                       (two_sites "7" "8" "70" "80" "700" "701" "800" "801")
                       earlier_snapshot (session_at 2000))))
                  (snd (async_update_data
                          (sample_env good_service)
                          (two_sites "7" "8" "70" "80" "700" "701" "800" "801")
                          (session_at 2000)))
                  ltac:(vm_compute; reflexivity))
    as (w0 & w1 & w2 & w3 & w4 & w5 & w6 & w7
        & p1 & p2 & p3 & p4 & p5 & p6 & p7 & p8
        & H0 & H1 & H2 & H3 & H4 & H5 & H6 & H7 & H8 & Hdata).
  rewrite Hdata. clear Hdata.
  vm_compute in H0. injection H0 as <-.
  vm_compute in H1. injection H1 as <- <-.
  vm_compute in H2. injection H2 as <- <-.
  vm_compute in H3. injection H3 as <- <-.
  vm_compute in H4. injection H4 as <- <-.
  vm_compute in H5. injection H5 as <- <-.
  vm_compute in H6. injection H6 as <- <-.
  vm_compute in H7. injection H7 as <- <-.
  vm_compute in H8. injection H8 as <-.
  reflexivity.
Defined.

(* ===================================================================== *)
(** ** Further properties of the client *)
(* ===================================================================== *)

Section TokenUse.

Variable E : environment.











End TokenUse.


Section Answers.

Variable E : environment.

Lemma is_int_ok (s : string) : is_int s = true -> exists n, py_int s = Ok n.
Proof.
  unfold is_int. destruct (py_int s) as [n | e]; [eauto | discriminate].
Qed.

Local Ltac not_login :=
  let H := fresh in intro H; vm_compute in H; discriminate H.

(** Brings a call with a stored token to its first request. *)
Local Ltac enter_call c Ht Hlog Hids :=
  destruct c;
  cbn [outcome after nothing call_ids logs_token forallb] in *;
  repeat rewrite andb_true_r in Hids;
  repeat match type of Hids with
         | (_ && _) = true =>
             let H1 := fresh "Hid" in
             apply andb_true_iff in Hids; destruct Hids as [H1 Hids]
         end;
  repeat match goal with
         | H : is_int ?s = true |- _ =>
             let n := fresh "n" in
             let Hn := fresh "Hn" in
             destruct (is_int_ok s H) as [n Hn]; clear H
         end;
  unfold get_stations, get_dtus, get_microinverters, list_devices,
    get_real_time_data_station, get_real_time_data_dtu,
    get_real_time_data_microinverter;
  rewrite !guard_skips by exact Ht;
  unfold bind, get_self, lift, ret; cbv zeta;
  repeat match goal with
         | H : py_int _ = Ok _ |- _ => rewrite !H; clear H
         end;
  try (rewrite !(Hlog eq_refl)).

(** X3.  With a token stored and identifiers [int()] reads, a
    well-formed refusal of the request for data is not an error: the
    call returns an empty [dict] -- the two device listings as well,
    which return a list otherwise -- having made that one request. *)
Theorem refused_call_returns_nothing (c : call) (w : world) :
  truthy (_token (self w)) = true ->
  (logs_token c = true -> token_prefix (_token (self w)) = Ok tt) ->
  forallb is_int (call_ids c) = true ->
  (forall r, carries (_token (self w)) r ->
             exists resp, server E (sent w) r = Json resp
                          /\ is_success resp = Ok false) ->
  outcome E c w = Ok (nothing c)
  /\ exists r, sent (after E c w) = (sent w ++ [r])%list.
Proof.
  intros Ht Hlog Hids Hsrv.
  enter_call c Ht Hlog Hids;
    unfold post;
    match goal with
    | |- context [server E (sent w) ?r] =>
        let resp := fresh "resp" in
        let Hs := fresh "Hs" in
        let Hok := fresh "Hok" in
        destruct (Hsrv r) as (resp & Hs & Hok);
        [ split; [not_login | reflexivity] | rewrite !Hs, !Hok ]
    end;
    (split; [reflexivity | eexists; reflexivity]).
Qed.


(** X5.  An identifier that [int()] does not accept makes the call raise
    [ValueError] before any request is made. *)
Theorem bad_identifier_raises_before_request (c : call) (w : world) :
  truthy (_token (self w)) = true ->
  forallb is_int (call_ids c) = false ->
  outcome E c w = Raise ValueError
  /\ sent (after E c w) = sent w.
Proof.
  intros Ht Hids.
  assert (Hint : forall s, is_int s = false -> py_int s = Raise ValueError).
  { intros s. unfold is_int, py_int.
    destruct (take_sign _) as [neg l].
    destruct (digitpart l) as [[ds [| c0 r]] |];
      try destruct (int_max_str_digits <? List.length ds)%nat;
      intros H; try discriminate H; reflexivity. }
  destruct c; cbn [outcome after call_ids forallb] in *;
    rewrite ?andb_true_r in Hids; try discriminate Hids;
    unfold get_stations, get_dtus, get_microinverters, list_devices,
      get_real_time_data_station, get_real_time_data_dtu,
      get_real_time_data_microinverter;
    rewrite !guard_skips by exact Ht;
    unfold bind, get_self, lift, ret; cbv zeta;
    try (apply Hint in Hids; rewrite !Hids; split; reflexivity).
  - apply andb_false_iff in Hids. destruct Hids as [Hi | Hs].
    + rewrite !(Hint _ Hi). split; reflexivity.
    + rewrite !(Hint _ Hs).
      destruct (is_int dtu_id) eqn:Hd;
        [destruct (is_int_ok _ Hd) as [n ->] | rewrite (Hint _ Hd)];
        split; reflexivity.
  - apply andb_false_iff in Hids. destruct Hids as [Hi | Hs].
    + rewrite !(Hint _ Hi). split; reflexivity.
    + rewrite !(Hint _ Hs).
      destruct (is_int microinverter_id) eqn:Hd;
        [destruct (is_int_ok _ Hd) as [n ->] | rewrite (Hint _ Hd)];
        split; reflexivity.
Qed.

(** X29.  The two ways of reading an answer.  [authenticate] asks the
    answer for its JSON: one that is not declared as JSON makes it
    raise [ContentTypeError], whatever the body.  The listing and
    telemetry calls read the text and parse it: such an answer is taken
    by its body, a refusal in it being a refusal, and a body that is not
    JSON a [JSONDecodeError].  An answer that does not come in time
    makes either raise the [TimeoutError] of the transport.  A call that
    raises so has made one request. *)
Theorem late_and_undeclared_answers (c : call) (w : world) :
  (forall body,
      server E (sent w) (auth_request E (self w)) = Mistyped body ->
      authenticate E w
      = (Raise ContentTypeError, posted E w (auth_request E (self w))))
  /\ (server E (sent w) (auth_request E (self w)) = TimedOut ->
      authenticate E w
      = (Raise TimeoutError, posted E w (auth_request E (self w))))
  /\ (truthy (_token (self w)) = true ->
      (logs_token c = true -> token_prefix (_token (self w)) = Ok tt) ->
      forallb is_int (call_ids c) = true ->
      (forall answer e,
          (answer = TimedOut /\ e = TimeoutError
           \/ answer = Mistyped None /\ e = JSONDecodeError) ->
          (forall r, carries (_token (self w)) r -> server E (sent w) r = answer) ->
          outcome E c w = Raise e
          /\ exists r, sent (after E c w) = (sent w ++ [r])%list)
      /\ ((forall r, carries (_token (self w)) r ->
                     exists resp, server E (sent w) r = Mistyped (Some resp)
                                  /\ is_success resp = Ok false) ->
          outcome E c w = Ok (nothing c))).
Proof.
  split; [| split].
  - intros body Hs. rewrite authenticate_unfold. cbv zeta. rewrite Hs. reflexivity.
  - intros Hs. rewrite authenticate_unfold. cbv zeta. rewrite Hs. reflexivity.
  - intros Ht Hlog Hids. split.
    + intros answer e Hans Hsrv.
      enter_call c Ht Hlog Hids;
        unfold post;
        match goal with
        | |- context [server E (sent w) ?r] =>
            rewrite !(Hsrv r) by (split; [not_login | reflexivity])
        end;
        destruct Hans as [[-> ->] | [-> ->]];
        (split; [reflexivity | eexists; reflexivity]).
    + intros Hsrv.
      enter_call c Ht Hlog Hids;
        unfold post;
        match goal with
        | |- context [server E (sent w) ?r] =>
            let resp := fresh "resp" in
            let Hs := fresh "Hs" in
            let Hok := fresh "Hok" in
            destruct (Hsrv r) as (resp & Hs & Hok);
            [ split; [not_login | reflexivity] | rewrite !Hs, !Hok ]
        end;
        reflexivity.
Qed.

End Answers.

Lemma refused_call_returns_nothing_witness :
  let E := sample_env refusing_service in
  outcome E (GetDtus "7") (session_at 9000) = Ok (RDevices EmptyDict)
  /\ exists r, sent (after E (GetDtus "7") (session_at 9000)) = [r].
Proof.
  apply (refused_call_returns_nothing
           (sample_env refusing_service) (GetDtus "7") (session_at 9000)).
  - reflexivity.
  - intros _. reflexivity.
  - reflexivity.
  - intros r _. cbn [server sample_env]. unfold refusing_service, by_url.
    cbn [dict_get].
    destruct (String.eqb API_AUTH_URL (url r)); eexists; split; reflexivity.
Defined.


Lemma bad_identifier_raises_before_request_witness :
  let E := sample_env good_service in
  outcome E (GetDtus "None") (session_at 2000) = Raise ValueError
  /\ sent (after E (GetDtus "None") (session_at 2000)) = [].
Proof.
  exact (bad_identifier_raises_before_request
           (sample_env good_service) (GetDtus "None") (session_at 2000)
           eq_refl eq_refl).
Defined.

Lemma late_and_undeclared_answers_witness :
  let E := sample_env stalled_service in
  let w := session_at 2000 in
  authenticate E w = (Raise TimeoutError, posted E w (auth_request E (self w)))
  /\ outcome E (GetDtus "7") w = Raise TimeoutError
  /\ exists r, sent (after E (GetDtus "7") w) = [r].
Proof.
  intros E w.
  destruct (late_and_undeclared_answers E (GetDtus "7") w) as (_ & Hlogin & Hcall).
  split; [apply Hlogin; reflexivity |].
  apply (proj1 (Hcall eq_refl (fun _ => eq_refl) eq_refl) TimedOut TimeoutError).
  - left. split; reflexivity.
  - intros r _. reflexivity.
Defined.

Section Listings.

Variable E : environment.

Lemma dict_set_keys {V} (d : dict V) (k : string) (v : V) :
  keys (dict_set d k v) = if in_dec string_dec k (keys d) then keys d
                          else (keys d ++ [k])%list.
Proof.
  induction d as [| [k0 v0] d IH]; cbn [dict_set keys map fst].
  - reflexivity.
  - destruct (String.eqb_spec k0 k) as [-> | Hne]; cbn [map fst].
    + destruct (in_dec string_dec k (k :: map fst d)) as [_ | Hn];
        [reflexivity | exfalso; apply Hn; left; reflexivity].
    + fold (keys (dict_set d k v)). rewrite IH. fold (keys d).
      destruct (in_dec string_dec k (keys d)) as [Hin | Hnin];
        destruct (in_dec string_dec k (k0 :: keys d)) as [Hin' | Hnin'];
        try reflexivity.
      * exfalso. apply Hnin'. right. exact Hin.
      * exfalso. destruct Hin' as [Heq | Hin']; [congruence | contradiction].
Qed.

Lemma dict_set_nodup {V} (d : dict V) (k : string) (v : V) :
  NoDup (keys d) -> NoDup (keys (dict_set d k v)).
Proof.
  intros Hnd. rewrite dict_set_keys.
  destruct (in_dec string_dec k (keys d)) as [Hin | Hnin]; [exact Hnd |].
  apply NoDup_app; [exact Hnd | repeat constructor; intros [] | ].
  intros x Hx [<- | []]. contradiction.
Qed.

(** The loop of [get_stations] over a listing of objects. *)
Lemma stations_loop (entries : list value) :
  forallb is_dict entries = true ->
  forall d,
    rfold (fun stations station =>
             station_id <~ py_get station "id" VNone ;;
             station_name <~ py_get station "name" VNone ;;
             Ok (dict_set stations (py_str E station_id) station_name))
          entries d
    = Ok (fold_left (fun stations e =>
                       dict_set stations (py_str E (field e "id")) (field e "name"))
                    entries d).
Proof.
  induction entries as [| x l IH]; intros Hd d.
  - reflexivity.
  - cbn [forallb] in Hd. apply andb_true_iff in Hd. destruct Hd as [Hx Hl].
    destruct x as [| | | | | | e]; try discriminate.
    cbn [rfold fold_left py_get rbind]. unfold field. cbn [py_get].
    apply IH, Hl.
Qed.

Lemma last_station_cons (k : string) (x : value) (l : list value) :
  last_station E k (x :: l) =
  match last_station E k l with
  | Some e => Some e
  | None => if String.eqb (py_str E (field x "id")) k then Some x else None
  end.
Proof.
  unfold last_station. cbn [rev].
  induction (rev l) as [| y r IH]; cbn [app find].
  - reflexivity.
  - destruct (String.eqb (py_str E (field y "id")) k); [reflexivity | exact IH].
Qed.

Lemma stations_fold_get (entries : list value) (k : string) :
  forall d,
    dict_get (fold_left (fun stations e =>
                           dict_set stations (py_str E (field e "id")) (field e "name"))
                        entries d) k
    = match last_station E k entries with
      | Some e => Some (field e "name")
      | None => dict_get d k
      end.
Proof.
  induction entries as [| x l IH]; intros d.
  - reflexivity.
  - cbn [fold_left]. rewrite IH, last_station_cons.
    destruct (last_station E k l); [reflexivity |].
    rewrite dict_get_set.
    destruct (String.eqb (py_str E (field x "id")) k); reflexivity.
Qed.

Lemma stations_fold_nodup (entries : list value) :
  forall d,
    NoDup (keys d) ->
    NoDup (keys (fold_left (fun stations e =>
                              dict_set stations (py_str E (field e "id"))
                                       (field e "name"))
                           entries d)).
Proof.
  induction entries as [| x l IH]; intros d Hd.
  - exact Hd.
  - cbn [fold_left]. apply IH, dict_set_nodup, Hd.
Qed.

(** X6.  When the listing of stations is accepted, [get_stations]
    returns a dictionary without repeated keys in which an identifier,
    read as a string, leads to the name of the last entry bearing it,
    and to nothing when no entry bears it. *)
Theorem stations_are_keyed_by_identifier
  (w : world) (resp : value) (entries : list value) :
  truthy (_token (self w)) = true ->
  token_prefix (_token (self w)) = Ok tt ->
  server E (sent w) (stations_request (_token (self w))) = Json resp ->
  is_success resp = Ok true ->
  data_list resp = Ok entries ->
  forallb is_dict entries = true ->
  exists stations,
    fst (get_stations E w) = Ok stations
    /\ NoDup (keys stations)
    /\ forall k, dict_get stations k =
                 option_map (fun e => field e "name") (last_station E k entries).
Proof.
  intros Ht Hlog Hs Hok Hlist Hd.
  eexists. split; [| split].
  - unfold get_stations. rewrite guard_skips by exact Ht.
    unfold bind, get_self, lift, ret, post. cbv zeta.
    rewrite Hlog. unfold stations_request in Hs. rewrite Hs, Hok, Hlist.
    cbn [fst]. apply stations_loop, Hd.
  - apply stations_fold_nodup. constructor.
  - intros k. rewrite stations_fold_get.
    destruct (last_station E k entries); reflexivity.
Qed.

(** The loop of the device listings: one record per entry, unless an
    entry is not an object, on which [.get] raises. *)
Lemma devices_loop (name_field : string) (entries : list value) :
  forall l,
    rfold (fun found dev =>
             i <~ py_get dev "id" VNone ;;
             n <~ py_get dev name_field VNone ;;
             Ok (found ++ [{| dev_id := py_str E i; dev_name := n |}])%list)
          entries l
    = if forallb is_dict entries
      then Ok (l ++ map (device_of E name_field) entries)%list
      else Raise AttributeError.
Proof.
  induction entries as [| x r IH]; intros l.
  - cbn. rewrite app_nil_r. reflexivity.
  - destruct x as [| | | | | | e]; try reflexivity.
    cbn [rfold py_get rbind map forallb is_dict andb]. rewrite IH.
    destruct (forallb is_dict r); [| reflexivity].
    rewrite <- app_assoc. reflexivity.
Qed.

Lemma list_devices_accepted
  (u name_field station_id : string) (sid : Z) (w : world)
  (resp : value) (entries : list value) :
  truthy (_token (self w)) = true ->
  token_prefix (_token (self w)) = Ok tt ->
  py_int station_id = Ok sid ->
  server E (sent w) (devices_request u (_token (self w)) sid) = Json resp ->
  is_success resp = Ok true ->
  data_list resp = Ok entries ->
  fst (list_devices E u name_field station_id w)
  = if forallb is_dict entries
    then Ok (DeviceList (map (device_of E name_field) entries))
    else Raise AttributeError.
Proof.
  intros Ht Hlog Hsid Hs Hok Hlist.
  unfold list_devices. rewrite guard_skips by exact Ht.
  unfold bind, get_self, lift, ret, post. cbv zeta.
  rewrite Hsid, Hlog. unfold devices_request in Hs. rewrite Hs, Hok, Hlist.
  cbn [fst]. rewrite devices_loop.
  destruct (forallb is_dict entries); reflexivity.
Qed.

(** X7.  When a device listing is accepted and every entry of it is an
    object, [get_dtus] and [get_microinverters] return one record per
    entry, in the order of the listing and with repeated entries kept:
    the identifier read as a string, and as name the field [model_no],
    respectively [init_hard_no].  A single entry that is not an object
    makes them raise [AttributeError] instead. *)
Theorem device_listings_keep_order
  (station_id : string) (sid : Z) (w : world)
  (resp : value) (entries : list value) :
  truthy (_token (self w)) = true ->
  token_prefix (_token (self w)) = Ok tt ->
  py_int station_id = Ok sid ->
  is_success resp = Ok true ->
  data_list resp = Ok entries ->
  (server E (sent w) (devices_request API_DTU_URL (_token (self w)) sid) = Json resp ->
   fst (get_dtus E station_id w)
   = if forallb is_dict entries
     then Ok (DeviceList (map (device_of E "model_no") entries))
     else Raise AttributeError)
  /\ (server E (sent w)
             (devices_request API_MICROINVERTERS_URL (_token (self w)) sid) = Json resp ->
      fst (get_microinverters E station_id w)
      = if forallb is_dict entries
        then Ok (DeviceList (map (device_of E "init_hard_no") entries))
        else Raise AttributeError).
Proof.
  intros Ht Hlog Hsid Hok Hlist.
  split; intros Hs; eapply list_devices_accepted; eassumption.
Qed.

(** The loop over the concentrator listing when no entry is the one of
    [dtu_id]. *)
Lemma patch_loop_without_match (dtu_id : string) (entries : list value) :
  last_match E dtu_id entries = None ->
  forall data,
    rfold (patch_dtu E dtu_id) entries data
    = if forallb is_dict entries then Ok data else Raise AttributeError.
Proof.
  induction entries as [| x l IH]; intros Hlast data.
  - reflexivity.
  - rewrite last_match_cons in Hlast.
    destruct (last_match E dtu_id l) as [e' |] eqn:Hl'; [discriminate |].
    destruct (matches E dtu_id x) eqn:Hm; [discriminate |].
    destruct x as [| | | | | | e]; try reflexivity.
    cbn [rfold forallb is_dict andb]. unfold patch_dtu at 1. unfold matches in Hm.
    cbn [py_get rbind] in *. rewrite Hm. cbn [rbind].
    apply IH. reflexivity.
Qed.

(** X8.  Once the detail request of a concentrator is accepted, the
    fetch returns what it gave, untouched and whatever its type, when
    the listing is refused, and when the listing is accepted, made of
    objects, and has no entry of this concentrator.  A listing without
    an entry of the concentrator but with an entry that is not an
    object makes the fetch raise [AttributeError]. *)
Theorem dtu_fetch_without_listing_entry
  (station_id dtu_id : string) (i sid : Z) (w : world)
  (resp1 resp2 data : value) :
  truthy (_token (self w)) = true ->
  py_int dtu_id = Ok i ->
  py_int station_id = Ok sid ->
  server E (sent w) (dtu_detail_request (_token (self w)) i sid) = Json resp1 ->
  is_success resp1 = Ok true ->
  py_get resp1 "data" (VDict []) = Ok data ->
  server E (sent w ++ [dtu_detail_request (_token (self w)) i sid])
         (dtu_listing_request (_token (self w)) sid) = Json resp2 ->
  (is_success resp2 = Ok false ->
   fst (get_real_time_data_dtu E station_id dtu_id w) = Ok data)
  /\ (forall entries,
        is_success resp2 = Ok true ->
        data_list resp2 = Ok entries ->
        last_match E dtu_id entries = None ->
        fst (get_real_time_data_dtu E station_id dtu_id w)
        = if forallb is_dict entries then Ok data else Raise AttributeError).
Proof.
  intros Ht Hi Hsid Hs1 Hok1 Hdata Hs2.
  unfold get_real_time_data_dtu. rewrite guard_skips by exact Ht.
  unfold bind, get_self, lift, post, ret. cbv zeta.
  rewrite Hi, Hsid.
  unfold dtu_detail_request in Hs1, Hs2. rewrite Hs1, Hok1, Hdata.
  cbn [sent]. unfold dtu_listing_request in Hs2. rewrite Hs2.
  split.
  - intros Hok2. rewrite Hok2. reflexivity.
  - intros entries Hok2 Hlist Hlast. rewrite Hok2, Hlist. cbn [fst].
    apply patch_loop_without_match, Hlast.
Qed.

(** X9.  [authenticate] makes exactly one request whatever comes of it:
    to the login address, without an [Authorization] header, naming the
    user and giving the MD5 digest of the password. *)
Theorem authenticate_makes_one_request (w : world) :
  exists r,
    sent (snd (authenticate E w)) = (sent w ++ [r])%list
    /\ url r = API_AUTH_URL
    /\ dict_get (headers r) "Authorization" = None
    /\ json r = [("user_name", VStr (_username (self w)));
                 ("password", VStr (md5_hexdigest E (_password (self w))))].
Proof.
  exists (auth_request E (self w)).
  split; [apply authenticate_sent |]. repeat split.
Qed.

(** X10.  The credentials given to the constructor are never changed,
    neither by an authentication nor by a listing or telemetry call. *)
Theorem credentials_are_kept (w : world) :
  (_username (self (snd (authenticate E w))) = _username (self w)
   /\ _password (self (snd (authenticate E w))) = _password (self w))
  /\ forall c,
       _username (self (after E c w)) = _username (self w)
       /\ _password (self (after E c w)) = _password (self w).
Proof.
  set (P := fun s : HoymilesAPI =>
              _username s = _username (self w)
              /\ _password s = _password (self w)).
  assert (Hauth : forall w0, P (self w0) -> P (self (snd (authenticate E w0)))).
  { intros w0 H0. rewrite authenticate_unfold. cbv zeta.
    destruct (server E (sent w0) _) as [| | resp | | body]; try exact H0.
    destruct (is_success resp) as [[|] | e]; try exact H0.
    destruct (login_token resp) as [token | e]; exact H0. }
  split.
  - apply (Hauth w). split; reflexivity.
  - intros c. apply (call_keeps E P Hauth c w). split; reflexivity.
Qed.

End Listings.

Lemma stations_are_keyed_by_identifier_witness :
  let E := sample_env odd_service in
  exists stations,
    fst (get_stations E (session_at 2000)) = Ok stations
    /\ NoDup (keys stations)
    /\ forall k, dict_get stations k =
                 option_map (fun e => field e "name") (last_station E k odd_stations).
Proof.
  exact (stations_are_keyed_by_identifier
           (sample_env odd_service) (session_at 2000)
           (envelope "0" "success" (listing odd_stations)) odd_stations
           eq_refl eq_refl eq_refl eq_refl eq_refl eq_refl).
Defined.

Lemma device_listings_keep_order_witness :
  let E := sample_env good_service in
  fst (get_microinverters E "7" (session_at 2000))
  = Ok (DeviceList [{| dev_id := "700"; dev_name := VStr "HM-1" |};
                    {| dev_id := "701"; dev_name := VStr "HM-2" |}])
  /\ fst (get_dtus (sample_env (listing_service ragged_listing)) "7"
                   (session_at 2000))
     = Raise AttributeError.
Proof.
  split.
  - exact (proj2 (device_listings_keep_order
                    (sample_env good_service) "7" 7 (session_at 2000)
                    (envelope "0" "success"
                       (listing [VDict [("id", VInt 700); ("init_hard_no", VStr "HM-1")];
                                 VDict [("id", VInt 701); ("init_hard_no", VStr "HM-2")]]))
                    [VDict [("id", VInt 700); ("init_hard_no", VStr "HM-1")];
                     VDict [("id", VInt 701); ("init_hard_no", VStr "HM-2")]]
                    eq_refl eq_refl eq_refl eq_refl eq_refl)
                 eq_refl).
  - exact (proj1 (device_listings_keep_order
                    (sample_env (listing_service ragged_listing)) "7" 7
                    (session_at 2000)
                    (envelope "0" "success" (listing ragged_listing))
                    ragged_listing
                    eq_refl eq_refl eq_refl eq_refl eq_refl)
                 eq_refl).
Defined.

Lemma dtu_fetch_without_listing_entry_witness :
  fst (get_real_time_data_dtu (sample_env odd_service) "7" "70" (session_at 2000))
  = Ok (VStr "n/a")
  /\ fst (get_real_time_data_dtu (sample_env (listing_service [VNone])) "7" "70"
                                 (session_at 2000))
     = Raise AttributeError.
Proof.
  split.
  - exact (proj2 (dtu_fetch_without_listing_entry
                    (sample_env odd_service) "7" "70" 70 7 (session_at 2000)
                    (envelope "0" "success" (VStr "n/a"))
                    (envelope "0" "success" (listing []))
                    (VStr "n/a")
                    eq_refl eq_refl eq_refl eq_refl eq_refl eq_refl eq_refl)
                 [] eq_refl eq_refl eq_refl).
  - exact (proj2 (dtu_fetch_without_listing_entry
                    (sample_env (listing_service [VNone])) "7" "70" 70 7
                    (session_at 2000)
                    (envelope "0" "success" (VDict [("a", VInt 1); ("b", VInt 2)]))
                    (envelope "0" "success" (listing [VNone]))
                    (VDict [("a", VInt 1); ("b", VInt 2)])
                    eq_refl eq_refl eq_refl eq_refl eq_refl eq_refl eq_refl)
                 [VNone] eq_refl eq_refl eq_refl).
Defined.

(* ===================================================================== *)
(** ** What can be raised *)
(* ===================================================================== *)

Section Raising.

Variable E : environment.
Variable P : exn -> bool.

Lemma may_raise_ok {A} (a : A) : may_raise P (Ok a).
Proof. intros e H. discriminate H. Qed.

Lemma may_raise_one {A} (e : exn) : P e = true -> may_raise P (@Raise A e).
Proof. intros H e' H'. injection H' as <-. exact H. Qed.

Lemma may_raise_bind {A B} (r : result A) (k : A -> result B) :
  may_raise P r -> (forall a, may_raise P (k a)) -> may_raise P (rbind r k).
Proof.
  intros Hr Hk e. destruct r as [a | e0]; cbn [rbind].
  - apply Hk.
  - intros H. injection H as <-. apply Hr. reflexivity.
Qed.

Lemma may_raise_rfold {A B} (f : B -> A -> result B) (l : list A) :
  (forall b a, may_raise P (f b a)) -> forall b, may_raise P (rfold f l b).
Proof.
  intros Hf. induction l as [| a l IH]; intros b; cbn [rfold].
  - apply may_raise_ok.
  - apply may_raise_bind; [apply Hf | exact IH].
Qed.

Lemma may_raise_py_get (v : value) (k : string) (d : value) :
  P AttributeError = true -> may_raise P (py_get v k d).
Proof.
  intros H. destruct v; cbn [py_get];
    first [apply may_raise_ok | apply may_raise_one, H].
Qed.

Lemma may_raise_py_setitem (v : value) (k : string) (x : value) :
  P TypeError = true -> may_raise P (py_setitem v k x).
Proof.
  intros H. destruct v; cbn [py_setitem];
    first [apply may_raise_ok | apply may_raise_one, H].
Qed.

Lemma may_raise_py_iter (v : value) :
  P TypeError = true -> may_raise P (py_iter v).
Proof.
  intros H. destruct v; cbn [py_iter];
    first [apply may_raise_ok | apply may_raise_one, H].
Qed.

Lemma may_raise_py_int (s : string) :
  P ValueError = true -> may_raise P (py_int s).
Proof.
  intros H. unfold py_int. destruct (take_sign _) as [neg l].
  destruct (digitpart l) as [[ds [| c r]] |];
    try destruct (int_max_str_digits <? List.length ds)%nat;
    first [apply may_raise_ok | apply may_raise_one, H].
Qed.

Lemma may_raise_token_prefix (v : value) :
  P TypeError = true -> may_raise P (token_prefix v).
Proof.
  intros H. unfold token_prefix. destruct (truthy v); [| apply may_raise_ok].
  destruct v; cbn [py_slice20];
    first [apply may_raise_ok | apply may_raise_one, H].
Qed.

End Raising.

Section ClientErrors.

Variable E : environment.

Lemma raises_only_ret {A} (a : A) : raises_only (client_raise E) (ret a).
Proof. intros w e H. discriminate H. Qed.

Lemma raises_only_get_self : raises_only (client_raise E) get_self.
Proof. intros w e H. discriminate H. Qed.

Lemma raises_only_time_time : raises_only (client_raise E) time_time.
Proof. intros w e H. discriminate H. Qed.

Lemma raises_only_set_token (t : value) :
  raises_only (client_raise E) (set_token t).
Proof. intros w e H. discriminate H. Qed.

Lemma raises_only_set_token_expires_at (t : Q) :
  raises_only (client_raise E) (set_token_expires_at t).
Proof. intros w e H. discriminate H. Qed.

Lemma raises_only_lift {A} (r : result A) :
  may_raise is_data_error r -> raises_only (client_raise E) (lift r).
Proof. intros Hr w e H. left. apply Hr, H. Qed.

(** What a request raises is the transport's exception for it, or that
    its body is not JSON. *)
Lemma raises_only_post (u : string) (h d : dict value) :
  raises_only (client_raise E) (post E u h d).
Proof.
  intros w e. unfold post.
  destruct (server E (sent w) _) as [| | v | | [v |]] eqn:Hs; cbn [fst snd sent];
    intros H; try discriminate H; injection H as <-;
    first [ left; reflexivity
          | right; eexists _, _; split; [reflexivity |]; rewrite Hs; reflexivity ].
Qed.

Lemma raises_only_post_json (u : string) (h d : dict value) :
  raises_only (client_raise E) (post_json E u h d).
Proof.
  intros w e. unfold post_json.
  destruct (server E (sent w) _) as [| | v | | body] eqn:Hs; cbn [fst snd sent];
    intros H; try discriminate H; injection H as <-;
    first [ left; reflexivity
          | right; eexists _, _; split; [reflexivity |]; rewrite Hs; reflexivity ].
Qed.

Lemma raises_only_bind {A B} (m : M A) (k : A -> M B) :
  raises_only (client_raise E) m ->
  (forall a, raises_only (client_raise E) (k a)) ->
  raises_only (client_raise E) (bind m k).
Proof.
  intros Hm Hk w e. unfold bind.
  specialize (Hm w). destruct (m w) as [[a | e0] w1]; cbn [fst snd] in *.
  - apply Hk.
  - intros H. injection H as <-. apply Hm. reflexivity.
Qed.


Local Ltac client_steps :=
  repeat (cbv beta zeta;
          first [ apply raises_only_ret
                | apply raises_only_get_self
                | apply raises_only_time_time
                | apply raises_only_set_token
                | apply raises_only_set_token_expires_at
                | apply raises_only_post
                | apply raises_only_post_json
                | apply raises_only_lift
                | apply raises_only_bind; [| intro]
                | apply may_raise_ok
                | apply may_raise_py_get; reflexivity
                | apply may_raise_py_setitem; reflexivity
                | apply may_raise_py_iter; reflexivity
                | apply may_raise_py_int; reflexivity
                | apply may_raise_token_prefix; reflexivity
                | apply may_raise_rfold; intros
                | apply may_raise_bind; [| intro]
                | match goal with
                  | |- raises_only _ (if ?b then _ else _) => destruct b
                  | |- may_raise _ (if ?b then _ else _) => destruct b
                  end ]).

Lemma authenticate_raises_client_errors :
  raises_only (client_raise E) (authenticate E).
Proof. unfold authenticate. client_steps. Qed.

Lemma ensure_token_raises_client_errors :
  raises_only (client_raise E) (ensure_token E).
Proof.
  unfold ensure_token. client_steps.
Qed.

Lemma tag_raise {A} (f : A -> returned) (r : result A) (e : exn) :
  tag f r = Raise e -> r = Raise e.
Proof.
  destruct r; cbn [tag]; intros H; [discriminate H |].
  injection H as <-. reflexivity.
Qed.

Lemma calls_raise_client_errors (c : call) (w : world) (e : exn) :
  outcome E c w = Raise e -> client_raise E (after E c w) e.
Proof.
  destruct c; cbn [outcome after]; intros H; apply tag_raise in H;
    revert w e H;
    match goal with
    | |- forall w e, fst (?m w) = Raise e -> _ =>
        change (raises_only (client_raise E) m)
    end;
    unfold get_stations, get_dtus, get_microinverters, list_devices,
      get_real_time_data_station, get_real_time_data_dtu,
      get_real_time_data_microinverter, is_success, data_list, patch_dtu;
    (apply raises_only_bind; [apply ensure_token_raises_client_errors | intro]);
    client_steps.
Qed.

(** X11.  What [authenticate] or a listing or telemetry call raises is
    an exception of the data -- [ContentTypeError], [JSONDecodeError],
    [AttributeError], [TypeError] or [ValueError] -- or else it is what
    the transport raised for the last request the call made: the
    [ClientError] of a service that could not be reached, the
    [TimeoutError] of an answer that did not come.  The call raises
    nothing of its own besides. *)
Theorem client_raises_transport_or_shape_errors (w : world) (e : exn) :
  (fst (authenticate E w) = Raise e ->
   is_data_error e = true
   \/ raised_by_transport E (snd (authenticate E w)) e)
  /\ (forall c,
        outcome E c w = Raise e ->
        is_data_error e = true \/ raised_by_transport E (after E c w) e).
Proof.
  split.
  - exact (authenticate_raises_client_errors w e).
  - intros c. exact (calls_raise_client_errors c w e).
Qed.



End ClientErrors.

Lemma client_raises_transport_or_shape_errors_witness :
  let E := sample_env stalled_service in
  let w := session_at 2000 in
  outcome E (GetRealTimeDataStation "7") w = Raise TimeoutError
  /\ (is_data_error TimeoutError = true
      \/ raised_by_transport E (after E (GetRealTimeDataStation "7") w) TimeoutError).
Proof.
  intros E w. split; [vm_compute; reflexivity |].
  apply (proj2 (client_raises_transport_or_shape_errors E w TimeoutError)
               (GetRealTimeDataStation "7")).
  vm_compute. reflexivity.
Defined.


(* ===================================================================== *)
(** ** Set-up and the cycle, further *)
(* ===================================================================== *)

Section SetUp.

Variable E : environment.

(** X13.  [async_setup_entry] never raises; and unless authentication
    succeeds it gives up at once, the login being the only request it
    has made. *)
Theorem setup_never_raises (w : world) :
  (exists o, fst (async_setup_entry E w) = Ok o)
  /\ (fst (authenticate E w) <> Ok true ->
      async_setup_entry E w = (Ok None, snd (authenticate E w))).
Proof.
  unfold async_setup_entry, bind, try_except, ret. split.
  - destruct (authenticate E w) as [[[|] | e] w1]; cbn [negb];
      try (eexists; reflexivity).
    destruct (get_stations E w1) as [[[| st sts] | e] w2];
      try (eexists; reflexivity).
    destruct (discover E (st :: sts) w2) as [[t | e] w3]; eexists; reflexivity.
  - intros Hne.
    destruct (authenticate E w) as [[[|] | e] w1]; cbn [negb fst snd] in *;
      [contradiction Hne |..]; reflexivity.
Qed.

Lemma get_stations_nodup (w : world) (sts : dict value) :
  fst (get_stations E w) = Ok sts -> NoDup (keys sts).
Proof.
  unfold get_stations, bind, lift, ret, get_self.
  destruct (ensure_token E w) as [[[] | e] w1]; [| discriminate].
  cbv zeta. destruct (token_prefix _) as [[] | e]; [| discriminate].
  destruct (post E _ _ _ w1) as [[resp | e] w2]; [| discriminate].
  destruct (is_success resp) as [[|] | e]; try discriminate.
  - destruct (data_list resp) as [entries | e]; [| discriminate].
    cbn [fst].
    assert (Hloop : forall l d r,
               NoDup (keys d) ->
               rfold (fun stations station =>
                        station_id <~ py_get station "id" VNone ;;
                        station_name <~ py_get station "name" VNone ;;
                        Ok (dict_set stations (py_str E station_id) station_name))
                     l d = Ok r ->
               NoDup (keys r)).
    { induction l as [| x l IH]; intros d r Hd; cbn [rfold].
      - intros H. injection H as <-. exact Hd.
      - destruct (py_get x "id" VNone) as [i |]; [| discriminate].
        destruct (py_get x "name" VNone) as [n |]; [| discriminate].
        cbn [rbind]. apply IH, dict_set_nodup, Hd. }
    apply Hloop. constructor.
  - cbn [fst]. intros H. injection H as <-. constructor.
Qed.

Lemma keys_app {V} (d1 d2 : dict V) :
  keys (d1 ++ d2)%list = (keys d1 ++ keys d2)%list.
Proof. unfold keys. apply map_app. Qed.

(** The loop of set-up gives each station, in order, an entry in both
    maps. *)
Lemma discover_loop (l : list string) :
  forall t0 w t w',
    NoDup (keys (dtus t0) ++ l) ->
    keys (microinverters t0) = keys (dtus t0) ->
    foldM (fun t station_id =>
             bind (get_dtus E station_id) (fun ds =>
             bind (get_microinverters E station_id) (fun ms =>
             ret {| stations := stations t;
                    dtus := dict_set (dtus t) station_id ds;
                    microinverters := dict_set (microinverters t) station_id ms |})))
          l t0 w = (Ok t, w') ->
    stations t = stations t0
    /\ keys (dtus t) = (keys (dtus t0) ++ l)%list
    /\ keys (microinverters t) = (keys (dtus t0) ++ l)%list.
Proof.
  induction l as [| sid l IH]; intros t0 w t w' Hnd Hkeys; cbn [foldM].
  - unfold ret. intros H. injection H as <- _.
    rewrite app_nil_r. repeat split. exact Hkeys.
  - unfold bind at 1. unfold bind at 1.
    destruct (get_dtus E sid w) as [[ds | e] w1]; [| discriminate].
    unfold bind at 1.
    destruct (get_microinverters E sid w1) as [[ms | e] w2]; [| discriminate].
    unfold ret at 1. intros H.
    assert (Hfresh : ~ In sid (keys (dtus t0))).
    { intros Hin. apply NoDup_remove_2 in Hnd. apply Hnd.
      apply in_or_app. left. exact Hin. }
    apply IH in H; cbn [stations dtus microinverters] in *.
    + destruct H as (H1 & H2 & H3).
      rewrite dict_set_fresh, keys_app in H2, H3 by exact Hfresh.
      cbn [keys map fst] in H2, H3. rewrite <- app_assoc in H2, H3.
      repeat split; assumption.
    + rewrite dict_set_fresh, keys_app by exact Hfresh.
      cbn [keys map fst]. rewrite <- app_assoc. exact Hnd.
    + rewrite !dict_set_fresh, !keys_app by (rewrite ?Hkeys; exact Hfresh).
      rewrite Hkeys. reflexivity.
Qed.

(** X14.  The topology set-up hands to the cycle has at least one
    station, no station twice, and for every station, in the same order,
    an entry among the concentrators and one among the micro-inverters. *)
Theorem setup_lists_devices_for_every_station (w w' : world) (t : topology) :
  async_setup_entry E w = (Ok (Some t), w') ->
  stations t <> []
  /\ NoDup (keys (stations t))
  /\ keys (dtus t) = keys (stations t)
  /\ keys (microinverters t) = keys (stations t).
Proof.
  unfold async_setup_entry, bind, try_except, ret.
  destruct (authenticate E w) as [[[|] | e] w1]; cbn [negb]; try discriminate.
  destruct (get_stations E w1) as [[[| st sts] | e] w2] eqn:Hst; try discriminate.
  destruct (discover E (st :: sts) w2) as [[t1 | e] w3] eqn:Hdisc; try discriminate.
  intros H. injection H as <- _.
  assert (Hnd : NoDup (keys (st :: sts))).
  { apply (get_stations_nodup w1). rewrite Hst. reflexivity. }
  unfold discover in Hdisc.
  apply discover_loop in Hdisc; cbn [dtus microinverters stations keys map app] in *.
  - destruct Hdisc as (H1 & H2 & H3). rewrite H1.
    repeat split; try assumption. discriminate.
  - exact Hnd.
  - reflexivity.
Qed.

End SetUp.

Lemma setup_never_raises_witness :
  let E := sample_env refusing_service in
  let w := new_session 1000 in
  async_setup_entry E w = (Ok None, snd (authenticate E w)).
Proof.
  apply (proj2 (setup_never_raises (sample_env refusing_service) (new_session 1000))).
  vm_compute. discriminate.
Defined.

Lemma setup_lists_devices_for_every_station_witness :
  let E := sample_env good_service in
  let t := sample_topology in
  stations t <> []
  /\ NoDup (keys (stations t))
  /\ keys (dtus t) = keys (stations t)
  /\ keys (microinverters t) = keys (stations t).
Proof.
  apply (setup_lists_devices_for_every_station
           (sample_env good_service) (new_session 1000)
           (snd (async_setup_entry (sample_env good_service) (new_session 1000)))
           sample_topology).
  vm_compute. reflexivity.
Defined.

Section Snapshots.

Variable E : environment.

Lemma store_all_keys (results : list (string * value)) :
  forall data,
    NoDup (keys data) ->
    NoDup (keys (store_all data results))
    /\ forall k, In k (keys (store_all data results))
                 <-> In k (keys data) \/ In k (map fst results).
Proof.
  induction results as [| [k0 rt] results IH]; intros data Hnd.
  - cbn. split; [exact Hnd |]. intros k. tauto.
  - cbn [store_all fold_left fst snd map].
    change (fold_left _ results ?d) with (store_all d results).
    destruct (IH (dict_set data k0 (entry rt)) (dict_set_nodup _ _ _ Hnd))
      as [Hnd' Hin].
    split; [exact Hnd' |]. intros k. rewrite Hin, dict_set_keys.
    destruct (in_dec string_dec k0 (keys data)) as [Hk0 | Hk0].
    + cbn [In]. split; [tauto |].
      intros [H | [<- | H]]; tauto.
    + rewrite in_app_iff. cbn [In]. tauto.
Qed.

(** X15.  For any topology, the snapshot a cycle returns has no key
    twice and has as keys exactly the entities of its fetches: every
    station of the topology and every device listed under a station. *)
Theorem snapshot_keys_are_the_entities
  (t : topology) (w w' : world) (data : snapshot) :
  async_update_data E t w = (Ok data, w') ->
  NoDup (keys data)
  /\ forall k, In k (keys data) <-> In k (map entity (plan t)).
Proof.
  rewrite cycle_follows_plan. unfold try_except.
  unfold bind at 1.
  destruct (renew_token E w) as [[[] | e] w0]; [| discriminate].
  rewrite visits_are_fetches. unfold bind, ret.
  destruct (fetch_all E (plan t) w0) as [[results | e] w1] eqn:Hres;
    [| discriminate].
  intros H. injection H as <- _.
  apply fetch_all_entities in Hres.
  destruct (store_all_keys results [] (NoDup_nil _)) as [Hnd Hin].
  split; [exact Hnd |]. intros k. rewrite Hin, Hres. cbn [keys map In]. tauto.
Qed.




End Snapshots.

Lemma snapshot_keys_are_the_entities_witness :
  let E := sample_env good_service in
  let data := published (fst (refresh E sample_topology earlier_snapshot
                                      (session_at 2000))) in
  NoDup (keys data)
  /\ forall k, In k (keys data) <-> In k (map entity (plan sample_topology)).
Proof.
  apply (snapshot_keys_are_the_entities
           (sample_env good_service) sample_topology (session_at 2000)
           (snd (async_update_data (sample_env good_service) sample_topology
                                   (session_at 2000)))).
  vm_compute. reflexivity.
Defined.


(* ===================================================================== *)
(** ** Coercion, further *)
(* ===================================================================== *)

Section Defaults.

Import Sensor.

Lemma float_of_string_outcome (s : string) :
  (exists f, float_of_string s = Ok f) \/ float_of_string s = Raise ValueError.
Proof.
  unfold float_of_string.
  destruct (take_sign _) as [neg l1].
  destruct (is_word l1 "inf" || is_word l1 "infinity"); [left; eauto |].
  destruct (is_word l1 "nan"); [left; eauto |].
  destruct (scan_decimal _) as [[[sg p] k] |]; [left; eauto | right; reflexivity].
Qed.

(** A spelling of a missing reading is one [float()] turns down. *)
Lemma missing_string_is_no_float (s : string) :
  String.eqb s "-" || String.eqb s "" || String.eqb (str_strip s) "" = true ->
  float_of_string s = Raise ValueError.
Proof.
  intros Hg.
  destruct (float_of_string_outcome s) as [[f Hf] | H]; [| exact H].
  destruct (float_of_string_not_missing s f Hf) as (H1 & H2 & H3).
  rewrite H1, H2, H3 in Hg. discriminate Hg.
Qed.

Lemma float_coercion_unguarded (v : value) :
  safe_float_convert v = except_value_type (py_float v) (S754_zero false).
Proof.
  destruct v as [| b | n | f | s | l | d]; try reflexivity.
  unfold safe_float_convert, is_blank.
  cbn [is_none eq_str orb py_float].
  destruct (String.eqb s "-" || String.eqb s "") eqn:Hg1.
  - rewrite missing_string_is_no_float by (rewrite Hg1; reflexivity).
    reflexivity.
  - destruct (String.eqb (str_strip s) "") eqn:Hg2; [| reflexivity].
    rewrite missing_string_is_no_float by (rewrite Hg1, Hg2; reflexivity).
    reflexivity.
Qed.

Lemma int_coercion_unguarded (v : value) :
  safe_int_convert v = except_value_type (rbind (py_float v) int_of_float) 0.
Proof.
  destruct v as [| b | n | f | s | l | d]; try reflexivity;
    try (destruct b; reflexivity).
  unfold safe_int_convert, is_blank.
  cbn [is_none eq_str orb py_float].
  destruct (String.eqb s "-" || String.eqb s "") eqn:Hg1.
  - rewrite missing_string_is_no_float by (rewrite Hg1; reflexivity).
    reflexivity.
  - destruct (String.eqb (str_strip s) "") eqn:Hg2; [| reflexivity].
    rewrite missing_string_is_no_float by (rewrite Hg1, Hg2; reflexivity).
    reflexivity.
Qed.

(** X17.  The tests for missing readings at the head of the two
    coercions change nothing: on every input, [safe_float_convert] is
    [float()] and [safe_int_convert] is [int(float())], with [ValueError]
    and [TypeError] turned into zero. *)
Theorem coercions_are_float_with_default (v : value) :
  safe_float_convert v = except_value_type (py_float v) (S754_zero false)
  /\ safe_int_convert v = except_value_type (rbind (py_float v) int_of_float) 0.
Proof.
  split.
  - apply float_coercion_unguarded.
  - apply int_coercion_unguarded.
Qed.

(** What [float()] raises besides [ValueError] and [TypeError]. *)
Lemma py_float_raises (v : value) (e : exn) :
  py_float v = Raise e ->
  e = ValueError \/ e = TypeError
  \/ (e = OverflowError /\ exists n, v = VInt n).
Proof.
  destruct v as [| b | n | f | s | l | d]; cbn [py_float]; intros H;
    try discriminate H; try (injection H as <-; tauto).
  - unfold float_of_int in H.
    destruct (binary_normalize _ _ _ _ _); try discriminate H.
    injection H as <-. right. right. eauto.
  - destruct (float_of_string_outcome s) as [[f Hs] | Hs];
      rewrite Hs in H; [discriminate H |].
    injection H as <-. tauto.
Qed.

Lemma safe_int_convert_raises (v : value) (e : exn) :
  safe_int_convert v = Raise e -> e = OverflowError.
Proof.
  rewrite int_coercion_unguarded. unfold except_value_type.
  destruct (py_float v) as [f | e0] eqn:Hpf; cbn [rbind].
  - destruct f as [s | s | | s m ex]; cbn [int_of_float];
      intros H; try discriminate H; injection H as <-; reflexivity.
  - destruct (py_float_raises v e0 Hpf) as [-> | [-> | [-> _]]];
      intros H; try discriminate H.
    injection H as <-. reflexivity.
Qed.

Lemma safe_float_convert_raises (v : value) (e : exn) :
  safe_float_convert v = Raise e ->
  e = OverflowError /\ exists n, v = VInt n /\ float_of_int n = Raise OverflowError.
Proof.
  rewrite float_coercion_unguarded. unfold except_value_type.
  destruct (py_float v) as [f | e0] eqn:Hpf; [intros H; discriminate H |].
  destruct (py_float_raises v e0 Hpf) as [-> | [-> | [-> [n ->]]]];
    intros H; try discriminate H.
  injection H as <-. split; [reflexivity |].
  exists n. split; [reflexivity | exact Hpf].
Qed.

(** X18.  Neither coercion is total.  What they raise is
    [OverflowError] and nothing else; [safe_float_convert] does so only
    for an integer too large for a double. *)
Theorem coercions_raise_overflow_only (v : value) (e : exn) :
  (safe_int_convert v = Raise e -> e = OverflowError)
  /\ (safe_float_convert v = Raise e ->
      e = OverflowError
      /\ exists n, v = VInt n /\ float_of_int n = Raise OverflowError).
Proof.
  split.
  - apply safe_int_convert_raises.
  - apply safe_float_convert_raises.
Qed.

End Defaults.

Lemma coercions_raise_overflow_only_witness :
  Sensor.safe_float_convert (VInt (10 ^ 400)) = Raise OverflowError
  /\ exists n, VInt (10 ^ 400) = VInt n /\ float_of_int n = Raise OverflowError.
Proof.
  split; [vm_compute; reflexivity |].
  apply (proj2 (coercions_raise_overflow_only (VInt (10 ^ 400)) OverflowError)).
  vm_compute. reflexivity.
Defined.

Section ExactIntegers.

Import Sensor.

Lemma digits2_pos_bounds (m : positive) :
  2 ^ (Zpos (digits2_pos m) - 1) <= Zpos m < 2 ^ Zpos (digits2_pos m).
Proof.
  induction m as [p IH | p IH |]; cbn [digits2_pos].
  - rewrite Pos2Z.inj_succ.
    replace (Z.succ (Zpos (digits2_pos p)) - 1) with (Z.succ (Zpos (digits2_pos p) - 1))
      by lia.
    rewrite !Z.pow_succ_r by lia. lia.
  - rewrite Pos2Z.inj_succ.
    replace (Z.succ (Zpos (digits2_pos p)) - 1) with (Z.succ (Zpos (digits2_pos p) - 1))
      by lia.
    rewrite !Z.pow_succ_r by lia. lia.
  - cbn. lia.
Qed.

Lemma iter_xO_value (m k : positive) :
  Zpos (Pos.iter xO m k) = Zpos m * 2 ^ Zpos k.
Proof.
  induction k as [| k IH] using Pos.peano_ind.
  - cbn. lia.
  - rewrite Pos.iter_succ, Pos2Z.inj_succ, Z.pow_succ_r by lia.
    rewrite Pos2Z.inj_xO, IH. lia.
Qed.

Lemma iter_xO_digits (m k : positive) :
  digits2_pos (Pos.iter xO m k) = (digits2_pos m + k)%positive.
Proof.
  induction k as [| k IH] using Pos.peano_ind.
  - cbn. lia.
  - rewrite Pos.iter_succ. cbn [digits2_pos]. rewrite IH. lia.
Qed.

(** A mantissa of full width, within the exponent range, is kept. *)
Lemma binary_round_aux_exact (s : bool) (mz : positive) (ez : Z) :
  Zpos (digits2_pos mz) = 53 ->
  -1074 <= ez <= 971 ->
  binary_round_aux prec emax s (Zpos mz) ez loc_Exact = S754_finite s mz ez.
Proof.
  intros Hd He.
  assert (Hf : fexp prec emax (Zdigits2 (Zpos mz) + ez) - ez = 0).
  { unfold fexp, emin, prec, emax. cbn [Zdigits2]. rewrite Hd. lia. }
  unfold binary_round_aux, shr_fexp. rewrite Hf.
  cbn [shr shr_record_of_loc loc_of_shr_record shr_m round_nearest_even].
  rewrite Hf. cbn [shr shr_record_of_loc shr_m].
  replace (ez <=? emax - prec) with true; [reflexivity |].
  symmetry. apply Z.leb_le. unfold emax, prec. lia.
Qed.

Lemma int_of_rounded_pos (s : bool) (m : positive) :
  Zpos m < 2 ^ 53 ->
  int_of_float (binary_round prec emax s m 0)
  = Ok (if s then - Zpos m else Zpos m).
Proof.
  intros Hm.
  pose proof (digits2_pos_bounds m) as [Hlo Hhi].
  assert (Hd : Zpos (digits2_pos m) <= 53).
  { destruct (Z_le_gt_dec (Zpos (digits2_pos m)) 53) as [H | H]; [exact H |].
    exfalso.
    assert (2 ^ 53 <= 2 ^ (Zpos (digits2_pos m) - 1))
      by (apply Z.pow_le_mono_r; lia).
    lia. }
  unfold binary_round, shl_align.
  assert (Hfexp : fexp prec emax (Zpos (digits2_pos m) + 0)
                  = Zpos (digits2_pos m) - 53)
    by (unfold fexp, emin, prec, emax; lia).
  rewrite Hfexp.
  destruct (Zpos (digits2_pos m) - 53 - 0) as [| p | k] eqn:Hk; try lia.
  - assert (Hd53 : Zpos (digits2_pos m) = 53) by lia.
    replace (Zpos (digits2_pos m) - 53) with 0 by lia.
    rewrite binary_round_aux_exact by lia.
    cbn [int_of_float]. rewrite Z.pow_0_r, Z.mul_1_r. reflexivity.
  - rewrite binary_round_aux_exact.
    + replace (Zpos (digits2_pos m) - 53) with (Zneg k) by lia.
      cbn [int_of_float]. rewrite iter_xO_value.
      rewrite Z.div_mul by (apply Z.pow_nonzero; lia). reflexivity.
    + rewrite iter_xO_digits, Pos2Z.inj_add. lia.
    + lia.
Qed.

(** X19.  An integer of magnitude below [2^53] comes out of
    [safe_int_convert] as it went in; the bound cannot be moved past
    [2^53], whose successor comes out as [2^53]. *)
Theorem safe_int_convert_keeps_small_integers (n : Z) :
  Z.abs n < 2 ^ 53 ->
  safe_int_convert (VInt n) = Ok n
  /\ safe_int_convert (VInt (2 ^ 53 + 1)) = Ok (2 ^ 53).
Proof.
  intros Hn. split; [| vm_compute; reflexivity].
  unfold safe_int_convert. cbn [is_none eq_str orb is_blank py_float].
  unfold float_of_int, binary_normalize.
  destruct n as [| m | m]; [reflexivity | |].
  - assert (H := int_of_rounded_pos false m ltac:(cbn [Z.abs] in Hn; lia)).
    destruct (binary_round prec emax false m 0) as [s | s | | s mz ez];
      try discriminate H; cbn [rbind]; rewrite H; reflexivity.
  - assert (H := int_of_rounded_pos true m ltac:(cbn [Z.abs] in Hn; lia)).
    destruct (binary_round prec emax true m 0) as [s | s | | s mz ez];
      try discriminate H; cbn [rbind]; rewrite H; reflexivity.
Qed.

End ExactIntegers.

Lemma safe_int_convert_keeps_small_integers_witness :
  Sensor.safe_int_convert (VInt 22706) = Ok 22706.
Proof.
  apply (proj1 (safe_int_convert_keeps_small_integers 22706 ltac:(vm_compute; reflexivity))).
Defined.

(* ===================================================================== *)
(** ** sensor.py: what the entities show *)
(* ===================================================================== *)

Section Readings.

Variable utcoffset : datetime -> Z.

Lemma py_get_raises (v : value) (k : string) (d : value) (e : exn) :
  py_get v k d = Raise e -> e = AttributeError.
Proof.
  destruct v; cbn [py_get]; intros H; try discriminate H;
    injection H as <-; reflexivity.
Qed.

Lemma real_time_field_raises (k : string) (d data : value) (e : exn) :
  real_time_field k d data = Raise e -> e = AttributeError.
Proof.
  unfold real_time_field.
  destruct (py_get data "real_time_data" (VDict [])) as [rt | e0] eqn:H1;
    cbn [rbind]; intros H.
  - eapply py_get_raises, H.
  - injection H as <-. eapply py_get_raises, H1.
Qed.

Lemma reflux_field_raises (k : string) (d data : value) (e : exn) :
  reflux_field k d data = Raise e -> e = AttributeError.
Proof.
  unfold reflux_field.
  destruct (py_get data "real_time_data" (VDict [])) as [rt | e0] eqn:H1;
    cbn [rbind]; [| intros H; injection H as <-; eapply py_get_raises, H1].
  destruct (py_get rt "reflux_station_data" (VDict [])) as [rf | e0] eqn:H2;
    cbn [rbind]; intros H.
  - eapply py_get_raises, H.
  - injection H as <-. eapply py_get_raises, H2.
Qed.

Lemma connect_of_raises (data : value) (e : exn) :
  connect_of data = Raise e -> e = AttributeError.
Proof.
  unfold connect_of.
  destruct (py_get data "real_time_data" (VDict [])) as [rt | e0] eqn:H1;
    cbn [rbind]; [| intros H; injection H as <-; eapply py_get_raises, H1].
  destruct (py_get rt "warn_data" (VDict [])) as [wd | e0] eqn:H2;
    cbn [rbind]; intros H.
  - eapply py_get_raises, H.
  - injection H as <-. eapply py_get_raises, H2.
Qed.

Lemma connection_status_raises (data : value) (e : exn) :
  connection_status data = Raise e -> e = AttributeError.
Proof.
  unfold connection_status.
  destruct (connect_of data) as [c | e0] eqn:Hc; cbn [rbind].
  - destruct c as [| [|] | | | | |]; intros H; discriminate H.
  - intros H. injection H as <-. eapply connect_of_raises, Hc.
Qed.

Lemma parse_timestamp_raises (v : value) (e : exn) :
  parse_timestamp utcoffset v = Raise e -> e = OverflowError.
Proof.
  unfold parse_timestamp.
  destruct (negb (truthy v)); [intros H; discriminate H |].
  destruct v as [| b | n | f | s | l | d]; cbn [rbind Sensor.except_value_type];
    try (intros H; discriminate H).
  unfold strptime.
  destruct (scan_timestamp (list_ascii_of_string s)) as [dt |];
    cbn [rbind Sensor.except_value_type]; [| intros H; discriminate H].
  destruct (valid_datetime dt);
    cbn [rbind Sensor.except_value_type]; [| intros H; discriminate H].
  unfold as_utc.
  destruct ((0 <=? seconds_of dt - utcoffset dt)
            && (seconds_of dt - utcoffset dt <? end_of_time));
    cbn [rbind Sensor.except_value_type]; intros H; [discriminate H |].
  injection H as <-. reflexivity.
Qed.

Lemma int_reading_raises (read : value -> result value) :
  (forall data e, read data = Raise e -> e = AttributeError) ->
  forall data e,
    int_reading read data = Raise e -> e = AttributeError \/ e = OverflowError.
Proof.
  intros Hread data e. unfold int_reading.
  destruct (read data) as [v | e0] eqn:Hv; cbn [rbind].
  - destruct (Sensor.safe_int_convert v) as [n | e0] eqn:Hn; cbn [rbind];
      intros H; [discriminate H |].
    injection H as <-. right. eapply safe_int_convert_raises, Hn.
  - intros H. injection H as <-. left. eapply Hread, Hv.
Qed.

Lemma raw_reading_raises (read : value -> result value) :
  (forall data e, read data = Raise e -> e = AttributeError) ->
  forall data e, raw_reading read data = Raise e -> e = AttributeError.
Proof.
  intros Hread data e. unfold raw_reading.
  destruct (read data) as [v | e0] eqn:Hv; cbn [rbind]; intros H;
    [discriminate H |].
  injection H as <-. eapply Hread, Hv.
Qed.

Lemma time_reading_raises (data : value) (e : exn) :
  time_reading utcoffset data = Raise e ->
  e = AttributeError \/ e = OverflowError.
Proof.
  unfold time_reading.
  destruct (real_time_field "data_time" VNone data) as [v | e0] eqn:Hv;
    cbn [rbind].
  - destruct (parse_timestamp utcoffset v) as [t | e0] eqn:Ht; cbn [rbind];
      intros H; [discriminate H |].
    injection H as <-. right. eapply parse_timestamp_raises, Ht.
  - intros H. injection H as <-. left. eapply real_time_field_raises, Hv.
Qed.

(** What [native_value] raises, the description raised. *)
Lemma native_value_raise (data : option snapshot) (s : sensor) (e : exn) :
  native_value data s = Raise e ->
  exists x, value_fn (entity_description s) x = Raise e.
Proof.
  unfold native_value. destruct data as [d |]; [| intros H; discriminate H].
  match goal with
  | |- context [value_fn _ ?x] => destruct (value_fn (entity_description s) x)
                                    as [v | e0] eqn:Hv
  end; cbn [Sensor.except_value_type]; [intros H; discriminate H |].
  destruct e0; intros H; try discriminate H; injection H as <-; eauto.
Qed.

(** What the value function of a description of the platform raises. *)
Lemma description_raises (description : HoymilesSensorDescription)
  (x : value) (e : exn) :
  In description (SENSORS utcoffset ++ DTUS ++ MICROINVERTERS) ->
  value_fn description x = Raise e ->
  e = AttributeError
  \/ (e = OverflowError /\ In description (SENSORS utcoffset)).
Proof.
  intros Hin Hx.
  rewrite in_app_iff in Hin. destruct Hin as [Hin | Hin].
  - assert (He : e = AttributeError \/ e = OverflowError).
    { cbn [SENSORS In] in Hin.
      repeat (destruct Hin as [Hd | Hin];
              [rewrite <- Hd in Hx; cbn [value_fn] in Hx;
               first [ eapply int_reading_raises; [| exact Hx]; intros d0 e0;
                       first [apply real_time_field_raises
                             | apply reflux_field_raises]
                     | eapply time_reading_raises, Hx ] |]).
      contradiction. }
    destruct He as [-> | ->]; [left; reflexivity |].
    right. split; [reflexivity | exact Hin].
  - left. cbn [DTUS MICROINVERTERS app In] in Hin.
    repeat (destruct Hin as [Hd | Hin];
            [rewrite <- Hd in Hx; cbn [value_fn] in Hx;
             first [ eapply raw_reading_raises; [| exact Hx]; intros d0 e0;
                     apply real_time_field_raises
                   | eapply connection_status_raises, Hx ] |]).
    contradiction.
Qed.

(** X20.  The two exceptions the [except] clause of [native_value] does
    not name are the ones a description can raise: [AttributeError],
    when a payload is not a dictionary where one is read, and
    [OverflowError], which only a station sensor raises. *)
Theorem native_value_raises_unnamed_exceptions
  (data : option snapshot) (s : sensor) (e : exn) :
  In (entity_description s) (SENSORS utcoffset ++ DTUS ++ MICROINVERTERS) ->
  native_value data s = Raise e ->
  e = AttributeError
  \/ (e = OverflowError /\ In (entity_description s) (SENSORS utcoffset)).
Proof.
  intros Hin Hraise.
  destruct (native_value_raise data s e Hraise) as [x Hx].
  eapply description_raises; eassumption.
Qed.

(** X21.  The [except] clause of [native_value] never fires: no
    description of the platform raises [ValueError] or [TypeError], so
    that with a snapshot there [native_value] is the value function of
    the description on the owner's entry, [{}] when there is none. *)
Theorem native_value_handler_is_dead (data : snapshot) (s : sensor) :
  In (entity_description s) (SENSORS utcoffset ++ DTUS ++ MICROINVERTERS) ->
  native_value (Some data) s =
  value_fn (entity_description s)
           match dict_get data (owner_id s) with
           | Some x => x
           | None => VDict []
           end.
Proof.
  intros Hin. unfold native_value.
  match goal with
  | |- Sensor.except_value_type ?r _ = _ => destruct r as [v | e] eqn:Hr
  end; [reflexivity |].
  destruct (description_raises _ _ _ Hin Hr) as [-> | [-> _]]; reflexivity.
Qed.

(** X22.  With no entry for its owner in the snapshot, or an entry with
    an empty payload -- what a refused request leaves -- a station
    sensor shows 0, the time of the last update and the device fields
    show nothing, and the connection status shows [unknown]. *)
Theorem sensors_show_defaults_without_payload (data : snapshot) (s : sensor) :
  dict_get data (owner_id s) = None
  \/ dict_get data (owner_id s) = Some (entry (VDict [])) ->
  (In (entity_description s) (SENSORS utcoffset) ->
   native_value (Some data) s =
   Ok (StValue (if String.eqb (key (entity_description s)) "last_update_time"
                then VNone else VInt 0)))
  /\ (In (entity_description s) (DTUS ++ MICROINVERTERS) ->
      native_value (Some data) s =
      Ok (StValue (if String.eqb (key (entity_description s)) "warn_data_connect"
                   then VStr "unknown" else VNone))).
Proof.
  intros Hdata. unfold native_value.
  split; intros Hin;
    cbn [SENSORS DTUS MICROINVERTERS app In] in Hin;
    repeat (destruct Hin as [Hd | Hin];
            [rewrite <- Hd; destruct Hdata as [-> | ->]; reflexivity |]);
    contradiction.
Qed.

(** X23.  A concentrator whose listing entry has no dictionary under
    [warn_data] gets that value patched into its payload, and the
    connection status of the device then raises [AttributeError] out of
    [native_value] instead of showing a state. *)
Theorem connection_status_raises_on_patched_payload
  (data : snapshot) (s : sensor) (detail : dict value) (e : value) :
  In (entity_description s) (DTUS ++ MICROINVERTERS) ->
  key (entity_description s) = "warn_data_connect" ->
  dict_get data (owner_id s) = Some (entry (VDict (patched detail e))) ->
  is_dict (field e "warn_data") = false ->
  native_value (Some data) s = Raise AttributeError.
Proof.
  intros Hin Hkey Hdata Hwarn. unfold native_value. rewrite Hdata.
  assert (Hfn : value_fn (entity_description s) = connection_status).
  { cbn [DTUS MICROINVERTERS app In] in Hin.
    repeat (destruct Hin as [Hd | Hin];
            [rewrite <- Hd in Hkey |- *; cbn [key value_fn] in Hkey |- *;
             first [discriminate Hkey | reflexivity] |]).
    contradiction. }
  rewrite Hfn. unfold connection_status, connect_of, entry.
  cbn [py_get dict_get String.eqb Ascii.eqb Bool.eqb rbind].
  unfold patched. rewrite !dict_get_set. cbn [String.eqb Ascii.eqb Bool.eqb].
  destruct (field e "warn_data"); try discriminate Hwarn; reflexivity.
Qed.

End Readings.

Lemma native_value_raises_unnamed_exceptions_witness :
  let s := {| entity_description :=
                {| key := "sn_no"; name := "SN";
                   value_fn := raw_reading (real_time_field "sn" VNone) |};
              owner_id := "70"; owner_name := VStr "DTU-Pro";
              _attr_unique_id := "hoymiles_cloud_70_sn_no";
              _attr_name := "DTU-Pro SN" |} in
  native_value (Some [("70", entry VNone)]) s = Raise AttributeError
  /\ (AttributeError = AttributeError
      \/ (AttributeError = OverflowError
          /\ In (entity_description s) (SENSORS (fun _ => 3600)))).
Proof.
  intros s. split; [reflexivity |].
  apply (native_value_raises_unnamed_exceptions
           (fun _ => 3600) (Some [("70", entry VNone)]) s AttributeError).
  - cbn. do 13 right. left. reflexivity.
  - reflexivity.
Defined.

Lemma sensors_show_defaults_without_payload_witness :
  let s := {| entity_description :=
                {| key := "today_energy"; name := "Today's Energy";
                   value_fn := int_reading (real_time_field "today_eq" (VInt 0)) |};
              owner_id := "7"; owner_name := VStr "Roof";
              _attr_unique_id := "hoymiles_cloud_7_today_energy";
              _attr_name := "Roof Today's Energy" |} in
  native_value (Some [("7", entry (VDict []))]) s = Ok (StValue (VInt 0)).
Proof.
  intros s.
  apply (proj1 (sensors_show_defaults_without_payload
                  (fun _ => 3600) [("7", entry (VDict []))] s
                  (or_intror eq_refl))).
  cbn. do 3 right. left. reflexivity.
Defined.

Lemma connection_status_raises_on_patched_payload_witness :
  let s := {| entity_description :=
                {| key := "warn_data_connect"; name := "Connection Status";
                   value_fn := connection_status |};
              owner_id := "70"; owner_name := VStr "DTU-Pro";
              _attr_unique_id := "hoymiles_cloud_70_warn_data_connect";
              _attr_name := "DTU-Pro Connection Status" |} in
  let detail := [("sn", VStr "D1")] in
  let e := VDict [("id", VInt 70); ("model_no", VStr "DTU-Pro")] in
  native_value (Some [("7", entry (VDict [])); ("70", entry (VDict (patched detail e)))]) s
  = Raise AttributeError.
Proof.
  intros s detail e.
  apply (connection_status_raises_on_patched_payload
           [("7", entry (VDict [])); ("70", entry (VDict (patched detail e)))]
           s detail e).
  - cbn. do 5 right. left. reflexivity.
  - reflexivity.
  - reflexivity.
  - reflexivity.
Defined.

Lemma native_value_handler_is_dead_witness :
  let s := {| entity_description :=
                {| key := "today_energy"; name := "Today's Energy";
                   value_fn := int_reading (real_time_field "today_eq" (VInt 0)) |};
              owner_id := "7"; owner_name := VStr "Roof";
              _attr_unique_id := "hoymiles_cloud_7_today_energy";
              _attr_name := "Roof Today's Energy" |} in
  native_value (Some [("7", entry (VDict [("today_eq", VStr "1280")]))]) s
  = Ok (StValue (VInt 1280)).
Proof.
  intros s.
  refine (eq_trans
            (native_value_handler_is_dead
               (fun _ => 3600)
               [("7", entry (VDict [("today_eq", VStr "1280")]))] s _) _).
  - cbn. do 3 right. left. reflexivity.
  - vm_compute. reflexivity.
Defined.

(* ===================================================================== *)
(** ** sensor.py: the entities of the platform and the snapshot *)
(* ===================================================================== *)

Section Platform.

Variable E : environment.
Variable utcoffset : datetime -> Z.

(** The entities of the devices of one station, by [devices_of]. *)
Lemma device_sensors_of (descriptions : list HoymilesSensorDescription)
  (station_id : string) (by_station : dict devices) :
  flat_map
    (fun kv : string * devices =>
       if String.eqb station_id (fst kv)
       then flat_map
              (fun data =>
                 map (fun description =>
                        new_sensor E description (dev_id data) (dev_name data))
                     descriptions)
              (each (snd kv))
       else [])
    by_station
  = flat_map
      (fun data =>
         map (fun description =>
                new_sensor E description (dev_id data) (dev_name data))
             descriptions)
      (devices_of station_id by_station).
Proof.
  unfold devices_of.
  induction by_station as [| kv l IH]; cbn [flat_map]; [reflexivity |].
  rewrite flat_map_app, IH.
  destruct (String.eqb station_id (fst kv)); reflexivity.
Qed.

Lemma device_sensor_owners (descriptions : list HoymilesSensorDescription)
  (devices : list device) (i : string) :
  descriptions <> [] ->
  In i (map owner_id
            (flat_map
               (fun data =>
                  map (fun description =>
                         new_sensor E description (dev_id data) (dev_name data))
                      descriptions)
               devices))
  <-> In i (map dev_id devices).
Proof.
  intros Hne. rewrite !in_map_iff. split.
  - intros (s & <- & Hs). apply in_flat_map in Hs.
    destruct Hs as (d & Hd & Hs). apply in_map_iff in Hs.
    destruct Hs as (description & <- & _).
    exists d. split; [reflexivity | exact Hd].
  - intros (d & <- & Hd).
    destruct descriptions as [| description rest]; [contradiction Hne; reflexivity |].
    exists (new_sensor E description (dev_id d) (dev_name d)).
    split; [reflexivity |].
    apply in_flat_map. exists d. split; [exact Hd | left; reflexivity].
Qed.

Lemma station_sensor_owners (t : topology) (station_id : string) (station_name : value)
  (i : string) :
  In i (map owner_id
            (map (fun description => new_sensor E description station_id station_name)
                 (SENSORS utcoffset)
             ++ flat_map
                  (fun kv : string * devices =>
                     if String.eqb station_id (fst kv)
                     then flat_map
                            (fun data =>
                               map (fun description =>
                                      new_sensor E description (dev_id data) (dev_name data))
                                   MICROINVERTERS)
                            (each (snd kv))
                     else [])
                  (microinverters t)
             ++ flat_map
                  (fun kv : string * devices =>
                     if String.eqb station_id (fst kv)
                     then flat_map
                            (fun data =>
                               map (fun description =>
                                      new_sensor E description (dev_id data) (dev_name data))
                                   DTUS)
                            (each (snd kv))
                     else [])
                  (dtus t)))
  <-> In i (map entity
                (Station station_id
                 :: map (fun d => Dtu station_id (dev_id d))
                        (devices_of station_id (dtus t))
                 ++ map (fun d => Micro station_id (dev_id d))
                        (devices_of station_id (microinverters t)))).
Proof.
  rewrite !device_sensors_of, !map_app, !in_app_iff.
  rewrite !device_sensor_owners by discriminate.
  cbn [map entity In]. rewrite map_app, in_app_iff, !map_map.
  cbn [entity].
  assert (Hst : In i (map owner_id
                          (map (fun description =>
                                  new_sensor E description station_id station_name)
                               (SENSORS utcoffset)))
                <-> station_id = i).
  { cbn [SENSORS map owner_id new_sensor In]. tauto. }
  rewrite Hst. tauto.
Qed.

Lemma entity_owner_in_plan (t : topology) (s : sensor) :
  In s (sensor_entities E utcoffset t) ->
  In (owner_id s) (map entity (plan t)).
Proof.
  unfold sensor_entities, plan, keys. intros Hs.
  apply in_flat_map in Hs.
  destruct Hs as ([station_id station_name] & Hst & Hs).
  assert (Hown : In (owner_id s) (map entity
              (Station station_id
               :: map (fun d => Dtu station_id (dev_id d))
                      (devices_of station_id (dtus t))
               ++ map (fun d => Micro station_id (dev_id d))
                      (devices_of station_id (microinverters t))))).
  { apply (station_sensor_owners t station_id station_name).
    apply in_map. exact Hs. }
  apply in_map_iff in Hown. destruct Hown as (f & Hf & Hin).
  apply in_map_iff. exists f. split; [exact Hf |].
  apply in_flat_map. exists station_id. split; [| exact Hin].
  apply in_map_iff. exists (station_id, station_name). split; [reflexivity | exact Hst].
Qed.

(** X24.  The sensor platform and the polling cycle walk the same
    topology: the identifiers whose entries the entities read are
    exactly the identifiers a cycle fetches and stores. *)
Theorem entities_read_what_the_cycle_stores (t : topology) (i : string) :
  In i (map owner_id (sensor_entities E utcoffset t))
  <-> In i (map entity (plan t)).
Proof.
  split.
  - intros Hi. apply in_map_iff in Hi. destruct Hi as (s & <- & Hs).
    apply entity_owner_in_plan, Hs.
  - unfold sensor_entities, plan, keys. rewrite !in_map_iff.
    intros (f & Hi & Hf). apply in_flat_map in Hf.
    destruct Hf as (station_id & Hst & Hf).
    apply in_map_iff in Hst. destruct Hst as ([sid station_name] & Hfst & Hst).
    cbn [fst] in Hfst. subst sid.
    assert (Hown : In i (map entity
                (Station station_id
                 :: map (fun d => Dtu station_id (dev_id d))
                        (devices_of station_id (dtus t))
                 ++ map (fun d => Micro station_id (dev_id d))
                        (devices_of station_id (microinverters t))))).
    { apply in_map_iff. exists f. split; [exact Hi | exact Hf]. }
    apply (station_sensor_owners t station_id station_name) in Hown.
    apply in_map_iff in Hown. destruct Hown as (s & Hs & Hin).
    exists s. split; [exact Hs |].
    apply in_flat_map. exists (station_id, station_name). split; [exact Hst | exact Hin].
Qed.

Lemma dict_get_of_key {V} (d : dict V) (k : string) :
  In k (keys d) -> exists v, dict_get d k = Some v.
Proof.
  induction d as [| [k0 v0] d IH]; cbn [keys map fst In dict_get]; [contradiction |].
  intros [-> | Hin].
  - rewrite String.eqb_refl. eauto.
  - destruct (String.eqb k0 k); [eauto | apply IH, Hin].
Qed.

Lemma store_all_entries (results : list (string * value)) :
  forall data,
    (forall k v, dict_get data k = Some v -> exists rt, v = entry rt) ->
    forall k v, dict_get (store_all data results) k = Some v ->
                exists rt, v = entry rt.
Proof.
  induction results as [| [k0 rt0] results IH]; intros data Hdata; [exact Hdata |].
  cbn [store_all fold_left fst snd].
  change (fold_left _ results ?d) with (store_all d results).
  apply IH. intros k v. rewrite dict_get_set.
  destruct (String.eqb k0 k).
  - intros H. injection H as <-. eauto.
  - apply Hdata.
Qed.

(** X25.  After a cycle that succeeded, every entity the sensor
    platform creates for the same topology finds an entry of its owner
    in the snapshot, so that [native_value] never falls back to the
    empty dictionary. *)
Theorem every_entity_finds_its_entry
  (t : topology) (w w' : world) (data : snapshot) (s : sensor) :
  async_update_data E t w = (Ok data, w') ->
  In s (sensor_entities E utcoffset t) ->
  exists real_time_data, dict_get data (owner_id s) = Some (entry real_time_data).
Proof.
  rewrite cycle_follows_plan. unfold try_except.
  unfold bind at 1.
  destruct (renew_token E w) as [[[] | e] w0]; [| discriminate].
  rewrite visits_are_fetches. unfold bind, ret.
  destruct (fetch_all E (plan t) w0) as [[results | e] w1] eqn:Hres;
    [| discriminate].
  intros H Hs. injection H as <- _.
  apply fetch_all_entities in Hres.
  assert (Hown : In (owner_id s) (map entity (plan t))).
  { apply entity_owner_in_plan, Hs. }
  destruct (store_all_keys results [] (NoDup_nil _)) as [_ Hkeys].
  assert (Hk : In (owner_id s) (keys (store_all [] results))).
  { apply Hkeys. right. rewrite Hres. exact Hown. }
  destruct (dict_get_of_key _ _ Hk) as [v Hv].
  destruct (store_all_entries results [] (fun k v H => ltac:(discriminate H))
              _ _ Hv) as [rt ->].
  exists rt. exact Hv.
Qed.

End Platform.

Lemma every_entity_finds_its_entry_witness :
  let E := sample_env good_service in
  let data := published (fst (refresh E sample_topology earlier_snapshot
                                      (session_at 2000))) in
  let s := new_sensor E
             {| key := "sn_no"; name := "SN";
                value_fn := raw_reading (real_time_field "sn" VNone) |}
             "701" (VStr "HM-2") in
  exists real_time_data,
    dict_get data (owner_id s) = Some (entry real_time_data).
Proof.
  intros E data s.
  apply (every_entity_finds_its_entry
           E (fun _ => 3600) sample_topology (session_at 2000)
           (snd (async_update_data E sample_topology (session_at 2000)))
           data s).
  - vm_compute. reflexivity.
  - unfold sensor_entities, sample_topology.
    cbn [stations microinverters dtus flat_map map app fst snd
         String.eqb Ascii.eqb Bool.eqb SENSORS MICROINVERTERS DTUS
         dev_id dev_name In].
    do 20 right. left. reflexivity.
Defined.

(* ===================================================================== *)
(** ** sensor.py: the time of the last update *)
(* ===================================================================== *)

Section Timestamps.

Variable utcoffset : datetime -> Z.

Lemma digit_of_range (c : ascii) (d : Z) : digit_of c = Some d -> is_digit d.
Proof.
  unfold digit_of, is_digit.
  destruct ((48 <=? N_of_ascii c)%N && (N_of_ascii c <=? 57)%N) eqn:H;
    [| discriminate].
  apply andb_true_iff in H. destruct H as [H1 H2].
  apply N.leb_le in H1. apply N.leb_le in H2.
  intros Hd. injection Hd as <-. lia.
Qed.

Lemma digit_run_digits (l : list ascii) : Forall is_digit (fst (digit_run l)).
Proof.
  induction l as [| c l IH]; cbn [digit_run fst]; [constructor |].
  destruct (digit_of c) as [d |] eqn:Hd; [| constructor].
  destruct (digit_run l) as [ds r]. cbn [fst] in *.
  constructor; [eapply digit_of_range, Hd | exact IH].
Qed.

Ltac digit_cases a H :=
  let H' := fresh in
  assert (H' : a = 0 \/ a = 1 \/ a = 2 \/ a = 3 \/ a = 4 \/ a = 5
               \/ a = 6 \/ a = 7 \/ a = 8 \/ a = 9) by (unfold is_digit in H; lia);
  decompose [or] H'; clear H'; subst a.

(** The number a directive reads from at most two digits. *)
Ltac two_digit_field field :=
  intros ds Hds;
  destruct ds as [| a [| b [| c ds]]]; cbn [field];
  [ discriminate
  | apply Forall_inv in Hds; digit_cases a Hds; cbn; intros H;
    try discriminate H; injection H as <-; lia
  | pose proof (Forall_inv Hds) as Ha;
    pose proof (Forall_inv (Forall_inv_tail Hds)) as Hb;
    digit_cases a Ha; digit_cases b Hb; cbn; intros H;
    try discriminate H; injection H as <-; lia
  | pose proof (Forall_inv Hds) as Ha; digit_cases a Ha; discriminate ].

Lemma year_field_range (ds : list Z) (y : Z) :
  Forall is_digit ds -> year_field ds = Some y -> 0 <= y <= 9999.
Proof.
  intros Hds.
  destruct ds as [| a [| b [| c [| d [| e ds]]]]]; cbn [year_field];
    try discriminate.
  pose proof (Forall_inv Hds) as Ha.
  pose proof (Forall_inv (Forall_inv_tail Hds)) as Hb.
  pose proof (Forall_inv (Forall_inv_tail (Forall_inv_tail Hds))) as Hc.
  pose proof (Forall_inv (Forall_inv_tail (Forall_inv_tail (Forall_inv_tail Hds))))
    as Hd.
  unfold is_digit in *. intros H.
  assert (Hy : y = 1000 * a + 100 * b + 10 * c + d) by congruence.
  lia.
Qed.

Lemma month_field_range (ds : list Z) (m : Z) :
  Forall is_digit ds -> month_field ds = Some m -> 1 <= m <= 12.
Proof. revert ds. two_digit_field month_field. Qed.

Lemma day_field_range (ds : list Z) (d : Z) :
  Forall is_digit ds -> day_field ds = Some d -> 1 <= d <= 31.
Proof. revert ds. two_digit_field day_field. Qed.

Lemma hour_field_range (ds : list Z) (h : Z) :
  Forall is_digit ds -> hour_field ds = Some h -> 0 <= h <= 23.
Proof. revert ds. two_digit_field hour_field. Qed.

Lemma minute_field_range (ds : list Z) (m : Z) :
  Forall is_digit ds -> minute_field ds = Some m -> 0 <= m <= 59.
Proof. revert ds. two_digit_field minute_field. Qed.

Lemma second_field_range (ds : list Z) (s : Z) :
  Forall is_digit ds -> second_field ds = Some s -> 0 <= s <= 61.
Proof. revert ds. two_digit_field second_field. Qed.

Lemma field_then_range (field : list Z -> option Z) (lo hi : Z) (sep : ascii)
  (l r : list ascii) (n : Z) :
  (forall ds n, Forall is_digit ds -> field ds = Some n -> lo <= n <= hi) ->
  field_then field sep l = Some (n, r) -> lo <= n <= hi.
Proof.
  intros Hfield. unfold field_then.
  pose proof (digit_run_digits l) as Hds.
  destruct (digit_run l) as [ds r0]. cbn [fst] in Hds.
  destruct (field ds) as [n0 |] eqn:Hn; [| discriminate].
  destruct r0 as [| c r0]; [discriminate |].
  destruct (Ascii.eqb c sep); [| discriminate].
  intros H. injection H as <- _. eapply Hfield; eassumption.
Qed.

Lemma day_then_space_range (l r : list ascii) (d : Z) :
  day_then_space l = Some (d, r) -> 1 <= d <= 31.
Proof.
  unfold day_then_space.
  match goal with
  | |- context [digit_run ?l1] =>
      pose proof (digit_run_digits l1) as Hds;
      destruct (digit_run l1) as [ds r0]
  end.
  cbn [fst] in Hds.
  match goal with
  | |- match ?d0 with _ => _ end = _ -> _ =>
      assert (Hd : forall n, d0 = Some n -> 1 <= n <= 31);
      [| destruct d0 as [n |]; [| discriminate] ]
  end.
  - intros n.
    match goal with
    | |- (if ?blank then _ else _) = _ -> _ => destruct blank
    end.
    + destruct ds as [| a [| b ds]]; try discriminate.
      destruct (1 <=? a) eqn:Ha; [| discriminate].
      apply Forall_inv in Hds. unfold is_digit in Hds.
      apply Z.leb_le in Ha. intros H. injection H as <-. lia.
    + apply day_field_range, Hds.
  - destruct r0 as [| c r0]; [discriminate |].
    destruct (is_space c); [| discriminate].
    intros H. injection H as <- _. apply Hd. reflexivity.
Qed.

(** The fields [strptime] returns are those of a date of the calendar
    and a time of the day. *)
Lemma strptime_fields (s : string) (dt : datetime) :
  strptime s = Ok dt ->
  1 <= year dt <= 9999 /\ 1 <= month dt <= 12
  /\ 1 <= day dt <= days_in_month (year dt) (month dt)
  /\ 0 <= hour dt <= 23 /\ 0 <= minute dt <= 59 /\ 0 <= second dt <= 59.
Proof.
  unfold strptime.
  destruct (scan_timestamp (list_ascii_of_string s)) as [dt0 |] eqn:Hscan;
    [| discriminate].
  destruct (valid_datetime dt0) eqn:Hvalid; [| discriminate].
  intros H. injection H as <-.
  unfold valid_datetime in Hvalid.
  apply andb_true_iff in Hvalid. destruct Hvalid as [Hvalid Hsec].
  apply andb_true_iff in Hvalid. destruct Hvalid as [Hyear Hday].
  apply Z.leb_le in Hsec. apply Z.leb_le in Hyear. apply Z.leb_le in Hday.
  unfold scan_timestamp in Hscan.
  destruct (field_then year_field "-" _) as [[y l1] |] eqn:Hy; [| discriminate].
  destruct (field_then month_field "-" l1) as [[m l2] |] eqn:Hm; [| discriminate].
  destruct (day_then_space l2) as [[d l3] |] eqn:Hd; [| discriminate].
  destruct (field_then hour_field ":" l3) as [[h l4] |] eqn:Hh; [| discriminate].
  destruct (field_then minute_field ":" l4) as [[mi l5] |] eqn:Hmi; [| discriminate].
  pose proof (digit_run_digits l5) as Hds.
  destruct (digit_run l5) as [ds r]. cbn [fst] in Hds.
  destruct (second_field ds) as [sec |] eqn:Hs; [| discriminate].
  destruct r; [| discriminate].
  injection Hscan as <-. cbn [year month day hour minute second] in *.
  pose proof (field_then_range _ 0 9999 _ _ _ _ year_field_range Hy).
  pose proof (field_then_range _ 1 12 _ _ _ _ month_field_range Hm).
  pose proof (day_then_space_range _ _ _ Hd).
  pose proof (field_then_range _ 0 23 _ _ _ _ hour_field_range Hh).
  pose proof (field_then_range _ 0 59 _ _ _ _ minute_field_range Hmi).
  pose proof (second_field_range _ _ Hds Hs).
  lia.
Qed.

Lemma day_of_year_bounds (y m d : Z) :
  1 <= m <= 12 -> 1 <= d <= days_in_month y m ->
  1 <= days_before_month y m + d <= 366.
Proof.
  intros Hm Hd.
  assert (H : m = 1 \/ m = 2 \/ m = 3 \/ m = 4 \/ m = 5 \/ m = 6 \/ m = 7
              \/ m = 8 \/ m = 9 \/ m = 10 \/ m = 11 \/ m = 12) by lia.
  unfold days_before_month, days_in_month in *.
  decompose [or] H; clear H; subst m;
    destruct (is_leap y); cbn in Hd;
    match goal with
    | |- context [fold_left ?f ?l 0] =>
        let v := eval vm_compute in (fold_left f l 0) in
        change (fold_left f l 0) with v
    end; lia.
Qed.

Lemma days_before_year_bounds (y : Z) :
  2 <= y <= 9998 ->
  365 <= days_before_year y /\ days_before_year y + 730 <= days_before_year 10000.
Proof.
  intros Hy. unfold days_before_year.
  change ((10000 - 1) * 365 + (10000 - 1) / 4 - (10000 - 1) / 100
          + (10000 - 1) / 400) with 3652059.
  Z.div_mod_to_equations. lia.
Qed.

(** Away from the first and the last year of the calendar, the shift to
    UTC stays inside it. *)
Lemma as_utc_in_range (s : string) (dt : datetime) :
  strptime s = Ok dt ->
  2 <= year dt <= 9998 ->
  -86400 < utcoffset dt < 86400 ->
  as_utc utcoffset dt = Ok (seconds_of dt - utcoffset dt).
Proof.
  intros Hs Hy Htz.
  destruct (strptime_fields s dt Hs) as (_ & Hm & Hd & Hh & Hmi & Hsec).
  pose proof (day_of_year_bounds (year dt) (month dt) (day dt) Hm Hd) as Hdoy.
  pose proof (days_before_year_bounds (year dt) Hy) as [Hlo Hhi].
  unfold as_utc.
  assert (Hrange : 0 <= seconds_of dt - utcoffset dt < end_of_time).
  { unfold seconds_of, toordinal, end_of_time. lia. }
  destruct Hrange as [H0 H1].
  apply Z.leb_le in H0. apply Z.ltb_lt in H1. rewrite H0, H1. reflexivity.
Qed.

(** X26.  A time of the form [YYYY-MM-DD HH:MM:SS] that names a date of
    the calendar from year 2 to year 9998 is read as a wall time of the
    configured zone: what [parse_timestamp] returns is that time less
    the zone's offset at it. *)
Theorem timestamp_is_shifted_by_the_zone_offset (s : string) (dt : datetime) :
  strptime s = Ok dt ->
  2 <= year dt <= 9998 ->
  -86400 < utcoffset dt < 86400 ->
  parse_timestamp utcoffset (VStr s) = Ok (Some (seconds_of dt - utcoffset dt)).
Proof.
  intros Hs Hy Htz. unfold parse_timestamp.
  assert (Htruthy : truthy (VStr s) = true).
  { destruct s; [discriminate Hs | reflexivity]. }
  rewrite Htruthy. cbn [negb rbind]. rewrite Hs. cbn [rbind].
  rewrite (as_utc_in_range s dt Hs Hy Htz). reflexivity.
Qed.

(** X27.  [parse_timestamp] is not total: a well-formed time in the
    first or the last year of the calendar can leave it on the way to
    UTC, and the [OverflowError] of that is not caught.  Nothing else
    makes it raise. *)
Theorem timestamp_overflows_at_calendar_ends (v : value) (e : exn) :
  (forall dt, -86400 < utcoffset dt < 86400) ->
  parse_timestamp utcoffset v = Raise e ->
  e = OverflowError
  /\ exists s dt, v = VStr s /\ strptime s = Ok dt
                  /\ (year dt = 1 \/ year dt = 9999).
Proof.
  intros Htz. unfold parse_timestamp.
  destruct (negb (truthy v)); [discriminate |].
  destruct v as [| b | n | f | s | l | d];
    cbn [rbind Sensor.except_value_type]; try discriminate.
  destruct (strptime s) as [dt | e0] eqn:Hs; cbn [rbind].
  - destruct (strptime_fields s dt Hs) as (Hy & _).
    destruct (Z.eq_dec (year dt) 1) as [H1 | H1];
      [| destruct (Z.eq_dec (year dt) 9999) as [H2 | H2]].
    + unfold as_utc.
      destruct (_ && _); cbn [rbind Sensor.except_value_type]; intros H;
        [discriminate H |].
      injection H as <-. split; [reflexivity |]. eauto 6.
    + unfold as_utc.
      destruct (_ && _); cbn [rbind Sensor.except_value_type]; intros H;
        [discriminate H |].
      injection H as <-. split; [reflexivity |]. eauto 6.
    + rewrite (as_utc_in_range s dt Hs ltac:(lia) (Htz dt)).
      cbn [rbind Sensor.except_value_type]. discriminate.
  - unfold strptime in Hs.
    destruct (scan_timestamp _) as [dt |];
      [destruct (valid_datetime dt); [discriminate Hs |] |];
      injection Hs as <-; cbn [Sensor.except_value_type]; discriminate.
Qed.

End Timestamps.

Lemma timestamp_is_shifted_by_the_zone_offset_witness :
  parse_timestamp (fun _ => 3600) (VStr "2024-03-01 12:00:00")
  = Ok (Some (seconds_of {| year := 2024; month := 3; day := 1;
                            hour := 11; minute := 0; second := 0 |})).
Proof.
  apply (timestamp_is_shifted_by_the_zone_offset
           (fun _ => 3600) "2024-03-01 12:00:00"
           {| year := 2024; month := 3; day := 1;
              hour := 12; minute := 0; second := 0 |}).
  - vm_compute. reflexivity.
  - cbn [year]. lia.
  - lia.
Defined.

Lemma timestamp_overflows_at_calendar_ends_witness :
  parse_timestamp (fun _ => 3600) (VStr "0001-01-01 00:30:00") = Raise OverflowError
  /\ OverflowError = OverflowError
  /\ exists s dt, VStr "0001-01-01 00:30:00" = VStr s /\ strptime s = Ok dt
                  /\ (year dt = 1 \/ year dt = 9999).
Proof.
  split; [vm_compute; reflexivity |].
  apply (timestamp_overflows_at_calendar_ends
           (fun _ => 3600) (VStr "0001-01-01 00:30:00") OverflowError).
  - intros dt. lia.
  - vm_compute. reflexivity.
Defined.

(* ===================================================================== *)
(** ** sensor.py: unique ids *)
(* ===================================================================== *)

Section UniqueIds.

Variable E : environment.
Variable utcoffset : datetime -> Z.

Lemma append_cancel (p a b : string) : (p ++ a = p ++ b)%string -> a = b.
Proof.
  induction p as [| c p IH]; cbn [String.append]; intros H; [exact H |].
  injection H as H. apply IH, H.
Qed.

Lemma has_tail_append (x k : string) : has_tail k (x ++ String "_" k) = true.
Proof.
  induction x as [| c x IH]; cbn [String.append has_tail].
  - rewrite String.eqb_refl. reflexivity.
  - rewrite IH. apply orb_true_r.
Qed.

(** Owner and key can be read back from [owner_key], as long as no key
    is the end of another one after an underscore. *)
Lemma owner_key_inj (i1 i2 k1 k2 : string) :
  has_tail k1 k2 = false -> has_tail k2 k1 = false ->
  (i1 ++ String "_" k1 = i2 ++ String "_" k2)%string ->
  i1 = i2 /\ k1 = k2.
Proof.
  intros H12 H21. revert i2.
  induction i1 as [| c i1 IH]; intros [| c2 i2]; cbn [String.append]; intros H.
  - injection H as H. split; [reflexivity | exact H].
  - injection H as Hc H. rewrite H in H21.
    rewrite has_tail_append in H21. discriminate H21.
  - injection H as Hc H. rewrite <- H in H12.
    rewrite has_tail_append in H12. discriminate H12.
  - injection H as Hc H. destruct (IH i2 H) as [-> ->].
    subst c2. split; reflexivity.
Qed.

Lemma no_key_ends_another (k1 k2 : string) :
  In k1 (map key (SENSORS utcoffset ++ DTUS ++ MICROINVERTERS)) ->
  In k2 (map key (SENSORS utcoffset ++ DTUS ++ MICROINVERTERS)) ->
  has_tail k1 k2 = false.
Proof.
  intros H1 H2.
  cbn [SENSORS DTUS MICROINVERTERS app map key In] in H1, H2.
  repeat (destruct H1 as [<- | H1]; [| ]); try contradiction;
    repeat (destruct H2 as [<- | H2]; [| ]); try contradiction;
    reflexivity.
Qed.

Lemma unique_id_parts (d : HoymilesSensorDescription) (i : string) (n : value) :
  _attr_unique_id (new_sensor E d i n)
  = (DOMAIN ++ "_" ++ fst (id_parts (new_sensor E d i n))
            ++ "_" ++ snd (id_parts (new_sensor E d i n)))%string.
Proof. reflexivity. Qed.

Lemma NoDup_app_disjoint {A} (l1 l2 : list A) (a : A) :
  NoDup (l1 ++ l2) -> In a l1 -> ~ In a l2.
Proof.
  induction l1 as [| x l1 IH]; cbn [app In]; [contradiction |].
  intros Hnd [-> | Hin] H2.
  - apply NoDup_cons_iff in Hnd. destruct Hnd as [Hx _].
    apply Hx, in_or_app. right. exact H2.
  - apply NoDup_cons_iff in Hnd. destruct Hnd as [_ Hnd].
    exact (IH Hnd Hin H2).
Qed.

(** The entities of one owner. *)
Lemma owner_parts_nodup (ds : list HoymilesSensorDescription)
  (i : string) (n : value) :
  NoDup (map key ds) ->
  NoDup (map id_parts (map (fun d => new_sensor E d i n) ds)).
Proof.
  rewrite map_map. unfold id_parts. cbn [owner_id entity_description new_sensor].
  induction ds as [| d ds IH]; cbn [map]; intros Hnd; [constructor |].
  apply NoDup_cons_iff in Hnd. destruct Hnd as [Hd Hnd].
  constructor; [| apply IH, Hnd].
  intros Hin. apply Hd. apply in_map_iff in Hin.
  destruct Hin as (d' & Heq & Hd'). injection Heq as Heq.
  rewrite <- Heq. apply in_map, Hd'.
Qed.

Lemma owner_parts_owner (ds : list HoymilesSensorDescription)
  (i : string) (n : value) (p : string * string) :
  In p (map id_parts (map (fun d => new_sensor E d i n) ds)) -> fst p = i.
Proof.
  rewrite map_map. intros Hin. apply in_map_iff in Hin.
  destruct Hin as (d & <- & _). reflexivity.
Qed.

(** The entities of the devices of one list. *)
Lemma device_parts_owner (ds : list HoymilesSensorDescription)
  (devices : list device) (p : string * string) :
  In p (map id_parts
            (flat_map
               (fun data =>
                  map (fun d => new_sensor E d (dev_id data) (dev_name data)) ds)
               devices)) ->
  In (fst p) (map dev_id devices).
Proof.
  intros Hin. apply in_map_iff in Hin. destruct Hin as (s & <- & Hs).
  apply in_flat_map in Hs. destruct Hs as (data & Hdata & Hs).
  apply in_map_iff in Hs. destruct Hs as (d & <- & _).
  cbn [id_parts fst owner_id new_sensor]. apply in_map, Hdata.
Qed.

Lemma device_parts_nodup (ds : list HoymilesSensorDescription)
  (devices : list device) :
  NoDup (map key ds) ->
  NoDup (map dev_id devices) ->
  NoDup (map id_parts
             (flat_map
                (fun data =>
                   map (fun d => new_sensor E d (dev_id data) (dev_name data)) ds)
                devices)).
Proof.
  intros Hkeys.
  induction devices as [| data devices IH]; cbn [flat_map map]; intros Hnd;
    [constructor |].
  apply NoDup_cons_iff in Hnd. destruct Hnd as [Hdata Hnd].
  rewrite map_app. apply NoDup_app.
  - apply owner_parts_nodup, Hkeys.
  - apply IH, Hnd.
  - intros p H1 H2. apply owner_parts_owner in H1.
    apply device_parts_owner in H2. rewrite H1 in H2. exact (Hdata H2).
Qed.

Lemma description_keys_nodup :
  NoDup (map key (SENSORS utcoffset))
  /\ NoDup (map key DTUS) /\ NoDup (map key MICROINVERTERS).
Proof.
  cbn [SENSORS DTUS MICROINVERTERS map key].
  repeat split;
    repeat (constructor; [cbn [In]; intuition discriminate |]); constructor.
Qed.

(** The entities of one station and of its devices. *)
Lemma station_parts_nodup (t : topology) (station_id : string) (station_name : value) :
  NoDup (station_id
         :: map dev_id (devices_of station_id (dtus t))
         ++ map dev_id (devices_of station_id (microinverters t))) ->
  NoDup (map id_parts
             (map (fun d => new_sensor E d station_id station_name)
                  (SENSORS utcoffset)
              ++ flat_map
                   (fun data =>
                      map (fun d => new_sensor E d (dev_id data) (dev_name data))
                          MICROINVERTERS)
                   (devices_of station_id (microinverters t))
              ++ flat_map
                   (fun data =>
                      map (fun d => new_sensor E d (dev_id data) (dev_name data))
                          DTUS)
                   (devices_of station_id (dtus t)))).
Proof.
  intros Hnd.
  destruct description_keys_nodup as (Hks & Hkd & Hkm).
  apply NoDup_cons_iff in Hnd. destruct Hnd as [Hsid Hnd].
  rewrite !map_app. apply NoDup_app; [| apply NoDup_app |].
  - apply owner_parts_nodup, Hks.
  - apply device_parts_nodup; [exact Hkm |].
    eapply NoDup_app_remove_l, Hnd.
  - apply device_parts_nodup; [exact Hkd |].
    eapply NoDup_app_remove_r, Hnd.
  - intros p H1 H2.
    apply device_parts_owner in H1. apply device_parts_owner in H2.
    exact (NoDup_app_disjoint _ _ _ Hnd H2 H1).
  - intros p H1 H2. apply owner_parts_owner in H1.
    apply Hsid. apply in_or_app.
    apply in_app_or in H2. destruct H2 as [H2 | H2];
      apply device_parts_owner in H2; rewrite H1 in H2;
      [right | left]; exact H2.
Qed.

Lemma parts_owner (l : list sensor) (p : string * string) :
  In p (map id_parts l) -> In (fst p) (map owner_id l).
Proof.
  intros Hin. apply in_map_iff in Hin. destruct Hin as (s & <- & Hs).
  cbn [id_parts fst]. apply in_map, Hs.
Qed.

Lemma entity_parts_nodup (D M : dict devices) (sts : dict value) :
  NoDup (map entity (plan {| stations := sts; dtus := D; microinverters := M |})) ->
  NoDup (map id_parts
             (sensor_entities E utcoffset
                {| stations := sts; dtus := D; microinverters := M |})).
Proof.
  induction sts as [| [station_id station_name] sts IH].
  - intros _. constructor.
  - unfold plan, sensor_entities.
    cbn [stations dtus microinverters keys map fst flat_map].
    intros Hnd. rewrite map_app in Hnd |- *.
    apply NoDup_app.
    + rewrite !device_sensors_of.
      apply (station_parts_nodup
               {| stations := sts; dtus := D; microinverters := M |}).
      apply NoDup_app_remove_r in Hnd.
      cbn [map entity] in Hnd. rewrite map_app, !map_map in Hnd.
      exact Hnd.
    + apply IH. eapply NoDup_app_remove_l, Hnd.
    + intros p H1 H2.
      apply parts_owner in H1. apply parts_owner in H2.
      apply (station_sensor_owners E utcoffset
               {| stations := sts; dtus := D; microinverters := M |}
               station_id station_name) in H1.
      apply in_map_iff in H2. destruct H2 as (s & Hs & Hin).
      pose proof (entity_owner_in_plan E utcoffset
                    {| stations := sts; dtus := D; microinverters := M |}
                    s Hin) as H2.
      rewrite Hs in H2.
      exact (NoDup_app_disjoint _ _ _ Hnd H1 H2).
Qed.

Lemma entity_shape (t : topology) (s : sensor) :
  In s (sensor_entities E utcoffset t) ->
  exists d i n,
    s = new_sensor E d i n
    /\ In d (SENSORS utcoffset ++ DTUS ++ MICROINVERTERS).
Proof.
  unfold sensor_entities. intros Hs. apply in_flat_map in Hs.
  destruct Hs as ([station_id station_name] & _ & Hs).
  rewrite !device_sensors_of in Hs.
  apply in_app_or in Hs. destruct Hs as [Hs | Hs];
    [| apply in_app_or in Hs; destruct Hs as [Hs | Hs]].
  - apply in_map_iff in Hs. destruct Hs as (d & <- & Hd).
    exists d, station_id, station_name. split; [reflexivity |].
    apply in_or_app. left. exact Hd.
  - apply in_flat_map in Hs. destruct Hs as (data & _ & Hs).
    apply in_map_iff in Hs. destruct Hs as (d & <- & Hd).
    exists d, (dev_id data), (dev_name data). split; [reflexivity |].
    apply in_or_app. right. apply in_or_app. right. exact Hd.
  - apply in_flat_map in Hs. destruct Hs as (data & _ & Hs).
    apply in_map_iff in Hs. destruct Hs as (d & <- & Hd).
    exists d, (dev_id data), (dev_name data). split; [reflexivity |].
    apply in_or_app. right. apply in_or_app. left. exact Hd.
Qed.

Lemma unique_id_inj (t : topology) (s1 s2 : sensor) :
  In s1 (sensor_entities E utcoffset t) ->
  In s2 (sensor_entities E utcoffset t) ->
  _attr_unique_id s1 = _attr_unique_id s2 ->
  id_parts s1 = id_parts s2.
Proof.
  intros H1 H2.
  destruct (entity_shape t s1 H1) as (d1 & i1 & n1 & -> & Hd1).
  destruct (entity_shape t s2 H2) as (d2 & i2 & n2 & -> & Hd2).
  cbn [_attr_unique_id new_sensor id_parts owner_id entity_description].
  intros Heq. apply append_cancel in Heq.
  cbn [String.append] in Heq. injection Heq as Heq.
  apply (in_map key) in Hd1. apply (in_map key) in Hd2.
  destruct (owner_key_inj i1 i2 (key d1) (key d2)
              (no_key_ends_another _ _ Hd1 Hd2)
              (no_key_ends_another _ _ Hd2 Hd1) Heq) as [Hi Hk].
  unfold id_parts. cbn [owner_id entity_description new_sensor].
  rewrite Hi, Hk. reflexivity.
Qed.

Lemma NoDup_map_transfer {A B C} (f : A -> B) (g : A -> C) (l : list A) :
  (forall x y, In x l -> In y l -> f x = f y -> g x = g y) ->
  NoDup (map g l) -> NoDup (map f l).
Proof.
  induction l as [| a l IH]; cbn [map]; intros Hinj Hnd; [constructor |].
  apply NoDup_cons_iff in Hnd. destruct Hnd as [Ha Hnd].
  constructor.
  - intros Hin. apply Ha. apply in_map_iff in Hin.
    destruct Hin as (x & Hx & Hin).
    rewrite <- (Hinj x a (or_intror Hin) (or_introl eq_refl) Hx).
    apply in_map, Hin.
  - apply IH; [| exact Hnd].
    intros x y Hx Hy. apply Hinj; right; assumption.
Qed.

(** X28.  When the identifiers a cycle fetches -- stations,
    concentrators and micro-inverters together -- are all different, no
    two entities of the sensor platform get the same unique id,
    whatever characters the identifiers are made of. *)
Theorem unique_ids_are_distinct (t : topology) :
  NoDup (map entity (plan t)) ->
  NoDup (map _attr_unique_id (sensor_entities E utcoffset t)).
Proof.
  intros Hnd.
  apply (NoDup_map_transfer _attr_unique_id id_parts).
  - apply unique_id_inj.
  - destruct t as [sts D M]. apply entity_parts_nodup, Hnd.
Qed.

End UniqueIds.

Lemma unique_ids_are_distinct_witness :
  NoDup (map _attr_unique_id
             (sensor_entities (sample_env good_service) (fun _ => 3600)
                              sample_topology)).
Proof.
  apply (unique_ids_are_distinct
           (sample_env good_service) (fun _ => 3600) sample_topology).
  cbv. repeat (constructor; [cbn [In]; intuition discriminate |]). constructor.
Defined.
